(** * MicroNote: cache, session and ownership properties

    A shallow embedding of the request handlers of the MicroNote services
    (notes service, todos service, auth service, hybrid API gateway and the
    monolithic Express backend) together with the Redis client they use, and
    the proofs of the properties the specification states about them.

    Conventions.
    - Time is the integer number of seconds [Math.floor(Date.now() / 1000)];
      every handler is run at one instant [now].
    - Integer identifiers (AUTO_INCREMENT primary keys, the [id] claim of a
      token) are values of [N]; a template literal [`${id}`] is [pretty id].
    - An awaited call that rejects is an exception: handlers live in a state
      and exception monad, [try_catch] is the [try { } catch { }] block.
    - A JSON text is represented by the JSON value it encodes, so
      [JSON.stringify] and [JSON.parse] are the identity on [Json]. *)

From stdpp Require Import gmap strings list pretty sorting.
From Stdlib Require Import ZArith Ascii String.

Local Open Scope string_scope.
Set Warnings "-register-all".

(** ** State and exception monad *)

Inductive Res (A : Type) : Type :=
  | Ok (a : A)
  | Throw (err : string).
Arguments Ok {A} a.
Arguments Throw {A} err.

Definition M (S A : Type) : Type := S → Res A * S.

Definition ret {S A : Type} (a : A) : M S A := λ s, (Ok a, s).

Definition throw {S A : Type} (err : string) : M S A := λ s, (Throw err, s).

Definition bind {S A B : Type} (m : M S A) (k : A → M S B) : M S B :=
  λ s, match m s with
       | (Ok a, s') => k a s'
       | (Throw e, s') => (Throw e, s')
       end.

(** [try { m } catch (e) { h e }]: effects performed by [m] before it threw
    stay performed. *)
Definition try_catch {S A : Type} (m : M S A) (h : string → M S A) : M S A :=
  λ s, match m s with
       | (Ok a, s') => (Ok a, s')
       | (Throw e, s') => h e s'
       end.

(** [p.catch(h)] on a promise that is not awaited: the failure is handed to
    [h] and the caller continues. *)
Definition catch_promise {S : Type} (m : M S unit) (h : string → M S unit) : M S unit :=
  try_catch m h.

Definition gets {S A : Type} (f : S → A) : M S A := λ s, (Ok (f s), s).

Definition modify {S : Type} (f : S → S) : M S unit := λ s, (Ok tt, f s).

Notation "'let!' x ':=' m 'in' k" := (bind m (λ x, k))
  (at level 10, x binder, m at level 100, k at level 200, only parsing).

(** ** JSON values and HTTP responses *)

Inductive Json : Type :=
  | JNull
  | JBool (b : bool)
  | JNum (z : Z)
  | JStr (s : string)
  | JArr (items : list Json)
  | JObj (fields : list (string * Json)).

(** JavaScript truthiness of a string: only the empty string is falsy. *)
Definition truthy_string (s : string) : bool := negb (String.eqb s "").

(** Truthiness of a possibly [undefined]/[null] string. *)
Definition truthy_opt (o : option string) : bool :=
  match o with
  | Some s => truthy_string s
  | None => false
  end.

Record Response : Type := mkResponse {
  status : nat;
  body : Json
}.

(** [res.json(data)]: the status is 200 unless [res.status] was called. *)
Definition res_json (data : Json) : Response := mkResponse 200 data.
Definition res_status_json (code : nat) (data : Json) : Response := mkResponse code data.


(** The usual envelope [{ success, message }]. *)
Definition envelope (success : bool) (message : string) : Json :=
  JObj [("success", JBool success); ("message", JStr message)].

Definition envelope_data (success : bool) (message : string) (data : Json) : Json :=
  JObj [("success", JBool success); ("message", JStr message); ("data", data)].

(** ** The Redis client

    A store of live entries with an absolute expiry instant.  Every command
    first consumes one flag of the fault schedule [rfaults]: a [true] flag
    makes this command reject (connection lost, server error), an exhausted
    schedule means the server answers. *)

Module Redis.

Record entry (V : Type) : Type := mkEntry {
  value : V;
  ttl_set : Z;        (* the TTL given to SETEX *)
  expires_at : Z      (* instant of the SETEX plus the TTL *)
}.
Arguments mkEntry {V} value ttl_set expires_at.
Arguments value {V} _.
Arguments ttl_set {V} _.
Arguments expires_at {V} _.

Record t (V : Type) : Type := mk {
  store : gmap string (entry V);
  rfaults : list bool
}.
Arguments mk {V} store rfaults.
Arguments store {V} _.
Arguments rfaults {V} _.

Definition connection_error : string := "redis: command failed".
Definition invalid_expire : string := "ERR invalid expire time in 'setex' command".

Section Commands.
Context {V : Type}.

Definition live (now : Z) (e : entry V) : bool := (now <? expires_at e)%Z.

(** What a reader at instant [now] sees under key [k]. *)
Definition lookup (now : Z) (r : t V) (k : string) : option V :=
  match store r !! k with
  | Some e => if live now e then Some (value e) else None
  | None => None
  end.

(** Consume one flag of the fault schedule. *)
Definition command {A : Type} (run : t V → Res A * t V) : M (t V) A :=
  λ r, match rfaults r with
       | [] => run r
       | false :: fs => run (mk (store r) fs)
       | true :: fs => (Throw connection_error, mk (store r) fs)
       end.

(** The head of the fault schedule, and the client once it is consumed. *)
Definition faulty (r : t V) : bool :=
  match rfaults r with
  | true :: _ => true
  | _ => false
  end.

Definition ticked (r : t V) : t V := mk (store r) (tail (rfaults r)).

Definition get (now : Z) (k : string) : M (t V) (option V) :=
  command (λ r, (Ok (lookup now r k), r)).

Definition setEx (now : Z) (k : string) (seconds : Z) (v : V) : M (t V) unit :=
  command (λ r,
    if (seconds <=? 0)%Z then (Throw invalid_expire, r)
    else (Ok tt, mk (<[k := mkEntry v seconds (now + seconds)%Z]> (store r)) (rfaults r))).

Definition del_keys (ks : list string) (m : gmap string (entry V)) : gmap string (entry V) :=
  foldr delete m ks.

Definition del (ks : list string) : M (t V) unit :=
  command (λ r, (Ok tt, mk (del_keys ks (store r)) (rfaults r))).

Definition del1 (k : string) : M (t V) unit := del [k].

End Commands.

(** Glob patterns of KEYS: [*] matches any run of characters, [?] any one
    character, every other character itself (no pattern of the services
    uses a bracket class or an escape). *)
Fixpoint glob (pat s : string) {struct pat} : bool :=
  match pat with
  | EmptyString => match s with EmptyString => true | _ => false end
  | String c pat' =>
      if Ascii.eqb c "*" then
        (fix star (s : string) : bool :=
           glob pat' s ||
           match s with
           | EmptyString => false
           | String _ s' => star s'
           end) s
      else
        match s with
        | EmptyString => false
        | String d s' => (Ascii.eqb c "?" || Ascii.eqb c d) && glob pat' s'
        end
  end.

Definition keys {V : Type} (now : Z) (pat : string) : M (t V) (list string) :=
  command (λ r,
    (Ok (map fst (filter (λ kv, glob pat kv.1 = true ∧ live now kv.2 = true)
                         (map_to_list (store r)))), r)).

End Redis.

(** ** External libraries

    [jsonwebtoken], [bcryptjs] and the LIKE operator of MySQL are not code of
    the repository: they are interfaces here. *)

Record Claims : Type := mkClaims {
  claim_id : N;               (* [{ id: userId }] *)
  claim_type : option string; (* ['refresh'] for refresh tokens *)
  claim_iat : Z;
  claim_exp : Z
}.

(** [jwt_decode token] is the payload when the signature of [token] checks
    under JWT_SECRET. *)
Class JwtLib : Type := {
  jwt_sign : Claims → string;
  jwt_decode : string → option Claims
}.

(** [jwt.verify(token, secret)]: the signature must check and the token must
    not be expired ([clockTimestamp >= payload.exp] is a TokenExpiredError). *)
Definition jwt_verify `{JwtLib} (now : Z) (token : string) : Res Claims :=
  match jwt_decode token with
  | Some c => if (now <? claim_exp c)%Z then Ok c else Throw "TokenExpiredError"
  | None => Throw "JsonWebTokenError"
  end.

Definition days (n : Z) : Z := (n * 24 * 60 * 60)%Z.

(** [jwt.sign({ id }, secret, { expiresIn: '7d' })]. *)
Definition generateToken `{JwtLib} (now : Z) (userId : N) : string :=
  jwt_sign (mkClaims userId None now (now + days 7)).

(** [jwt.sign({ id, type: 'refresh' }, secret, { expiresIn: '30d' })]. *)
Definition generateRefreshToken `{JwtLib} (now : Z) (userId : N) : string :=
  jwt_sign (mkClaims userId (Some "refresh") now (now + days 30)).

Class BcryptLib : Type := {
  bcrypt_hash : string → string;
  bcrypt_compare : string → string → bool
}.

(** ** Strings: trimming *)

Definition is_space (c : ascii) : bool :=
  match N_of_ascii c with
  | 9%N | 10%N | 11%N | 12%N | 13%N | 32%N => true
  | _ => false
  end.

Fixpoint trim_left (s : string) : string :=
  match s with
  | String c s' => if is_space c then trim_left s' else s
  | EmptyString => EmptyString
  end.

Definition trim (s : string) : string :=
  String.rev (trim_left (String.rev (trim_left s))).

(** [isLength({ min, max })] of express-validator. *)
Definition isLength (lo hi : nat) (s : string) : bool :=
  (lo <=? String.length s)%nat && (String.length s <=? hi)%nat.
Definition isLength_min (lo : nat) (s : string) : bool :=
  (lo <=? String.length s)%nat.

(** ** Strings: character classes *)

Fixpoint all_chars (P : ascii → bool) (s : string) : bool :=
  match s with
  | EmptyString => true
  | String c s' => P c && all_chars P s'
  end.

Definition is_digit (c : ascii) : bool :=
  (48 <=? N_of_ascii c)%N && (N_of_ascii c <=? 57)%N.

(** The characters with a meaning in a KEYS pattern, and the texts without. *)
Definition is_meta (c : ascii) : bool := Ascii.eqb c "*" || Ascii.eqb c "?".

Definition plain (s : string) : bool := all_chars (λ c, negb (is_meta c)) s.

(** [\w+]: letters, digits and the underscore. *)
Definition is_word_char (c : ascii) : bool :=
  let n := N_of_ascii c in
  ((48 <=? n)%N && (n <=? 57)%N) || ((65 <=? n)%N && (n <=? 90)%N)
  || ((97 <=? n)%N && (n <=? 122)%N) || (n =? 95)%N.

Definition colon_free (s : string) : bool :=
  all_chars (λ c, negb (Ascii.eqb c ":")) s.

(** ** What the Express services share

    Each service owns one table (by primary key, with its AUTO_INCREMENT
    counter), a Redis client, the NODE_ENV switch and a console. *)

Module Service.

Record World (V Row : Type) : Type := mkWorld {
  redis : Redis.t V;
  table : gmap N Row;
  next_id : N;
  dfaults : list bool;          (* fault schedule of the database *)
  development : bool;           (* NODE_ENV === 'development' *)
  console : list string         (* what console.error printed *)
}.
Arguments mkWorld {V Row} redis table next_id dfaults development console.
Arguments redis {V Row} _.
Arguments table {V Row} _.
Arguments next_id {V Row} _.
Arguments dfaults {V Row} _.
Arguments development {V Row} _.
Arguments console {V Row} _.

Section Ops.
Context {V Row : Type}.

Definition set_redis (r : Redis.t V) (w : World V Row) : World V Row :=
  mkWorld r (table w) (next_id w) (dfaults w) (development w) (console w).

Definition set_table (t : gmap N Row) (nxt : N) (w : World V Row) : World V Row :=
  mkWorld (redis w) t nxt (dfaults w) (development w) (console w).

Definition set_dfaults (fs : list bool) (w : World V Row) : World V Row :=
  mkWorld (redis w) (table w) (next_id w) fs (development w) (console w).

Definition console_error (msg : string) : M (World V Row) unit :=
  modify (λ w, mkWorld (redis w) (table w) (next_id w) (dfaults w) (development w)
                       (console w ++ [msg])).

(** Run a command of the Redis client on the client of the service. *)
Definition redisClient {A : Type} (m : M (Redis.t V) A) : M (World V Row) A :=
  λ w, let '(r, rd) := m (redis w) in (r, set_redis rd w).

(** One query to the database: it rejects when the schedule says so. *)
Definition query {A : Type} (run : World V Row → Res A * World V Row)
    : M (World V Row) A :=
  λ w, match dfaults w with
       | [] => run w
       | false :: fs => run (set_dfaults fs w)
       | true :: fs => (Throw "SequelizeConnectionError", set_dfaults fs w)
       end.

(** [error: NODE_ENV === 'development' ? error.message : undefined]; an
    undefined field is absent from the JSON text. *)
Definition failure (dev : bool) (message err : string) : Json :=
  JObj ([("success", JBool false); ("message", JStr message)]
        ++ (if dev then [("error", JStr err)] else [])).

(** The catch block of a handler:
    [console.error(label, error); res.status(500).json({ ... })]. *)
Definition server_error (label message err : string) : M (World V Row) Response :=
  let! _ := console_error (label ++ err) in
  let! dev := gets development in
  ret (res_status_json 500 (failure dev message err)).

(** The answer to a body that fails its chain.  [errors.array()] belongs
    to express-validator; of each of its entries the name of the failing
    field is kept. *)
Definition validation_failed (errors : list string) : Json :=
  JObj [("success", JBool false); ("message", JStr "Validation failed");
        ("errors", JArr (map JStr errors))].

Definition not_found (what : string) : Response :=
  res_status_json 404 (envelope false (what ++ " not found")).

(** The body that the [clearUserCache] helpers share:
    [const keys = await redisClient.keys(pattern);
     if (keys.length > 0) await redisClient.del(keys)]. *)
Definition delete_matching (now : Z) (pattern : string) : M (World V Row) unit :=
  let! ks := redisClient (Redis.keys now pattern) in
  if (0 <? List.length ks)%nat then redisClient (Redis.del ks) else ret tt.

End Ops.

End Service.

(** JavaScript values that pass [isBoolean()] of express-validator, which
    compares the value converted to a string with 'true', 'false', '1', '0'. *)
Inductive BooleanInput : Type :=
  | BTrue | BFalse                 (* true, false *)
  | BOne | BZero                   (* 1, 0 *)
  | BStr (s : BooleanString)
with BooleanString : Type :=
  | StrTrue | StrFalse | StrOne | StrZero.   (* 'true', 'false', '1', '0' *)

(** JavaScript truthiness: every non-empty string is truthy. *)
Definition js_truthy (v : BooleanInput) : bool :=
  match v with
  | BTrue | BOne | BStr _ => true
  | BFalse | BZero => false
  end.

(** ** Notes service (Express + Sequelize + Redis response cache) *)

Module NotesService.
Import Service.

Record Note : Type := mkNote {
  note_id : N;
  title : string;
  text : string;
  userId : N;
  tags : list string;
  isPinned : bool;
  isArchived : bool;
  createdAt : Z;
  updatedAt : Z
}.

Abbreviation World := (Service.World Json Note).

Definition note_json (n : Note) : Json :=
  JObj [("id", JNum (Z.of_N (note_id n)));
        ("title", JStr (title n));
        ("text", JStr (text n));
        ("userId", JNum (Z.of_N (userId n)));
        ("tags", JArr (map JStr (tags n)));
        ("isPinned", JBool (isPinned n));
        ("isArchived", JBool (isArchived n));
        ("createdAt", JNum (createdAt n));
        ("updatedAt", JNum (updatedAt n))].

(** *** Sequelize model [Note] *)

Definition Note_create (now : Z) (ttl txt : string) (tgs : list string)
    (pinned : bool) (uid : N) : M World Note :=
  query (λ w,
    let n := mkNote (next_id w) ttl txt uid tgs pinned false now now in
    (Ok n, set_table (<[next_id w := n]> (table w)) (next_id w + 1)%N w)).

(** [Note.findOne({ where: { id, userId } })]. *)
Definition Note_findOne (nid uid : N) : M World (option Note) :=
  query (λ w,
    (Ok (match table w !! nid with
         | Some n => if (userId n =? uid)%N then Some n else None
         | None => None
         end), w)).

(** The body of an update request is handed to [note.update] as it is:
    every attribute present in it is assigned. *)
Record Updates : Type := mkUpdates {
  u_title : option string;
  u_text : option string;
  u_tags : option (list string);
  u_isPinned : option bool;
  u_isArchived : option bool;
  u_userId : option N
}.

Definition apply_updates (now : Z) (u : Updates) (n : Note) : Note :=
  mkNote (note_id n)
         (default (title n) (u_title u))
         (default (text n) (u_text u))
         (default (userId n) (u_userId u))
         (default (tags n) (u_tags u))
         (default (isPinned n) (u_isPinned u))
         (default (isArchived n) (u_isArchived u))
         (createdAt n)
         now.

Definition Note_update (now : Z) (n : Note) (u : Updates) : M World Note :=
  query (λ w,
    let n' := apply_updates now u n in
    (Ok n', set_table (<[note_id n := n']> (table w)) (next_id w) w)).

Definition Note_destroy (n : Note) : M World unit :=
  query (λ w, (Ok tt, set_table (delete (note_id n) (table w)) (next_id w) w)).

(** [order: [['isPinned', 'DESC'], ['updatedAt', 'DESC']]]. *)
Definition note_beforeb (a b : Note) : bool :=
  if Bool.eqb (isPinned a) (isPinned b) then (updatedAt b <=? updatedAt a)%Z
  else isPinned a.

Definition note_before (a b : Note) : Prop := Is_true (note_beforeb a b).

#[local] Instance note_before_dec : RelDecision note_before.
Proof. intros a b. unfold note_before. apply _. Defined.

Record Where : Type := mkWhere {
  w_userId : N;
  w_isArchived : bool;
  w_isPinned : option bool;
  w_search : option string
}.

Section Handlers.
(** [sql_like pattern subject]: the LIKE operator of the database. *)
Variable sql_like : string → string → bool.

Definition matches (c : Where) (n : Note) : bool :=
  (userId n =? w_userId c)%N
  && Bool.eqb (isArchived n) (w_isArchived c)
  && match w_isPinned c with
     | Some p => Bool.eqb (isPinned n) p
     | None => true
     end
  && match w_search c with
     | Some s => sql_like ("%" ++ s ++ "%") (title n) || sql_like ("%" ++ s ++ "%") (text n)
     | None => true
     end.

(** [Note.findAndCountAll({ where, order, limit, offset })]; a negative
    LIMIT or OFFSET is rejected by the database. *)
Definition Note_findAndCountAll (c : Where) (limit offset : Z)
    : M World (list Note * nat) :=
  query (λ w,
    if (limit <? 0)%Z || (offset <? 0)%Z then (Throw "SequelizeDatabaseError", w)
    else
      let rows := merge_sort note_before
                    (filter (λ n, matches c n = true) (map snd (map_to_list (table w)))) in
      (Ok (take (Z.to_nat limit) (drop (Z.to_nat offset) rows), List.length rows), w)).

(** *** Response cache *)

Inductive Method : Type := GET | POST | PUT | PATCH | DELETE.

Definition is_GET (m : Method) : bool :=
  match m with GET => true | _ => false end.

(** [`cache:notes:${req.user.id}:${req.originalUrl}`]. *)
Definition cacheKey (uid : N) (originalUrl : string) : string :=
  "cache:notes:" ++ pretty uid ++ ":" ++ originalUrl.

(** The replaced [res.json] of a cache miss: the response of the
    downstream handler is stored, whatever its status, by a SETEX that
    is not awaited and whose failure goes to [console.error]. *)
Definition on_miss (now : Z) (duration : Z) (key : string)
    (next : M World Response) : M World Response :=
  let! resp := next in
  let! _ := catch_promise (redisClient (Redis.setEx now key duration (body resp)))
                          console_error in
  ret resp.

(** [cacheMiddleware(duration)].  [next] is the rest of the route: it
    ends by sending one response through [res.json].  The [catch] block
    is entered by a rejected GET only, because the handlers behind
    [next] catch their own errors. *)
Definition cacheMiddleware (duration : Z) (now : Z) (m : Method) (uid : N)
    (originalUrl : string) (next : M World Response) : M World Response :=
  if negb (is_GET m) then next
  else
    let key := cacheKey uid originalUrl in
    let! looked := try_catch (let! c := redisClient (Redis.get now key) in ret (Some c))
                             (λ _, ret None) in
    match looked with
    | Some (Some cached) => ret (res_json cached)
    | Some None => on_miss now duration key next
    | None => next
    end.

(** [clearUserCache(userId)]. *)
Definition clearUserCache (now : Z) (uid : N) : M World unit :=
  delete_matching now ("cache:notes:" ++ pretty uid ++ ":*").

(** *** Routes *)

Record Query : Type := mkQuery {
  q_page : option Z;
  q_limit : option Z;
  q_search : option string;
  q_archived : option string;
  q_pinned : option string
}.

(** [Math.ceil(count / limit)]; a division by zero gives Infinity or NaN,
    which JSON encodes as null. *)
Definition pages (count : nat) (limit : Z) : Json :=
  if (limit =? 0)%Z then JNull
  else JNum ((Z.of_nat count + limit - 1) / limit)%Z.

(** GET / *)
Definition get_notes (now : Z) (uid : N) (q : Query) : M World Response :=
  try_catch
    (let page := default 1%Z (q_page q) in
     let limit := default 50%Z (q_limit q) in
     let offset := ((page - 1) * limit)%Z in
     let whereClause :=
       mkWhere uid
               (bool_decide (q_archived q = Some "true"))
               (match q_pinned q with
                | Some p => Some (bool_decide (p = "true"))
                | None => None
                end)
               (if truthy_opt (q_search q) then q_search q else None) in
     let! found := Note_findAndCountAll whereClause limit offset in
     ret (res_json
            (JObj [("success", JBool true);
                   ("data", JObj [("notes", JArr (map note_json found.1));
                                  ("pagination",
                                   JObj [("total", JNum (Z.of_nat found.2));
                                         ("page", JNum page);
                                         ("limit", JNum limit);
                                         ("pages", pages found.2 limit)])])])))
    (server_error "Get notes error: " "Failed to retrieve notes").

Record CreateBody : Type := mkCreateBody {
  c_title : option string;
  c_text : option string;
  c_tags : option (list string);
  c_isPinned : option bool
}.

(** The validation chain of POST /: [title] trimmed, 1 to 100 characters;
    [text] trimmed, at least one character. *)
Definition validate_create (b : CreateBody) : list string :=
  (if isLength 1 100 (trim (default "" (c_title b))) then [] else ["title"])
  ++ (if isLength_min 1 (trim (default "" (c_text b))) then [] else ["text"]).

(** POST / *)
Definition create_note (now : Z) (uid : N) (b : CreateBody) : M World Response :=
  try_catch
    (match validate_create b with
     | (_ :: _) as errors => ret (res_status_json 400 (validation_failed errors))
     | [] =>
         let! note := Note_create now (trim (default "" (c_title b)))
                                  (trim (default "" (c_text b)))
                                  (default [] (c_tags b))
                                  (default false (c_isPinned b)) uid in
         let! _ := clearUserCache now uid in
         ret (res_status_json 201
                (envelope_data true "Note created successfully"
                               (JObj [("note", note_json note)])))
     end)
    (server_error "Create note error: " "Failed to create note").

(** The validation chain of PUT /:id: both fields optional. *)
Definition validate_update (u : Updates) : list string :=
  (match u_title u with
   | Some t => if isLength 1 100 (trim t) then [] else ["title"]
   | None => []
   end)
  ++ (match u_text u with
      | Some t => if isLength_min 1 (trim t) then [] else ["text"]
      | None => []
      end).

(** The sanitizers write the trimmed values back into [req.body]. *)
Definition sanitize_update (u : Updates) : Updates :=
  mkUpdates (trim <$> u_title u) (trim <$> u_text u) (u_tags u)
            (u_isPinned u) (u_isArchived u) (u_userId u).

(** PUT /:id *)
Definition update_note (now : Z) (uid nid : N) (u : Updates) : M World Response :=
  try_catch
    (match validate_update u with
     | (_ :: _) as errors => ret (res_status_json 400 (validation_failed errors))
     | [] =>
         let! found := Note_findOne nid uid in
         match found with
         | None => ret (not_found "Note")
         | Some note =>
             let! note' := Note_update now note (sanitize_update u) in
             let! _ := clearUserCache now uid in
             ret (res_json (envelope_data true "Note updated successfully"
                                          (JObj [("note", note_json note')])))
         end
     end)
    (server_error "Update note error: " "Failed to update note").

(** DELETE /:id *)
Definition delete_note (now : Z) (uid nid : N) : M World Response :=
  try_catch
    (let! found := Note_findOne nid uid in
     match found with
     | None => ret (not_found "Note")
     | Some note =>
         let! _ := Note_destroy note in
         let! _ := clearUserCache now uid in
         ret (res_json (envelope true "Note deleted successfully"))
     end)
    (server_error "Delete note error: " "Failed to delete note").

(** The three writes of the service. *)
Inductive Write : Type :=
  | Create (b : CreateBody)
  | Update (nid : N) (u : Updates)
  | Delete (nid : N).

Definition write (now : Z) (uid : N) (op : Write) : M World Response :=
  match op with
  | Create b => create_note now uid b
  | Update nid u => update_note now uid nid u
  | Delete nid => delete_note now uid nid
  end.

End Handlers.

End NotesService.

(** ** Todos service (Express + Sequelize; it invalidates, and caches nothing) *)

Module TodosService.
Import Service.

Record Todo : Type := mkTodo {
  todo_id : N;
  text : string;
  completed : bool;
  userId : N;
  priority : string;
  dueDate : option Z;
  category : option string;
  completedAt : option Z;
  createdAt : Z;
  updatedAt : Z
}.

Abbreviation World := (Service.World Json Todo).

Definition opt_json {A : Type} (f : A → Json) (o : option A) : Json :=
  match o with
  | Some a => f a
  | None => JNull
  end.

Definition todo_json (t : Todo) : Json :=
  JObj [("id", JNum (Z.of_N (todo_id t)));
        ("text", JStr (text t));
        ("completed", JBool (completed t));
        ("userId", JNum (Z.of_N (userId t)));
        ("priority", JStr (priority t));
        ("dueDate", opt_json JNum (dueDate t));
        ("category", opt_json JStr (category t));
        ("completedAt", opt_json JNum (completedAt t));
        ("createdAt", JNum (createdAt t));
        ("updatedAt", JNum (updatedAt t))].

(** *** Sequelize model [Todo] *)

Definition Todo_create (now : Z) (txt prio : string) (cat : option string)
    (due : option Z) (uid : N) : M World Todo :=
  query (λ w,
    let t := mkTodo (next_id w) txt false uid prio due cat None now now in
    (Ok t, set_table (<[next_id w := t]> (table w)) (next_id w + 1)%N w)).

(** [Todo.findOne({ where: { id, userId } })]. *)
Definition Todo_findOne (tid uid : N) : M World (option Todo) :=
  query (λ w,
    (Ok (match table w !! tid with
         | Some t => if (userId t =? uid)%N then Some t else None
         | None => None
         end), w)).

Section Handlers.
(** What a BOOLEAN attribute of Sequelize stores for a value assigned to
    it: the conversion belongs to the library. *)
Variable sequelize_boolean : BooleanInput → bool.

(** The attributes an update may assign; [None] leaves the attribute alone,
    [Some None] assigns null. *)
Record Updates : Type := mkUpdates {
  u_text : option string;
  u_priority : option string;
  u_category : option string;
  u_dueDate : option Z;
  u_completed : option BooleanInput;
  u_completedAt : option (option Z);
  u_userId : option N
}.

Definition apply_updates (now : Z) (u : Updates) (t : Todo) : Todo :=
  mkTodo (todo_id t)
         (default (text t) (u_text u))
         (default (completed t) (sequelize_boolean <$> u_completed u))
         (default (userId t) (u_userId u))
         (default (priority t) (u_priority u))
         (match u_dueDate u with Some d => Some d | None => dueDate t end)
         (match u_category u with Some c => Some c | None => category t end)
         (default (completedAt t) (u_completedAt u))
         (createdAt t)
         now.

Definition Todo_update (now : Z) (t : Todo) (u : Updates) : M World Todo :=
  query (λ w,
    let t' := apply_updates now u t in
    (Ok t', set_table (<[todo_id t := t']> (table w)) (next_id w) w)).

Definition Todo_destroy (t : Todo) : M World unit :=
  query (λ w, (Ok tt, set_table (delete (todo_id t) (table w)) (next_id w) w)).

(** [clearUserCache(userId)]. *)
Definition clearUserCache (now : Z) (uid : N) : M World unit :=
  delete_matching now ("cache:todos:" ++ pretty uid ++ ":*").

(** *** Routes *)

Record CreateBody : Type := mkCreateBody {
  c_text : option string;
  c_priority : option string;
  c_category : option string;
  c_dueDate : option Z
}.

Definition isIn (allowed : list string) (s : string) : bool :=
  bool_decide (s ∈ allowed).

Definition check_optional {A : Type} (field : string) (ok : A → bool) (o : option A)
    : list string :=
  match o with
  | Some a => if ok a then [] else [field]
  | None => []
  end.

Definition validate_create (b : CreateBody) : list string :=
  (if isLength 1 200 (trim (default "" (c_text b))) then [] else ["text"])
  ++ check_optional "priority" (isIn ["low"; "medium"; "high"]) (c_priority b)
  ++ check_optional "category" (isLength 0 30) (c_category b).

(** POST / *)
Definition create_todo (now : Z) (uid : N) (b : CreateBody) : M World Response :=
  try_catch
    (match validate_create b with
     | (_ :: _) as errors => ret (res_status_json 400 (validation_failed errors))
     | [] =>
         let! todo := Todo_create now (trim (default "" (c_text b)))
                                  (default "medium" (c_priority b))
                                  (c_category b) (c_dueDate b) uid in
         let! _ := clearUserCache now uid in
         ret (res_status_json 201
                (envelope_data true "Todo created successfully"
                               (JObj [("todo", todo_json todo)])))
     end)
    (server_error "Create todo error: " "Failed to create todo").

(** PATCH /:id/toggle *)
Definition toggle_todo (now : Z) (uid tid : N) : M World Response :=
  try_catch
    (let! found := Todo_findOne tid uid in
     match found with
     | None => ret (not_found "Todo")
     | Some todo =>
         let completed' := negb (completed todo) in
         let! todo' := Todo_update now todo
                         (mkUpdates None None None None
                                    (Some (if completed' then BTrue else BFalse))
                                    (Some (if completed' then Some now else None))
                                    None) in
         let! _ := clearUserCache now uid in
         ret (res_json (envelope_data true "Todo updated successfully"
                                      (JObj [("todo", todo_json todo')])))
     end)
    (server_error "Toggle todo error: " "Failed to update todo").

Definition validate_update (u : Updates) : list string :=
  check_optional "text" (λ s, isLength 1 200 (trim s)) (u_text u)
  ++ check_optional "priority" (isIn ["low"; "medium"; "high"]) (u_priority u)
  ++ check_optional "category" (isLength 0 30) (u_category u).

(** [if ('completed' in updates)
       updates.completedAt = updates.completed ? new Date() : null],
    after the [trim] sanitizer of [text]. *)
Definition prepare_update (now : Z) (u : Updates) : Updates :=
  mkUpdates (trim <$> u_text u) (u_priority u) (u_category u) (u_dueDate u)
            (u_completed u)
            (match u_completed u with
             | Some v => Some (if js_truthy v then Some now else None)
             | None => u_completedAt u
             end)
            (u_userId u).

(** PUT /:id *)
Definition update_todo (now : Z) (uid tid : N) (u : Updates) : M World Response :=
  try_catch
    (match validate_update u with
     | (_ :: _) as errors => ret (res_status_json 400 (validation_failed errors))
     | [] =>
         let! found := Todo_findOne tid uid in
         match found with
         | None => ret (not_found "Todo")
         | Some todo =>
             let! todo' := Todo_update now todo (prepare_update now u) in
             let! _ := clearUserCache now uid in
             ret (res_json (envelope_data true "Todo updated successfully"
                                          (JObj [("todo", todo_json todo')])))
         end
     end)
    (server_error "Update todo error: " "Failed to update todo").

(** DELETE /:id *)
Definition delete_todo (now : Z) (uid tid : N) : M World Response :=
  try_catch
    (let! found := Todo_findOne tid uid in
     match found with
     | None => ret (not_found "Todo")
     | Some todo =>
         let! _ := Todo_destroy todo in
         let! _ := clearUserCache now uid in
         ret (res_json (envelope true "Todo deleted successfully"))
     end)
    (server_error "Delete todo error: " "Failed to delete todo").

(** The four writes of the service. *)
Inductive Write : Type :=
  | Create (b : CreateBody)
  | Toggle (tid : N)
  | Update (tid : N) (u : Updates)
  | Delete (tid : N).

Definition write (now : Z) (uid : N) (op : Write) : M World Response :=
  match op with
  | Create b => create_todo now uid b
  | Toggle tid => toggle_todo now uid tid
  | Update tid u => update_todo now uid tid u
  | Delete tid => delete_todo now uid tid
  end.

End Handlers.

End TodosService.

(** ** Notes service: authentication, search and the assembled routes *)

(** [s.split(sep)] for a separator of one character. *)
Fixpoint split_on (sep : ascii) (s : string) : list string :=
  match s with
  | EmptyString => [EmptyString]
  | String c s' =>
      if Ascii.eqb c sep then EmptyString :: split_on sep s'
      else match split_on sep s' with
           | piece :: pieces => String c piece :: pieces
           | [] => [String c EmptyString]
           end
  end.

Definition space_free (s : string) : bool :=
  all_chars (λ c, negb (Ascii.eqb c " ")) s.

(** [authHeader && authHeader.split(' ')[1]], when it is truthy. *)
Definition header_token (authorization : option string) : option string :=
  match authorization with
  | Some authHeader =>
      match split_on " " authHeader !! 1%nat with
      | Some token => if truthy_string token then Some token else None
      | None => None
      end
  | None => None
  end.

Definition plain_error (code : nat) (message : string) : Response :=
  res_status_json code (JObj [("error", JStr message)]).

(** [authenticateToken] of the notes, todos and users services: [next] is
    the rest of the route, run with [req.user = decoded]. *)
Definition authenticateToken `{JwtLib} {S : Type} (now : Z) (authorization : option string)
    (next : Claims → M S Response) : M S Response :=
  match header_token authorization with
  | None => ret (plain_error 401 "Access token required")
  | Some token =>
      match jwt_verify now token with
      | Ok decoded => next decoded
      | Throw _ => ret (plain_error 403 "Invalid or expired token")
      end
  end.

Module NotesRoutes.
Import Service NotesService.

Section Routes.
Context `{JwtLib}.
Variable sql_like : string → string → bool.

(** [order: [['updatedAt', 'DESC']]] *)
Definition newer (a b : Note) : Prop := (updatedAt b ≤ updatedAt a)%Z.

#[local] Instance newer_dec : RelDecision newer.
Proof. intros a b. unfold newer. apply _. Defined.

(** [Note.findAll({ where: { userId, isArchived: false, [Op.or]: [...] },
                    order, limit })]; a negative LIMIT is rejected by the
    database. *)
Definition Note_findAll (uid : N) (pattern : string) (limit : Z) : M World (list Note) :=
  query (λ w,
    if (limit <? 0)%Z then (Throw "SequelizeDatabaseError", w)
    else
      (Ok (take (Z.to_nat limit)
             (merge_sort newer
                (filter (λ n, userId n = uid ∧ isArchived n = false
                              ∧ (sql_like pattern (title n) = true
                                 ∨ sql_like pattern (text n) = true))
                        (map snd (map_to_list (table w)))))), w)).

(** GET /search.  [limit] is the number [parseInt(limit)] reads from the
    query, [None] when the query has no [limit]; a value that does not parse
    as a number is outside this model. *)
Definition search_notes (now : Z) (uid : N) (q : option string) (limit : option Z)
    : M World Response :=
  try_catch
    (if negb (truthy_opt q)
     then ret (res_status_json 400 (envelope false "Search query required"))
     else
       let query := default "" q in
       let! notes := Note_findAll uid ("%" ++ query ++ "%") (default 20%Z limit) in
       ret (res_json (JObj [("success", JBool true);
                            ("data", JObj [("notes", JArr (map note_json notes));
                                           ("query", JStr query)])])))
    (server_error "Search notes error: " "Search failed").




End Routes.

End NotesRoutes.

(** ** Hybrid API gateway (REST in front of the gRPC notes service) *)

Module Gateway.

Record World : Type := mkWorld {
  redis : Redis.t Json;
  development : bool;           (* NODE_ENV === 'development' *)
  logged : list string          (* what logger.error recorded *)
}.

Definition set_redis (r : Redis.t Json) (w : World) : World :=
  mkWorld r (development w) (logged w).

Definition logger_error (msg : string) : M World unit :=
  modify (λ w, mkWorld (redis w) (development w) (logged w ++ [msg])).

Definition redisClient {A : Type} (m : M (Redis.t Json) A) : M World A :=
  λ w, let '(r, rd) := m (redis w) in (r, set_redis rd w).

(** [req.query]: the five parameters the route reads, as the strings of
    the query string; every other parameter is ignored by the route. *)
Record Query : Type := mkQuery {
  q_page : option string;
  q_limit : option string;
  q_search : option string;
  q_archived : option string;
  q_pinned : option string;
  q_others : list (string * string)
}.

(** [x || ''] *)
Definition or_empty (o : option string) : string :=
  match o with
  | Some s => if truthy_string s then s else ""
  | None => ""
  end.

(** The values the template literal renders, after the destructuring
    defaults [page = 1, limit = 50, archived = false]. *)
Definition rendered (q : Query) : list string :=
  [default "1" (q_page q); default "50" (q_limit q); or_empty (q_search q);
   default "false" (q_archived q); or_empty (q_pinned q)].

(** [`notes:${req.user.id}:${page}:${limit}:${search || ''}:${archived}:${pinned || ''}`] *)
Definition cacheKey (uid : N) (q : Query) : string :=
  "notes:" ++ pretty uid ++ ":" ++ default "1" (q_page q)
           ++ ":" ++ default "50" (q_limit q)
           ++ ":" ++ or_empty (q_search q)
           ++ ":" ++ default "false" (q_archived q)
           ++ ":" ++ or_empty (q_pinned q).

(** The answer of the gRPC notes service. *)
Record NotesReply : Type := mkNotesReply {
  reply_success : bool;
  reply_notes : option (list Json);
  reply_pagination : Json;
  reply_message : string
}.

Section Handlers.
(** [notesClient.getNotes]: the remote call, with the conversion of the
    query parameters it is given ([parseInt(page)], [archived === 'true'],
    ...); it answers or rejects. *)
Variable notesClient_getNotes : N → Query → Res NotesReply.

Definition grpc {A : Type} (r : Res A) : M World A := λ w, (r, w).

Definition failure (dev : bool) (message err : string) : Json :=
  JObj ([("success", JBool false); ("message", JStr message)]
        ++ (if dev then [("error", JStr err)] else [])).

(** GET /api/notes: the cache is read and written inside the [try] block
    of the handler. *)
Definition get_notes (now : Z) (uid : N) (q : Query) : M World Response :=
  try_catch
    (let key := cacheKey uid q in
     let! cached := redisClient (Redis.get now key) in
     match cached with
     | Some c => ret (res_json c)
     | None =>
         let! reply := grpc (notesClient_getNotes uid q) in
         let result :=
           JObj [("success", JBool (reply_success reply));
                 ("data", JObj [("notes", JArr (default [] (reply_notes reply)));
                                ("pagination", reply_pagination reply)]);
                 ("message", JStr (reply_message reply))] in
         let! _ := redisClient (Redis.setEx now key 300 result) in
         ret (res_json result)
     end)
    (λ e, let! _ := logger_error ("Get notes error: " ++ e) in
          let! dev := gets development in
          ret (res_status_json 500 (failure dev "Failed to retrieve notes" e))).

End Handlers.

End Gateway.

(** ** REST API gateway (a proxy in front of the services) *)

Module RestGateway.

(** [`blacklist:${token}`] *)
Definition blacklist_key (token : string) : string := "blacklist:" ++ token.

Section Middleware.
Context `{JwtLib}.

(** What the [try] block of the middleware decides before [next()]: an
    answer of its own, or the claims to go on with. *)
Definition check_token (now : Z) (token : string) : M (Redis.t string) (Response + Claims) :=
  try_catch
    (let! blacklisted := Redis.get now (blacklist_key token) in
     if truthy_opt blacklisted
     then ret (inl (plain_error 401 "Token has been revoked"))
     else
       let! decoded := (λ r, (jwt_verify now token, r)) in
       ret (inr decoded))
    (λ _, ret (inl (plain_error 403 "Invalid or expired token"))).

(** [authenticateToken] of the gateway.  [next] is the proxy the request
    is handed to, with [req.user = decoded]; it reports its failures in its
    own [onError], not to the [catch] of the middleware. *)
Definition authenticateToken (now : Z) (authorization : option string)
    (next : Claims → M (Redis.t string) Response) : M (Redis.t string) Response :=
  match header_token authorization with
  | None => ret (plain_error 401 "Access token required")
  | Some token =>
      let! verdict := check_token now token in
      match verdict with
      | inl answer => ret answer
      | inr decoded => next decoded
      end
  end.

End Middleware.

End RestGateway.

(** ** Hybrid API gateway: creating a note *)

Module GatewayWrites.

(** The gateway with its Socket.IO server: what was emitted, to which room,
    in order. *)
Record Emitted : Type := mkEmitted {
  room : string;
  event : string;
  payload : Json
}.

Record World : Type := mkWorld {
  gateway : Gateway.World;
  emitted : list Emitted
}.

Definition lift {A : Type} (m : M Gateway.World A) : M World A :=
  λ w, let '(r, g) := m (gateway w) in (r, mkWorld g (emitted w)).

Definition redisClient {A : Type} (m : M (Redis.t Json) A) : M World A :=
  lift (Gateway.redisClient m).

(** [io.to(room).emit(event, payload)] *)
Definition io_emit (to_room name : string) (data : Json) : M World unit :=
  modify (λ w, mkWorld (gateway w) (emitted w ++ [mkEmitted to_room name data])).

(** [req.body] of POST /api/notes. *)
Record Body : Type := mkBody {
  b_title : option string;
  b_text : option string;
  b_tags : option (list string);
  b_isPinned : option bool
}.

(** The request of [notesClient.createNote]. *)
Record CreateNoteRequest : Type := mkCreateNoteRequest {
  r_title : option string;
  r_text : option string;
  r_user_id : N;
  r_tags : list string;
  r_is_pinned : bool
}.

(** The answer of the gRPC notes service. *)
Record NoteReply : Type := mkNoteReply {
  reply_success : bool;
  reply_message : string;
  reply_note : Json
}.

(** [`notes:${req.user.id}:*`] *)
Definition cachePattern (uid : N) : string := "notes:" ++ pretty uid ++ ":*".

Section Handlers.
(** [notesClient.createNote]: the remote call; it answers or rejects. *)
Variable notesClient_createNote : CreateNoteRequest → Res NoteReply.

Definition grpc {A : Type} (r : Res A) : M World A := λ w, (r, w).

(** POST /api/notes *)
Definition create_note (now : Z) (uid : N) (b : Body) : M World Response :=
  try_catch
    (let! reply :=
       grpc (notesClient_createNote
               (mkCreateNoteRequest (b_title b) (b_text b) uid
                                    (default [] (b_tags b)) (default false (b_isPinned b)))) in
     if reply_success reply then
       let! keys := redisClient (Redis.keys now (cachePattern uid)) in
       let! _ := (if (0 <? List.length keys)%nat then redisClient (Redis.del keys)
                  else ret tt) in
       let! _ := io_emit ("user_" ++ pretty uid) "noteCreated"
                         (JObj [("type", JStr "NOTE_CREATED");
                                ("note", reply_note reply)]) in
       ret (res_status_json 201
              (JObj [("success", JBool true);
                     ("message", JStr (reply_message reply));
                     ("data", JObj [("note", reply_note reply)])]))
     else
       ret (res_status_json 400
              (JObj [("success", JBool false);
                     ("message", JStr (reply_message reply))])))
    (λ e, let! _ := lift (Gateway.logger_error ("Create note error: " ++ e)) in
          let! dev := gets (λ w, Gateway.development (gateway w)) in
          ret (res_status_json 500 (Gateway.failure dev "Failed to create note" e))).

End Handlers.

End GatewayWrites.

(** ** Auth service (refresh tokens and the blacklist in Redis) *)

Definition lower_char (c : ascii) : ascii :=
  let n := N_of_ascii c in
  if (65 <=? n)%N && (n <=? 90)%N then ascii_of_N (n + 32) else c.

(** [s.toLowerCase()] on ASCII letters. *)
Fixpoint toLowerCase (s : string) : string :=
  match s with
  | String c s' => String (lower_char c) (toLowerCase s')
  | EmptyString => EmptyString
  end.

Module AuthService.
Import Service.

Record User : Type := mkUser {
  user_id : N;
  name : string;
  email : string;
  username : string;
  password : string;            (* the bcrypt hash *)
  createdAt : Z;
  updatedAt : Z
}.

Abbreviation World := (Service.World string User).

Section Handlers.
Context `{JwtLib} `{BcryptLib}.

(** [User.findOne({ where: { [Op.or]: [{ username }, { email }] } })]:
    one of the matching rows. *)
Definition User_findOne_or (uname mail : string) : M World (option User) :=
  query (λ w,
    (Ok ((λ found, found.2.2) <$>
         list_find (λ kv, username kv.2 = uname ∨ email kv.2 = mail)
                   (map_to_list (table w))), w)).

Definition User_findByPk (uid : N) : M World (option User) :=
  query (λ w, (Ok (table w !! uid), w)).

(** Run [jwt.verify] where a rejection is an exception of the handler. *)
Definition verify_token (now : Z) (token : string) : M World Claims :=
  λ w, (jwt_verify now token, w).

(** [const { password: _, ...userResponse } = user.toJSON()] *)
Definition userResponse (u : User) : Json :=
  JObj [("id", JNum (Z.of_N (user_id u)));
        ("name", JStr (name u));
        ("email", JStr (email u));
        ("username", JStr (username u));
        ("createdAt", JNum (createdAt u));
        ("updatedAt", JNum (updatedAt u))].

Record LoginBody : Type := mkLoginBody {
  l_username : option string;
  l_password : option string
}.

(** [body('username').notEmpty(), body('password').notEmpty()] *)
Definition validate_login (b : LoginBody) : list string :=
  (if truthy_opt (l_username b) then [] else ["username"])
  ++ (if truthy_opt (l_password b) then [] else ["password"]).

Definition refresh_key (uid : N) : string := "refresh_token:" ++ pretty uid.
Definition blacklist_key (token : string) : string := "blacklist:" ++ token.

Definition invalid_credentials : Response :=
  res_status_json 400 (envelope false "Invalid credentials").

(** POST /login *)
Definition login (now : Z) (b : LoginBody) : M World Response :=
  try_catch
    (match validate_login b with
     | (_ :: _) as errors => ret (res_status_json 400 (validation_failed errors))
     | [] =>
         let uname := default "" (l_username b) in
         let pass := default "" (l_password b) in
         let! found := User_findOne_or uname (toLowerCase uname) in
         match found with
         | None => ret invalid_credentials
         | Some user =>
             if negb (bcrypt_compare pass (password user)) then ret invalid_credentials
             else
               let accessToken := generateToken now (user_id user) in
               let refreshToken := generateRefreshToken now (user_id user) in
               let! _ := redisClient (Redis.setEx now (refresh_key (user_id user))
                                                  (30 * 24 * 60 * 60) refreshToken) in
               ret (res_json
                      (envelope_data true "Login successful"
                         (JObj [("user", userResponse user);
                                ("accessToken", JStr accessToken);
                                ("refreshToken", JStr refreshToken)])))
         end
     end)
    (server_error "Login error: " "Login failed").

Definition invalid_refresh : Response :=
  res_status_json 403 (envelope false "Invalid refresh token").

(** POST /refresh *)
Definition refresh (now : Z) (refreshToken : option string) : M World Response :=
  try_catch
    (match refreshToken with
     | Some token =>
         if negb (truthy_string token)
         then ret (res_status_json 401 (envelope false "Refresh token required"))
         else
           let! decoded := verify_token now token in
           let! storedToken := redisClient (Redis.get now (refresh_key (claim_id decoded))) in
           if negb (truthy_opt storedToken) || negb (bool_decide (storedToken = Some token))
           then ret invalid_refresh
           else
             let accessToken := generateToken now (claim_id decoded) in
             ret (res_json (JObj [("success", JBool true);
                                  ("data", JObj [("accessToken", JStr accessToken)])]))
     | None => ret (res_status_json 401 (envelope false "Refresh token required"))
     end)
    (λ _, ret invalid_refresh).

Definition logout_successful : Response :=
  res_json (envelope true "Logout successful").

(** [if (refreshToken) { ... del(`refresh_token:${decoded.id}`) }] *)
Definition drop_refresh_token (now : Z) (refreshToken : option string) : M World unit :=
  match refreshToken with
  | Some token =>
      if truthy_string token then
        let! decoded := verify_token now token in
        redisClient (Redis.del1 (refresh_key (claim_id decoded)))
      else ret tt
  | None => ret tt
  end.

(** [if (accessToken) { ... setEx(`blacklist:${accessToken}`, expirationTime, 'revoked') }] *)
Definition blacklist_access_token (now : Z) (accessToken : option string) : M World unit :=
  match accessToken with
  | Some token =>
      if truthy_string token then
        let! decoded := verify_token now token in
        let expirationTime := (claim_exp decoded - now)%Z in
        redisClient (Redis.setEx now (blacklist_key token) expirationTime "revoked")
      else ret tt
  | None => ret tt
  end.

(** POST /logout *)
Definition logout (now : Z) (refreshToken accessToken : option string)
    : M World Response :=
  try_catch
    (let! _ := drop_refresh_token now refreshToken in
     let! _ := blacklist_access_token now accessToken in
     ret logout_successful)
    (λ _, ret logout_successful).

Definition not_valid (message : string) : Response :=
  res_status_json 401 (JObj [("valid", JBool false); ("message", JStr message)]).

(** POST /verify *)
Definition verify (now : Z) (token : string) : M World Response :=
  try_catch
    (let! blacklisted := redisClient (Redis.get now (blacklist_key token)) in
     if truthy_opt blacklisted then ret (not_valid "Token revoked")
     else
       let! decoded := verify_token now token in
       let! found := User_findByPk (claim_id decoded) in
       match found with
       | None => ret (not_valid "User not found")
       | Some user =>
           ret (res_json (JObj [("valid", JBool true);
                                ("user", JObj [("id", JNum (Z.of_N (user_id user)));
                                               ("name", JStr (name user));
                                               ("email", JStr (email user));
                                               ("username", JStr (username user))])]))
       end)
    (λ _, ret (not_valid "Invalid token")).

End Handlers.

End AuthService.

(** ** Auth service behind gRPC (token validation, refresh and logout) *)

Module GrpcAuth.

(** The service has the database and Redis of the auth service, and a
    logger. *)
Record World : Type := mkWorld {
  service : AuthService.World;
  logged : list string          (* what logger.error recorded *)
}.

Definition lift {A : Type} (m : M AuthService.World A) : M World A :=
  λ w, let '(r, s) := m (service w) in (r, mkWorld s (logged w)).

Definition redisClient {A : Type} (m : M (Redis.t string) A) : M World A :=
  lift (Service.redisClient m).

Definition logger_error (msg : string) : M World unit :=
  modify (λ w, mkWorld (service w) (logged w ++ [msg])).

(** What the handler hands to [callback]: [callback(null, response)] or
    [callback({ code, message })]. *)
Inductive Outcome : Type :=
  | Reply (response : Json)
  | Failure (code message : string).

Definition refresh_key (uid : N) : string := "refresh_token:" ++ pretty uid.
Definition blacklist_key (token : string) : string := "blacklist:" ++ token.

Definition not_valid (message : string) : Outcome :=
  Reply (JObj [("valid", JBool false); ("message", JStr message)]).

Definition logout_successful : Outcome :=
  Reply (JObj [("success", JBool true); ("message", JStr "Logout successful")]).

Definition invalid_refresh : Outcome :=
  Reply (JObj [("success", JBool false); ("message", JStr "Invalid refresh token")]).

Section Handlers.
Context `{JwtLib}.

Definition verify_token (now : Z) (token : string) : M World Claims :=
  λ w, (jwt_verify now token, w).

(** [validateToken(call, callback)] *)
Definition validateToken (now : Z) (token : string) : M World Outcome :=
  try_catch
    (let! blacklisted := redisClient (Redis.get now (blacklist_key token)) in
     if truthy_opt blacklisted then ret (not_valid "Token has been revoked")
     else
       let! decoded := verify_token now token in
       let! found := lift (AuthService.User_findByPk (claim_id decoded)) in
       match found with
       | None => ret (not_valid "User not found")
       | Some user =>
           ret (Reply
                  (JObj [("valid", JBool true);
                         ("user",
                          JObj [("id", JNum (Z.of_N (AuthService.user_id user)));
                                ("name", JStr (AuthService.name user));
                                ("email", JStr (AuthService.email user));
                                ("username", JStr (AuthService.username user));
                                ("created_at", JNum (AuthService.createdAt user));
                                ("updated_at", JNum (AuthService.updatedAt user))])]))
       end)
    (λ e, let! _ := logger_error ("gRPC Token validation error: " ++ e) in
          ret (not_valid "Invalid token")).

(** [refreshToken(call, callback)] *)
Definition refreshToken (now : Z) (refresh_token : string) : M World Outcome :=
  try_catch
    (let! decoded := verify_token now refresh_token in
     let! storedToken := redisClient (Redis.get now (refresh_key (claim_id decoded))) in
     if negb (truthy_opt storedToken) || negb (bool_decide (storedToken = Some refresh_token))
     then ret invalid_refresh
     else
       let accessToken := generateToken now (claim_id decoded) in
       ret (Reply (JObj [("success", JBool true); ("access_token", JStr accessToken)])))
    (λ e, let! _ := logger_error ("gRPC Refresh token error: " ++ e) in
          ret invalid_refresh).

(** [if (refresh_token) { try { ... del(`refresh_token:${decoded.id}`) } catch { } }] *)
Definition drop_refresh_token (now : Z) (refresh_token : option string) : M World unit :=
  match refresh_token with
  | Some token =>
      if truthy_string token then
        try_catch
          (let! decoded := verify_token now token in
           redisClient (Redis.del1 (refresh_key (claim_id decoded))))
          (λ _, ret tt)
      else ret tt
  | None => ret tt
  end.

(** [if (access_token) { try { ... if (expirationTime > 0) setEx(...) } catch { } }] *)
Definition blacklist_access_token (now : Z) (access_token : option string) : M World unit :=
  match access_token with
  | Some token =>
      if truthy_string token then
        try_catch
          (let! decoded := verify_token now token in
           let expirationTime := (claim_exp decoded - now)%Z in
           if (0 <? expirationTime)%Z
           then redisClient (Redis.setEx now (blacklist_key token) expirationTime "revoked")
           else ret tt)
          (λ _, ret tt)
      else ret tt
  | None => ret tt
  end.

(** [logout(call, callback)] *)
Definition logout (now : Z) (access_token refresh_token : option string)
    : M World Outcome :=
  try_catch
    (let! _ := drop_refresh_token now refresh_token in
     let! _ := blacklist_access_token now access_token in
     ret logout_successful)
    (λ e, let! _ := logger_error ("gRPC Logout error: " ++ e) in
          ret logout_successful).

End Handlers.

End GrpcAuth.

(** ** Users service (profile, password and account of the caller)

    The service has no Redis client; it works on the [users] table that
    the auth service fills. *)

Module UsersService.
Import Service.

Abbreviation World := AuthService.World.

Section Handlers.
Context `{BcryptLib}.

Definition set_password (now : Z) (hashed : string) (u : AuthService.User)
    : AuthService.User :=
  AuthService.mkUser (AuthService.user_id u) (AuthService.name u) (AuthService.email u)
                     (AuthService.username u) hashed (AuthService.createdAt u) now.

(** [user.update({ password: hashedPassword })]: the model of this service
    has no hook. *)
Definition User_update_password (now : Z) (u : AuthService.User) (hashed : string)
    : M World AuthService.User :=
  query (λ w,
    let u' := set_password now hashed u in
    (Ok u', set_table (<[AuthService.user_id u := u']> (table w)) (next_id w) w)).

(** [user.destroy()] *)
Definition User_destroy (u : AuthService.User) : M World unit :=
  query (λ w, (Ok tt, set_table (delete (AuthService.user_id u) (table w)) (next_id w) w)).

Record PasswordBody : Type := mkPasswordBody {
  currentPassword : option string;
  newPassword : option string
}.

(** [body('currentPassword').notEmpty(), body('newPassword').isLength({ min: 6 })] *)
Definition validate_password (b : PasswordBody) : list string :=
  (if truthy_opt (currentPassword b) then [] else ["currentPassword"])
  ++ (if isLength_min 6 (default "" (newPassword b)) then [] else ["newPassword"]).

(** PUT /me/password *)
Definition change_password (now : Z) (uid : N) (b : PasswordBody) : M World Response :=
  try_catch
    (match validate_password b with
     | (_ :: _) as errors => ret (res_status_json 400 (validation_failed errors))
     | [] =>
         let! found := AuthService.User_findByPk uid in
         match found with
         | None => ret (not_found "User")
         | Some user =>
             if negb (bcrypt_compare (default "" (currentPassword b))
                                     (AuthService.password user))
             then ret (res_status_json 400 (envelope false "Current password is incorrect"))
             else
               let hashedPassword := bcrypt_hash (default "" (newPassword b)) in
               let! _ := User_update_password now user hashedPassword in
               ret (res_json (envelope true "Password changed successfully"))
         end
     end)
    (server_error "Change password error: " "Failed to change password").

(** [body('password').notEmpty()] *)
Definition validate_delete (password : option string) : list string :=
  if truthy_opt password then [] else ["password"].

(** DELETE /me *)
Definition delete_account (uid : N) (password : option string) : M World Response :=
  try_catch
    (match validate_delete password with
     | (_ :: _) as errors => ret (res_status_json 400 (validation_failed errors))
     | [] =>
         let! found := AuthService.User_findByPk uid in
         match found with
         | None => ret (not_found "User")
         | Some user =>
             if negb (bcrypt_compare (default "" password) (AuthService.password user))
             then ret (res_status_json 400 (envelope false "Password is incorrect"))
             else
               let! _ := User_destroy user in
               ret (res_json (envelope true "Account deleted successfully"))
         end
     end)
    (server_error "Delete user error: " "Failed to delete account").

End Handlers.

End UsersService.

(** ** The monolithic backend: database access *)

Module Backend.

(** One table of the MySQL database as a route sees it. *)
Record Db (Row : Type) : Type := mkDb {
  table : gmap N Row;
  next_id : N;                  (* AUTO_INCREMENT counter *)
  dfaults : list bool;          (* fault schedule of the database *)
  development : bool;           (* NODE_ENV === 'development' *)
  console : list string         (* what console.error printed *)
}.
Arguments mkDb {Row} table next_id dfaults development console.
Arguments table {Row} _.
Arguments next_id {Row} _.
Arguments dfaults {Row} _.
Arguments development {Row} _.
Arguments console {Row} _.

Section Ops.
Context {Row : Type}.

Definition set_table (t : gmap N Row) (nxt : N) (w : Db Row) : Db Row :=
  mkDb t nxt (dfaults w) (development w) (console w).

Definition faulty (w : Db Row) : bool :=
  match dfaults w with
  | true :: _ => true
  | _ => false
  end.

Definition ticked (w : Db Row) : Db Row :=
  mkDb (table w) (next_id w) (tail (dfaults w)) (development w) (console w).

(** One round trip to the database ([connection.execute], a Sequelize
    call): it consumes one flag of the schedule and rejects when the flag
    is set. *)
Definition execute {A : Type} (run : Db Row → Res A * Db Row) : M (Db Row) A :=
  λ w, if faulty w then (Throw "ECONNREFUSED", ticked w) else run (ticked w).

(** [mysql.createConnection(...)]. *)
Definition createConnection : M (Db Row) unit := execute (λ w, (Ok tt, w)).

Definition console_error (msg : string) : M (Db Row) unit :=
  modify (λ w, mkDb (table w) (next_id w) (dfaults w) (development w) (console w ++ [msg])).

(** The catch block of the routes on raw SQL:
    [console.error(label, error); res.status(500).json({ success: false, message })]. *)
Definition server_error (label message err : string) : M (Db Row) Response :=
  let! _ := console_error (label ++ err) in
  ret (res_status_json 500 (envelope false message)).

(** [SELECT ... WHERE p ORDER BY before]: the rows, with their primary key. *)
Definition select (p : N * Row → bool) (before : N * Row → N * Row → Prop)
    `{!RelDecision before} (w : Db Row) : list (N * Row) :=
  merge_sort before (filter (λ kv, p kv = true) (map_to_list (table w))).

(** [INSERT INTO ...]: the row gets the next value of the counter; the
    primary key constraint rejects a key that is taken. *)
Definition insert (r : Row) : Db Row → Res N * Db Row :=
  λ w, match table w !! next_id w with
       | Some _ => (Throw "ER_DUP_ENTRY", w)
       | None => (Ok (next_id w),
                  set_table (<[next_id w := r]> (table w)) (next_id w + 1)%N w)
       end.

(** [LIMIT ? OFFSET ?]: negative values are rejected by the database. *)
Definition limit_offset {A : Type} (limit offset : Z) (rows : list A) : Res (list A) :=
  if (limit <? 0)%Z || (offset <? 0)%Z then Throw "ER_PARSE_ERROR"
  else Ok (take (Z.to_nat limit) (drop (Z.to_nat offset) rows)).

End Ops.

(** The answer to a body that fails its chain.  [errors.array()] belongs
    to express-validator; of each of its entries the name of the failing
    field is kept. *)
Definition validation_failed (errors : list string) : Json :=
  JObj [("success", JBool false); ("message", JStr "Validation failed");
        ("errors", JArr (map JStr errors))].

Definition not_found (what : string) : Response :=
  res_status_json 404 (envelope false (what ++ " not found")).

Definition check_optional {A : Type} (field : string) (ok : A → bool) (o : option A)
    : list string :=
  match o with
  | Some a => if ok a then [] else [field]
  | None => []
  end.

(** [Math.ceil(total / limit)], null for Infinity and NaN. *)
Definition pages (total : nat) (limit : Z) : Json :=
  if (limit =? 0)%Z then JNull
  else JNum ((Z.of_nat total + limit - 1) / limit)%Z.

Definition bit (b : bool) : Json := JNum (if b then 1 else 0).

Definition opt_json {A : Type} (f : A → Json) (o : option A) : Json :=
  match o with
  | Some a => f a
  | None => JNull
  end.

End Backend.

(** The owners named in a response: the number under every [user_id] key. *)
Fixpoint owners (j : Json) : list Z :=
  match j with
  | JArr items => flat_map owners items
  | JObj fields =>
      flat_map (λ kv, let '(k, v) := kv in
                      List.app (if String.eqb k "user_id"
                                then match v with JNum z => [z] | _ => [] end
                                else [])
                               (owners v)) fields
  | _ => []
  end.

(** ** The monolithic backend: routes/notes.js (raw SQL) *)

Module BackendNotes.
Import Backend.

(** A row of [notes]; its primary key is its key in the table. *)
Record NoteRow : Type := mkNoteRow {
  title : string;
  text : string;
  user_id : N;
  tags : list string;
  is_pinned : bool;
  is_archived : bool;
  created_at : Z;
  updated_at : Z
}.

Abbreviation World := (Db NoteRow).

(** [{ ...row, tags: JSON.parse(row.tags), isPinned: Boolean(row.is_pinned),
       isArchived: Boolean(row.is_archived) }] *)
Definition note_json (kv : N * NoteRow) : Json :=
  let r := kv.2 in
  JObj [("id", JNum (Z.of_N kv.1));
        ("title", JStr (title r));
        ("text", JStr (text r));
        ("user_id", JNum (Z.of_N (user_id r)));
        ("tags", JArr (map JStr (tags r)));
        ("is_pinned", bit (is_pinned r));
        ("is_archived", bit (is_archived r));
        ("created_at", JNum (created_at r));
        ("updated_at", JNum (updated_at r));
        ("isPinned", JBool (is_pinned r));
        ("isArchived", JBool (is_archived r))].

(** [SELECT * FROM notes WHERE id = ? AND user_id = ?] *)
Definition select_owned (nid uid : N) (w : World) : list (N * NoteRow) :=
  match table w !! nid with
  | Some r => if (user_id r =? uid)%N then [(nid, r)] else []
  | None => []
  end.

(** [SELECT * FROM notes WHERE id = ?] *)
Definition select_by_id (nid : N) (w : World) : list (N * NoteRow) :=
  match table w !! nid with
  | Some r => [(nid, r)]
  | None => []
  end.

(** [ORDER BY is_pinned DESC, created_at DESC] *)
Definition note_beforeb (a b : N * NoteRow) : bool :=
  if Bool.eqb (is_pinned a.2) (is_pinned b.2) then (created_at b.2 <=? created_at a.2)%Z
  else is_pinned a.2.

Definition note_before (a b : N * NoteRow) : Prop := Is_true (note_beforeb a b).

#[local] Instance note_before_dec : RelDecision note_before.
Proof. intros a b. unfold note_before. apply _. Defined.

Record Query : Type := mkQuery {
  q_page : option Z;
  q_limit : option Z;
  q_search : option string;
  q_archived : option string;
  q_pinned : option string
}.

(** [req.body]: the fields the routes read.  Tags are strings, which is
    what the chains check them as; [isPinned] and [isArchived] are read for
    their truthiness only. *)
Record Body : Type := mkBody {
  b_title : option string;
  b_text : option string;
  b_tags : option (list string);
  b_isPinned : option bool;
  b_isArchived : option bool
}.

(** The chain of POST /. *)
Definition validate_create (b : Body) : list string :=
  (if isLength 1 100 (trim (default "" (b_title b))) then [] else ["title"])
  ++ (if isLength 1 5000 (trim (default "" (b_text b))) then [] else ["text"])
  ++ check_optional "tags.*" (forallb (isLength 0 20)) (b_tags b).

(** The chain of PUT /:id. *)
Definition validate_update (b : Body) : list string :=
  check_optional "title" (λ s, isLength 1 100 (trim s)) (b_title b)
  ++ check_optional "text" (λ s, isLength 1 5000 (trim s)) (b_text b)
  ++ check_optional "tags.*" (forallb (isLength 0 20)) (b_tags b).

(** The assignments of the UPDATE statement of PUT /:id, on the sanitized
    (trimmed) body. *)
Definition assign (now : Z) (b : Body) (r : NoteRow) : NoteRow :=
  mkNoteRow (default (title r) (trim <$> b_title b))
            (default (text r) (trim <$> b_text b))
            (user_id r)
            (default (tags r) (b_tags b))
            (default (is_pinned r) (b_isPinned b))
            (default (is_archived r) (b_isArchived b))
            (created_at r)
            now.

Definition set_pinned (now : Z) (pinned : bool) (r : NoteRow) : NoteRow :=
  mkNoteRow (title r) (text r) (user_id r) (tags r) pinned (is_archived r)
            (created_at r) now.

(** [rows[0]], which throws a TypeError on a property of undefined. *)
Definition first_row {S A : Type} (rows : list A) : M S A :=
  match rows with
  | r :: _ => ret r
  | [] => throw "TypeError"
  end.

Section Handlers.
(** [sql_like pattern subject]: the LIKE operator of the database. *)
Variable sql_like : string → string → bool.

Definition wanted (uid : N) (q : Query) (kv : N * NoteRow) : bool :=
  (user_id kv.2 =? uid)%N
  && Bool.eqb (is_archived kv.2) (bool_decide (q_archived q = Some "true"))
  && match q_pinned q with
     | Some p => Bool.eqb (is_pinned kv.2) (bool_decide (p = "true"))
     | None => true
     end
  && (if truthy_opt (q_search q)
      then sql_like ("%" ++ default "" (q_search q) ++ "%") (title kv.2)
           || sql_like ("%" ++ default "" (q_search q) ++ "%") (text kv.2)
      else true).

(** GET /api/notes *)
Definition list_notes (now : Z) (uid : N) (q : Query) : M World Response :=
  let! _ := createConnection in
  try_catch
    (let page := default 1%Z (q_page q) in
     let limit := default 20%Z (q_limit q) in
     let! notes := execute (λ w,
       (limit_offset limit ((page - 1) * limit)%Z (select (wanted uid q) note_before w), w)) in
     let! total := execute (λ w,
       (Ok (List.length (select (wanted uid q) note_before w)), w)) in
     ret (res_json
            (JObj [("success", JBool true);
                   ("data", JObj [("notes", JArr (map note_json notes));
                                  ("pagination",
                                   JObj [("page", JNum page);
                                         ("limit", JNum limit);
                                         ("total", JNum (Z.of_nat total));
                                         ("pages", pages total limit)])])])))
    (server_error "Get notes error: " "Server error while fetching notes").

(** GET /api/notes/:id *)
Definition get_note (now : Z) (uid nid : N) : M World Response :=
  let! _ := createConnection in
  try_catch
    (let! notes := execute (λ w, (Ok (select_owned nid uid w), w)) in
     match notes with
     | [] => ret (not_found "Note")
     | n :: _ => ret (res_json (JObj [("success", JBool true);
                                      ("data", JObj [("note", note_json n)])]))
     end)
    (server_error "Get note error: " "Server error while fetching note").

(** POST /api/notes *)
Definition create_note (now : Z) (uid : N) (b : Body) : M World Response :=
  let! _ := createConnection in
  try_catch
    (match validate_create b with
     | (_ :: _) as errors => ret (res_status_json 400 (validation_failed errors))
     | [] =>
         let! insertId := execute (insert
             (mkNoteRow (trim (default "" (b_title b))) (trim (default "" (b_text b)))
                              uid (default [] (b_tags b)) (default false (b_isPinned b))
                              false now now)) in
         let! notes := execute (λ w, (Ok (select_by_id insertId w), w)) in
         let! n := first_row notes in
         ret (res_status_json 201
                (envelope_data true "Note created successfully"
                               (JObj [("note", note_json n)])))
     end)
    (server_error "Create note error: " "Server error while creating note").

(** PUT /api/notes/:id *)
Definition update_note (now : Z) (uid nid : N) (b : Body) : M World Response :=
  let! _ := createConnection in
  try_catch
    (match validate_update b with
     | (_ :: _) as errors => ret (res_status_json 400 (validation_failed errors))
     | [] =>
         let! existingNotes := execute (λ w, (Ok (select_owned nid uid w), w)) in
         match existingNotes with
         | [] => ret (not_found "Note")
         | _ :: _ =>
             (* UPDATE notes SET ... WHERE id = ? AND user_id = ? *)
             let! _ := execute (λ w,
               (Ok tt, set_table (alter (λ r, if (user_id r =? uid)%N then assign now b r else r)
                                        nid (table w)) (next_id w) w)) in
             let! notes := execute (λ w, (Ok (select_by_id nid w), w)) in
             let! n := first_row notes in
             ret (res_json (envelope_data true "Note updated successfully"
                                          (JObj [("note", note_json n)])))
         end
     end)
    (server_error "Update note error: " "Server error while updating note").

(** DELETE /api/notes/:id *)
Definition delete_note (now : Z) (uid nid : N) : M World Response :=
  let! _ := createConnection in
  try_catch
    ((* DELETE FROM notes WHERE id = ? AND user_id = ? *)
     let! affectedRows := execute (λ w,
       match select_owned nid uid w with
       | [] => (Ok 0%nat, w)
       | _ :: _ => (Ok 1%nat, set_table (delete nid (table w)) (next_id w) w)
       end) in
     if (affectedRows =? 0)%nat then ret (not_found "Note")
     else ret (res_json (envelope true "Note deleted successfully")))
    (server_error "Delete note error: " "Server error while deleting note").

(** PATCH /api/notes/:id/pin *)
Definition toggle_pin (now : Z) (uid nid : N) : M World Response :=
  let! _ := createConnection in
  try_catch
    (let! notes := execute (λ w, (Ok (select_owned nid uid w), w)) in
     match notes with
     | [] => ret (not_found "Note")
     | n :: _ =>
         let newPinnedStatus := negb (is_pinned n.2) in
         (* UPDATE notes SET is_pinned = ?, updated_at = NOW() WHERE id = ? *)
         let! _ := execute (λ w,
           (Ok tt, set_table (alter (set_pinned now newPinnedStatus) nid (table w))
                             (next_id w) w)) in
         let! updatedNotes := execute (λ w, (Ok (select_by_id nid w), w)) in
         let! n' := first_row updatedNotes in
         ret (res_json
                (envelope_data true
                   ("Note " ++ (if is_pinned n'.2 then "pinned" else "unpinned")
                            ++ " successfully")
                   (JObj [("note", note_json n')])))
     end)
    (server_error "Toggle pin error: " "Server error while toggling pin status").

(** The requests of the router. *)
Inductive Request : Type :=
  | List (q : Query)
  | Get (nid : N)
  | Create (b : Body)
  | Update (nid : N) (b : Body)
  | Delete (nid : N)
  | Pin (nid : N).

Definition handle (now : Z) (uid : N) (req : Request) : M World Response :=
  match req with
  | List q => list_notes now uid q
  | Get nid => get_note now uid nid
  | Create b => create_note now uid b
  | Update nid b => update_note now uid nid b
  | Delete nid => delete_note now uid nid
  | Pin nid => toggle_pin now uid nid
  end.

End Handlers.

End BackendNotes.

(** ** The monolithic backend: routes/todos.js (raw SQL) *)

Module BackendTodos.
Import Backend.

(** A row of [todos]; its primary key is its key in the table. *)
Record TodoRow : Type := mkTodoRow {
  text : string;
  completed : bool;
  user_id : N;
  priority : string;
  due_date : option Z;
  category : option string;
  completed_at : option Z;
  created_at : Z;
  updated_at : Z
}.

Abbreviation World := (Db TodoRow).

(** [{ ...row, completed: Boolean(row.completed) }] *)
Definition todo_json (kv : N * TodoRow) : Json :=
  let r := kv.2 in
  JObj [("id", JNum (Z.of_N kv.1));
        ("text", JStr (text r));
        ("completed", JBool (completed r));
        ("user_id", JNum (Z.of_N (user_id r)));
        ("priority", JStr (priority r));
        ("due_date", opt_json JNum (due_date r));
        ("category", opt_json JStr (category r));
        ("completed_at", opt_json JNum (completed_at r));
        ("created_at", JNum (created_at r));
        ("updated_at", JNum (updated_at r))].

(** [SELECT * FROM todos WHERE id = ? AND user_id = ?] *)
Definition select_owned (tid uid : N) (w : World) : list (N * TodoRow) :=
  match table w !! tid with
  | Some r => if (user_id r =? uid)%N then [(tid, r)] else []
  | None => []
  end.

(** [SELECT * FROM todos WHERE id = ?] *)
Definition select_by_id (tid : N) (w : World) : list (N * TodoRow) :=
  match table w !! tid with
  | Some r => [(tid, r)]
  | None => []
  end.

(** [ORDER BY completed ASC, created_at DESC] *)
Definition todo_beforeb (a b : N * TodoRow) : bool :=
  if Bool.eqb (completed a.2) (completed b.2) then (created_at b.2 <=? created_at a.2)%Z
  else negb (completed a.2).

Definition todo_before (a b : N * TodoRow) : Prop := Is_true (todo_beforeb a b).

#[local] Instance todo_before_dec : RelDecision todo_before.
Proof. intros a b. unfold todo_before. apply _. Defined.

Record Query : Type := mkQuery {
  q_page : option Z;
  q_limit : option Z;
  q_completed : option string;
  q_priority : option string;
  q_category : option string
}.

Definition wanted (uid : N) (q : Query) (kv : N * TodoRow) : bool :=
  (user_id kv.2 =? uid)%N
  && match q_completed q with
     | Some c => Bool.eqb (completed kv.2) (bool_decide (c = "true"))
     | None => true
     end
  && (if truthy_opt (q_priority q)
      then bool_decide (Some (priority kv.2) = q_priority q) else true)
  && (if truthy_opt (q_category q)
      then bool_decide (category kv.2 = q_category q) else true).

Definition owned (uid : N) (kv : N * TodoRow) : bool := (user_id kv.2 =? uid)%N.

Record Body : Type := mkBody {
  b_text : option string;
  b_priority : option string;
  b_category : option string;
  b_dueDate : option Z;
  b_completed : option BooleanInput
}.

Definition isIn (allowed : list string) (s : string) : bool :=
  bool_decide (s ∈ allowed).

(** The chain of POST /. *)
Definition validate_create (b : Body) : list string :=
  (if isLength 1 200 (trim (default "" (b_text b))) then [] else ["text"])
  ++ check_optional "priority" (isIn ["low"; "medium"; "high"]) (b_priority b)
  ++ check_optional "category" (λ s, isLength 0 30 (trim s)) (b_category b).

(** The chain of PUT /:id. *)
Definition validate_update (b : Body) : list string :=
  check_optional "text" (λ s, isLength 1 200 (trim s)) (b_text b)
  ++ check_optional "priority" (isIn ["low"; "medium"; "high"]) (b_priority b)
  ++ check_optional "category" (λ s, isLength 0 30 (trim s)) (b_category b).

(** [x || null] on a string. *)
Definition or_null (o : option string) : option string :=
  match o with
  | Some s => if truthy_string s then Some s else None
  | None => None
  end.

(** The assignments of the UPDATE statement of PUT /:id:
    [completed = ?] with [req.body.completed ? 1 : 0], and [completed_at =
    NOW()] or [completed_at = NULL] with it. *)
Definition assign (now : Z) (b : Body) (r : TodoRow) : TodoRow :=
  mkTodoRow (default (text r) (trim <$> b_text b))
            (default (completed r) (js_truthy <$> b_completed b))
            (user_id r)
            (default (priority r) (b_priority b))
            (match b_dueDate b with Some d => Some d | None => due_date r end)
            (match b_category b with Some c => Some (trim c) | None => category r end)
            (match b_completed b with
             | Some v => if js_truthy v then Some now else None
             | None => completed_at r
             end)
            (created_at r)
            now.

(** [SET completed = ?, completed_at = NOW() | NULL, updated_at = NOW()] *)
Definition set_completed (now : Z) (done : bool) (r : TodoRow) : TodoRow :=
  mkTodoRow (text r) done (user_id r) (priority r) (due_date r) (category r)
            (if done then Some now else None) (created_at r) now.

Definition first_row {S A : Type} (rows : list A) : M S A :=
  match rows with
  | r :: _ => ret r
  | [] => throw "TypeError"
  end.

Definition count (p : N * TodoRow → bool) (rows : list (N * TodoRow)) : Z :=
  Z.of_nat (List.length (filter (λ kv, p kv = true) rows)).

(** [SUM(CASE WHEN ... THEN 1 ELSE 0 END)]: NULL when there is no row. *)
Definition sum_json (p : N * TodoRow → bool) (rows : list (N * TodoRow)) : Json :=
  match rows with
  | [] => JNull
  | _ :: _ => JNum (count p rows)
  end.

(** [SELECT COUNT as total, SUM as completed, SUM as pending FROM todos
     WHERE user_id = ?]: one row of aggregates. *)
Definition general_stats (mine : list (N * TodoRow)) : Json :=
  JObj [("total", JNum (Z.of_nat (List.length mine)));
        ("completed", sum_json (λ kv, completed kv.2) mine);
        ("pending", sum_json (λ kv, negb (completed kv.2)) mine)].

(** [SELECT g as _id, COUNT as count, SUM as completed FROM todos
     WHERE user_id = ? GROUP BY g]: one row per value of [g], NULL apart
    when [g] is [category].  SQL leaves the order of the groups open; here
    they come in the order of their first row. *)
Definition group_stats (g : TodoRow → option string) (mine : list (N * TodoRow))
    : list Json :=
  map (λ v, let group := filter (λ kv, g kv.2 = Some v) mine in
            JObj [("_id", JStr v);
                  ("count", JNum (Z.of_nat (List.length group)));
                  ("completed", sum_json (λ kv, completed kv.2) group)])
      (remove_dups (omap (λ kv, g kv.2) mine)).

(** GET /api/todos *)
Definition list_todos (now : Z) (uid : N) (q : Query) : M World Response :=
  let! _ := createConnection in
  try_catch
    (let page := default 1%Z (q_page q) in
     let limit := default 50%Z (q_limit q) in
     let! todos := execute (λ w,
       (limit_offset limit ((page - 1) * limit)%Z (select (wanted uid q) todo_before w), w)) in
     let! total := execute (λ w,
       (Ok (List.length (select (wanted uid q) todo_before w)), w)) in
     let! mine := execute (λ w, (Ok (select (owned uid) todo_before w), w)) in
     ret (res_json
            (JObj [("success", JBool true);
                   ("data",
                    JObj [("todos", JArr (map todo_json todos));
                          ("stats", general_stats mine);
                          ("pagination",
                           JObj [("page", JNum page);
                                 ("limit", JNum limit);
                                 ("total", JNum (Z.of_nat total));
                                 ("pages", pages total limit)])])])))
    (server_error "Get todos error: " "Server error while fetching todos").

(** GET /api/todos/:id *)
Definition get_todo (now : Z) (uid tid : N) : M World Response :=
  let! _ := createConnection in
  try_catch
    (let! todos := execute (λ w, (Ok (select_owned tid uid w), w)) in
     match todos with
     | [] => ret (not_found "Todo")
     | t :: _ => ret (res_json (JObj [("success", JBool true);
                                      ("data", JObj [("todo", todo_json t)])]))
     end)
    (server_error "Get todo error: " "Server error while fetching todo").

(** POST /api/todos *)
Definition create_todo (now : Z) (uid : N) (b : Body) : M World Response :=
  let! _ := createConnection in
  try_catch
    (match validate_create b with
     | (_ :: _) as errors => ret (res_status_json 400 (validation_failed errors))
     | [] =>
         let! insertId := execute (insert
             (mkTodoRow (trim (default "" (b_text b))) false uid
                              (default "medium" (b_priority b)) (b_dueDate b)
                              (or_null (trim <$> b_category b)) None now now)) in
         let! todos := execute (λ w, (Ok (select_by_id insertId w), w)) in
         let! t := first_row todos in
         ret (res_status_json 201
                (envelope_data true "Todo created successfully"
                               (JObj [("todo", todo_json t)])))
     end)
    (server_error "Create todo error: " "Server error while creating todo").

(** PUT /api/todos/:id *)
Definition update_todo (now : Z) (uid tid : N) (b : Body) : M World Response :=
  let! _ := createConnection in
  try_catch
    (match validate_update b with
     | (_ :: _) as errors => ret (res_status_json 400 (validation_failed errors))
     | [] =>
         let! existingTodos := execute (λ w, (Ok (select_owned tid uid w), w)) in
         match existingTodos with
         | [] => ret (not_found "Todo")
         | _ :: _ =>
             (* UPDATE todos SET ... WHERE id = ? AND user_id = ? *)
             let! _ := execute (λ w,
               (Ok tt, set_table (alter (λ r, if (user_id r =? uid)%N then assign now b r else r)
                                        tid (table w)) (next_id w) w)) in
             let! todos := execute (λ w, (Ok (select_by_id tid w), w)) in
             let! t := first_row todos in
             ret (res_json (envelope_data true "Todo updated successfully"
                                          (JObj [("todo", todo_json t)])))
         end
     end)
    (server_error "Update todo error: " "Server error while updating todo").

(** PATCH /api/todos/:id/toggle *)
Definition toggle_todo (now : Z) (uid tid : N) : M World Response :=
  let! _ := createConnection in
  try_catch
    (let! todos := execute (λ w, (Ok (select_owned tid uid w), w)) in
     match todos with
     | [] => ret (not_found "Todo")
     | t :: _ =>
         let newCompletedStatus := negb (completed t.2) in
         (* UPDATE todos SET completed = ?, completed_at = ..., updated_at = NOW()
            WHERE id = ? *)
         let! _ := execute (λ w,
           (Ok tt, set_table (alter (set_completed now newCompletedStatus) tid (table w))
                             (next_id w) w)) in
         let! updatedTodos := execute (λ w, (Ok (select_by_id tid w), w)) in
         let! t' := first_row updatedTodos in
         ret (res_json
                (envelope_data true
                   ("Todo marked as " ++ (if completed t'.2 then "completed" else "pending"))
                   (JObj [("todo", todo_json t')])))
     end)
    (server_error "Toggle todo error: " "Server error while toggling todo status").

(** DELETE /api/todos/:id *)
Definition delete_todo (now : Z) (uid tid : N) : M World Response :=
  let! _ := createConnection in
  try_catch
    ((* DELETE FROM todos WHERE id = ? AND user_id = ? *)
     let! affectedRows := execute (λ w,
       match select_owned tid uid w with
       | [] => (Ok 0%nat, w)
       | _ :: _ => (Ok 1%nat, set_table (delete tid (table w)) (next_id w) w)
       end) in
     if (affectedRows =? 0)%nat then ret (not_found "Todo")
     else ret (res_json (envelope true "Todo deleted successfully")))
    (server_error "Delete todo error: " "Server error while deleting todo").

(** GET /api/todos/stats/summary *)
Definition stats_summary (now : Z) (uid : N) : M World Response :=
  let! _ := createConnection in
  try_catch
    (let! generalStats := execute (λ w,
       (Ok (general_stats (select (owned uid) todo_before w)), w)) in
     let! priorityStats := execute (λ w,
       (Ok (group_stats (λ r, Some (priority r)) (select (owned uid) todo_before w)), w)) in
     let! categoryStats := execute (λ w,
       (Ok (group_stats category (select (owned uid) todo_before w)), w)) in
     ret (res_json (JObj [("success", JBool true);
                          ("data", JObj [("general", generalStats);
                                         ("byPriority", JArr priorityStats);
                                         ("byCategory", JArr categoryStats)])])))
    (server_error "Get todo stats error: " "Server error while fetching todo statistics").

(** The requests of the router. *)
Inductive Request : Type :=
  | List (q : Query)
  | Get (tid : N)
  | Create (b : Body)
  | Update (tid : N) (b : Body)
  | Toggle (tid : N)
  | Delete (tid : N)
  | Stats.

Definition handle (now : Z) (uid : N) (req : Request) : M World Response :=
  match req with
  | List q => list_todos now uid q
  | Get tid => get_todo now uid tid
  | Create b => create_todo now uid b
  | Update tid b => update_todo now uid tid b
  | Toggle tid => toggle_todo now uid tid
  | Delete tid => delete_todo now uid tid
  | Stats => stats_summary now uid
  end.

(** *** The Sequelize model of the backend (models/Todo.js)

    An instance with the value of [completed] it was loaded with: the
    [beforeSave] hook compares the two. *)
Record Instance : Type := mkInstance {
  previous_completed : bool;    (* _previousDataValues.completed *)
  i_completed : bool;
  i_completedAt : option Z
}.

(** [todo.changed('completed')] *)
Definition changed_completed (t : Instance) : bool :=
  negb (Bool.eqb (previous_completed t) (i_completed t)).

(** [hooks.beforeSave] *)
Definition beforeSave (now : Z) (t : Instance) : Instance :=
  if changed_completed t then
    if i_completed t then mkInstance (previous_completed t) (i_completed t) (Some now)
    else mkInstance (previous_completed t) (i_completed t) None
  else t.

End BackendTodos.

(** ** The monolithic backend: models/User.js, middleware/auth.js, routes/auth.js *)

(** [validator.js] behind express-validator and Sequelize. *)
Class ValidatorLib : Type := {
  isEmail : string → bool;
  normalizeEmail : string → string
}.

Module BackendAuth.
Import Backend.

(** A row of [users]; its primary key is its key in the table. *)
Record UserRow : Type := mkUserRow {
  name : string;
  email : string;
  username : string;
  password : string;
  createdAt : Z;
  updatedAt : Z
}.

Abbreviation World := (Db UserRow).

(** A model instance: a row and the attributes that were selected. *)
Record Instance : Type := mkInstance {
  inst_id : N;
  inst_row : UserRow;
  inst_attributes : list string
}.

Definition all_attributes : list string :=
  ["id"; "name"; "email"; "username"; "password"; "createdAt"; "updatedAt"].

(** [this.get()]: the selected attributes with their values. *)
Definition get (u : Instance) : list (string * Json) :=
  filter (λ kv, kv.1 ∈ inst_attributes u)
         [("id", JNum (Z.of_N (inst_id u)));
          ("name", JStr (name (inst_row u)));
          ("email", JStr (email (inst_row u)));
          ("username", JStr (username (inst_row u)));
          ("password", JStr (password (inst_row u)));
          ("createdAt", JNum (createdAt (inst_row u)));
          ("updatedAt", JNum (updatedAt (inst_row u)))].

(** [User.prototype.toJSON]:
    [const values = Object.assign({}, this.get()); delete values.password;
     return values]. *)
Definition toJSON (u : Instance) : Json :=
  JObj (filter (λ kv, kv.1 ≠ "password") (get u)).

Section Handlers.
Context `{JwtLib} `{BcryptLib} `{ValidatorLib}.

(** [notEmpty] of validator.js: not made of white space only. *)
Definition notEmpty (s : string) : bool := truthy_string (trim s).

(** The attribute validators of the model, with their messages. *)
Definition model_errors (r : UserRow) : list (string * string) :=
  (if notEmpty (name r) then [] else [("name", "Name is required")])
  ++ (if isLength 1 50 (name r) then []
      else [("name", "Name cannot be more than 50 characters")])
  ++ (if notEmpty (email r) then [] else [("email", "Email is required")])
  ++ (if isEmail (email r) then [] else [("email", "Please enter a valid email")])
  ++ (if notEmpty (username r) then [] else [("username", "Username is required")])
  ++ (if isLength 3 20 (username r) then []
      else [("username", "Username must be 3-20 characters")])
  ++ (if truthy_string (username r) && all_chars is_word_char (username r) then []
      else [("username", "Username can only contain letters, numbers, and underscores")])
  ++ (if notEmpty (password r) then [] else [("password", "Password is required")])
  ++ (if isLength 6 255 (password r) then []
      else [("password", "Password must be at least 6 characters")]).

(** A call of Sequelize: one round trip, a failure of which is a
    SequelizeConnectionError. *)
Definition sequelize {A : Type} (run : World → Res A * World) : M World A :=
  λ w, if faulty w then (Throw "SequelizeConnectionError", ticked w) else run (ticked w).

(** [hooks.beforeSave]: a password that changed is replaced by its hash. *)
Definition beforeSave (changed_password : bool) (r : UserRow) : UserRow :=
  if changed_password
  then mkUserRow (name r) (email r) (username r) (bcrypt_hash (password r))
                 (createdAt r) (updatedAt r)
  else r.

(** [User.create({ name, email, username, password })]: the setters of
    [email] and [username], the validators, the hook, the INSERT under the
    unique indexes of [email] and [username]. *)
Definition User_create (now : Z) (nm mail uname pass : string) : M World Instance :=
  let built := mkUserRow nm (trim (toLowerCase mail)) (trim uname) pass now now in
  match model_errors built with
  | _ :: _ => throw "SequelizeValidationError"
  | [] =>
      let saved := beforeSave true built in
      sequelize (λ w,
        if existsb (λ kv, bool_decide (email kv.2 = email saved)) (map_to_list (table w))
        then (Throw "SequelizeUniqueConstraintError: email", w)
        else if existsb (λ kv, bool_decide (username kv.2 = username saved))
                        (map_to_list (table w))
        then (Throw "SequelizeUniqueConstraintError: username", w)
        else
          match insert saved w with
          | (Ok key, w') => (Ok (mkInstance key saved all_attributes), w')
          | (Throw e, w') => (Throw e, w')
          end)
  end.

(** [User.findOne({ where: { [Op.or]: [{ a }, { b }] } })]: a matching row. *)
Definition User_findOne (p : UserRow → Prop) `{∀ r, Decision (p r)}
    : M World (option Instance) :=
  sequelize (λ w,
    (Ok ((λ found, mkInstance found.2.1 found.2.2 all_attributes) <$>
         list_find (λ kv, p kv.2) (map_to_list (table w))), w)).

(** [User.findByPk(id, { attributes })] *)
Definition User_findByPk (uid : N) (attributes : list string) : M World (option Instance) :=
  sequelize (λ w, (Ok ((λ r, mkInstance uid r attributes) <$> table w !! uid), w)).

(** [user.comparePassword(candidate)] *)
Definition comparePassword (u : Instance) (candidate : string) : bool :=
  bcrypt_compare candidate (password (inst_row u)).

Definition verify_token (now : Z) (token : string) : M World Claims :=
  λ w, (jwt_verify now token, w).

(** [error: NODE_ENV === 'development' ? error.message : undefined] *)
Definition failure (dev : bool) (message err : string) : Json :=
  JObj ([("success", JBool false); ("message", JStr message)]
        ++ (if dev then [("error", JStr err)] else [])).

Definition server_error_dev (label message err : string) : M World Response :=
  let! _ := console_error (label ++ err) in
  let! dev := gets development in
  ret (res_status_json 500 (failure dev message err)).

Definition user_and_token (code : nat) (message : string) (user : Instance)
    (token : string) : Response :=
  res_status_json code
    (envelope_data true message (JObj [("user", toJSON user); ("token", JStr token)])).

Record RegisterBody : Type := mkRegisterBody {
  r_name : option string;
  r_email : option string;
  r_username : option string;
  r_password : option string
}.

(** The chain of POST /register. *)
Definition validate_register (b : RegisterBody) : list string :=
  (if isLength 1 50 (trim (default "" (r_name b))) then [] else ["name"])
  ++ (if isEmail (default "" (r_email b)) then [] else ["email"])
  ++ (if isLength 3 20 (trim (default "" (r_username b)))
         && all_chars is_word_char (trim (default "" (r_username b)))
      then [] else ["username"])
  ++ (if isLength_min 6 (default "" (r_password b)) then [] else ["password"]).

(** [errors: error.errors.map(err => ({ field: err.path, message: err.message }))] *)
Definition model_validation_failed (errors : list (string * string)) : Json :=
  JObj [("success", JBool false); ("message", JStr "Validation failed");
        ("errors", JArr (map (λ e, JObj [("field", JStr e.1); ("message", JStr e.2)])
                             errors))].

(** POST /api/auth/register *)
Definition register (now : Z) (b : RegisterBody) : M World Response :=
  let nm := trim (default "" (r_name b)) in
  let mail := normalizeEmail (default "" (r_email b)) in
  let uname := trim (default "" (r_username b)) in
  let pass := default "" (r_password b) in
  try_catch
    (match validate_register b with
     | (_ :: _) as errors => ret (res_status_json 400 (validation_failed errors))
     | [] =>
         let! existingUser :=
           User_findOne (λ r, email r = toLowerCase mail ∨ username r = uname) in
         match existingUser with
         | Some u =>
             ret (res_status_json 400
                    (envelope false
                       (if bool_decide (email (inst_row u) = toLowerCase mail)
                        then "Email already registered" else "Username already taken")))
         | None =>
             let! user := User_create now nm mail uname pass in
             let token := generateToken now (inst_id user) in
             ret (user_and_token 201 "User registered successfully" user token)
         end
     end)
    (λ e,
       let! _ := console_error ("Register error: " ++ e) in
       if String.eqb e "SequelizeValidationError" then
         ret (res_status_json 400
                (model_validation_failed
                   (model_errors (mkUserRow nm (trim (toLowerCase mail)) (trim uname)
                                            pass now now))))
       else if String.eqb e "SequelizeUniqueConstraintError: email" then
         ret (res_status_json 400 (envelope false "Email already exists"))
       else if String.eqb e "SequelizeUniqueConstraintError: username" then
         ret (res_status_json 400 (envelope false "Username already exists"))
       else
         let! dev := gets development in
         ret (res_status_json 500 (failure dev "Server error during registration" e))).

Record LoginBody : Type := mkLoginBody {
  l_username : option string;
  l_password : option string
}.

(** The chain of POST /login. *)
Definition validate_login (b : LoginBody) : list string :=
  (if truthy_string (trim (default "" (l_username b))) then [] else ["username"])
  ++ (if truthy_opt (l_password b) then [] else ["password"]).

Definition invalid_credentials : Response :=
  res_status_json 400 (envelope false "Invalid credentials").

(** POST /api/auth/login *)
Definition login (now : Z) (b : LoginBody) : M World Response :=
  let uname := trim (default "" (l_username b)) in
  let pass := default "" (l_password b) in
  try_catch
    (match validate_login b with
     | (_ :: _) as errors => ret (res_status_json 400 (validation_failed errors))
     | [] =>
         let! found :=
           User_findOne (λ r, username r = uname ∨ email r = toLowerCase uname) in
         match found with
         | None => ret invalid_credentials
         | Some user =>
             if negb (comparePassword user pass) then ret invalid_credentials
             else
               let token := generateToken now (inst_id user) in
               ret (user_and_token 200 "Login successful" user token)
         end
     end)
    (λ e,
       let! _ := console_error ("Login error: " ++ e) in
       if String.eqb e "SequelizeConnectionError" then
         ret (res_status_json 503
                (envelope false "Database connection failed. Please try again later."))
       else
         let! dev := gets development in
         ret (res_status_json 500 (failure dev "Server error during login" e))).

(** POST /api/auth/demo *)
Definition demo (now : Z) : M World Response :=
  try_catch
    (let! found := User_findOne (λ r, username r = "demo") in
     let! demoUser :=
       match found with
       | Some u => ret u
       | None => User_create now "Demo User" "demo@micronote.com" "demo" "demo123"
       end in
     let token := generateToken now (inst_id demoUser) in
     ret (user_and_token 200 "Demo login successful" demoUser token))
    (server_error_dev "Demo login error: " "Server error during demo login").

Definition denied (message : string) : Response :=
  res_status_json 401 (envelope false message).

(** [authHeader.replace('Bearer ', '')] when the header starts with it. *)
Definition bearer (header : string) : option string :=
  if String.prefix "Bearer " header
  then Some (String.substring 7 (String.length header - 7) header)
  else None.

(** middleware/auth.js in front of [next], which receives [req.user]. *)
Definition auth (now : Z) (authorization : option string)
    (next : Instance → M World Response) : M World Response :=
  try_catch
    (match authorization ≫= bearer with
     | None => ret (denied "No token provided, authorization denied")
     | Some token =>
         match jwt_verify now token with
         | Throw e =>
             ret (denied (if String.eqb e "TokenExpiredError" then "Token has expired"
                          else if String.eqb e "JsonWebTokenError" then "Token is malformed"
                          else "Token is invalid"))
         | Ok decoded =>
             let! found := User_findByPk (claim_id decoded)
                             ["id"; "name"; "email"; "username"; "createdAt"; "updatedAt"] in
             match found with
             | None => ret (denied "User not found, token is not valid")
             | Some user => next user
             end
         end
     end)
    (λ e,
       let! _ := console_error ("Auth middleware error: " ++ e) in
       if String.eqb e "SequelizeConnectionError" then
         ret (res_status_json 503
                (envelope false "Database connection failed. Please try again later."))
       else
         let! dev := gets development in
         ret (res_status_json 500 (failure dev "Authorization failed" e))).

(** The handler of GET /api/auth/me, behind [auth]. *)
Definition me_handler (user : Instance) : M World Response :=
  try_catch
    (ret (res_json (JObj [("success", JBool true);
                          ("data", JObj [("user", toJSON user)])])))
    (λ e, let! _ := console_error ("Get user error: " ++ e) in
          ret (res_status_json 500 (envelope false "Server error"))).

(** GET /api/auth/me *)
Definition me (now : Z) (authorization : option string) : M World Response :=
  auth now authorization me_handler.

(** The four routes that answer with a user. *)
Inductive Request : Type :=
  | Register (b : RegisterBody)
  | Login (b : LoginBody)
  | Demo
  | Me (authorization : option string).

Definition handle (now : Z) (req : Request) : M World Response :=
  match req with
  | Register b => register now b
  | Login b => login now b
  | Demo => demo now
  | Me authorization => me now authorization
  end.

End Handlers.

End BackendAuth.


(** ** Auth service: registration *)

Definition is_alnum (c : ascii) : bool :=
  let n := N_of_ascii c in
  ((48 <=? n)%N && (n <=? 57)%N) || ((65 <=? n)%N && (n <=? 90)%N)
  || ((97 <=? n)%N && (n <=? 122)%N).

(** [isAlphanumeric()] of validator.js, locale en-US: [/^[0-9A-Z]+$/i]. *)
Definition isAlphanumeric (s : string) : bool :=
  truthy_string s && all_chars is_alnum s.

Module AuthRegister.
Import Service.

Abbreviation World := AuthService.World.

Section Handlers.
Context `{JwtLib} `{BcryptLib} `{ValidatorLib}.

(** [hooks.beforeCreate]: [if (user.password) user.password = await bcrypt.hash(...)] *)
Definition beforeCreate (u : AuthService.User) : AuthService.User :=
  if truthy_string (AuthService.password u)
  then AuthService.mkUser (AuthService.user_id u) (AuthService.name u)
                          (AuthService.email u) (AuthService.username u)
                          (bcrypt_hash (AuthService.password u))
                          (AuthService.createdAt u) (AuthService.updatedAt u)
  else u.

(** [User.create({ name, email, username, password })]: the validator of
    [email], the hook, then the INSERT under the unique indexes of [email]
    and [username]. *)
Definition User_create (now : Z) (nm mail uname pass : string) : M World AuthService.User :=
  if negb (isEmail mail) then throw "SequelizeValidationError"
  else
    query (λ w,
      let saved := beforeCreate (AuthService.mkUser (next_id w) nm mail uname pass now now) in
      if existsb (λ kv, bool_decide (AuthService.email kv.2 = mail)) (map_to_list (table w))
      then (Throw "SequelizeUniqueConstraintError", w)
      else if existsb (λ kv, bool_decide (AuthService.username kv.2 = uname))
                      (map_to_list (table w))
      then (Throw "SequelizeUniqueConstraintError", w)
      else (Ok saved, set_table (<[next_id w := saved]> (table w)) (next_id w + 1)%N w)).

Record RegisterBody : Type := mkRegisterBody {
  r_name : option string;
  r_email : option string;
  r_username : option string;
  r_password : option string
}.

(** The chain of POST /register; every validator that fails leaves an
    entry:
    [body('name').notEmpty().trim().isLength({ min: 2, max: 50 }),
     body('email').isEmail().normalizeEmail(),
     body('username').isAlphanumeric().isLength({ min: 3, max: 20 }),
     body('password').isLength({ min: 6 })]. *)
Definition validate_register (b : RegisterBody) : list string :=
  (if truthy_opt (r_name b) then [] else ["name"])
  ++ (if isLength 2 50 (trim (default "" (r_name b))) then [] else ["name"])
  ++ (if isEmail (default "" (r_email b)) then [] else ["email"])
  ++ (if isAlphanumeric (default "" (r_username b)) then [] else ["username"])
  ++ (if isLength 3 20 (default "" (r_username b)) then [] else ["username"])
  ++ (if isLength_min 6 (default "" (r_password b)) then [] else ["password"]).

(** POST /register *)
Definition register (now : Z) (b : RegisterBody) : M World Response :=
  let nm := trim (default "" (r_name b)) in
  let mail := normalizeEmail (default "" (r_email b)) in
  let uname := default "" (r_username b) in
  let pass := default "" (r_password b) in
  try_catch
    (match validate_register b with
     | (_ :: _) as errors => ret (res_status_json 400 (validation_failed errors))
     | [] =>
         let! existingUser := AuthService.User_findOne_or uname (toLowerCase mail) in
         match existingUser with
         | Some u =>
             ret (res_status_json 400
                    (envelope false
                       (if bool_decide (AuthService.email u = toLowerCase mail)
                        then "Email already registered" else "Username already taken")))
         | None =>
             let! user := User_create now nm (toLowerCase mail) uname pass in
             let accessToken := generateToken now (AuthService.user_id user) in
             let refreshToken := generateRefreshToken now (AuthService.user_id user) in
             let! _ := redisClient
                         (Redis.setEx now (AuthService.refresh_key (AuthService.user_id user))
                                      (30 * 24 * 60 * 60) refreshToken) in
             ret (res_status_json 201
                    (envelope_data true "User registered successfully"
                       (JObj [("user", AuthService.userResponse user);
                              ("accessToken", JStr accessToken);
                              ("refreshToken", JStr refreshToken)])))
         end
     end)
    (server_error "Register error: " "Registration failed").

End Handlers.

End AuthRegister.

(** * Statements

    The predicates the theorems are stated with. *)

(** ** Postconditions of monadic programs

    [wp m s Q]: running [m] from [s] ends in an outcome and a state that
    satisfy [Q].  The programs are total functions, so this is both partial
    and total correctness. *)

Definition wp {S A : Type} (m : M S A) (s : S) (Q : Res A → S → Prop) : Prop :=
  Q (m s).1 (m s).2.

(** ** The response cache

    No entry under the literal prefix [p] can be read at or after [now]. *)
Definition prefix_cleared {V : Type} (now : Z) (p : string) (r : Redis.t V) : Prop :=
  ∀ rest now', (now ≤ now')%Z → Redis.lookup now' r (p ++ rest) = None.

Definition notes_prefix (uid : N) : string := "cache:notes:" ++ pretty uid ++ ":".

(** The world after the GET of the middleware consumed its fault flag. *)
Definition after_get (w : NotesService.World) : NotesService.World :=
  Service.set_redis (Redis.ticked (Service.redis w)) w.


(** ** Sessions

    The first step of POST /logout goes through: no refresh token is given,
    or the one given verifies. *)
Definition refresh_step_passes `{JwtLib} (now : Z) (refreshToken : option string) : bool :=
  match refreshToken with
  | Some token =>
      if truthy_string token
      then match jwt_verify now token with Ok _ => true | Throw _ => false end
      else true
  | None => true
  end.

(** ** Ownership in the monolith *)

Section Ownership.
Context {Row : Type} (owner : Row → N).

(** The rows that are not owned by [uid] are the same in both worlds. *)
Definition others_same (uid : N) (w w' : Backend.Db Row) : Prop :=
  ∀ nid r, owner r ≠ uid →
    Backend.table w' !! nid = Some r ↔ Backend.table w !! nid = Some r.

(** The row [nid] is absent or owned by somebody else. *)
Definition not_owned (uid nid : N) (w : Backend.Db Row) : Prop :=
  ∀ r, Backend.table w !! nid = Some r → owner r ≠ uid.

(** Every row the response shows is owned by [uid]. *)
Definition shows_only (uid : N) (r : Res Response) : Prop :=
  ∀ resp z, r = Ok resp → z ∈ owners (body resp) → z = Z.of_N uid.

(** Scoping of one request of [uid] run from [w]: the rows of the other
    users are as before, the response shows rows of [uid] only, and a
    target that [uid] does not own is answered 404 with nothing written,
    when the body passes validation ([valid]) and the database answers. *)
Definition scoped (what : string) (uid : N) (w : Backend.Db Row) (target : option N)
    (valid : Prop) (r : Res Response) (w' : Backend.Db Row) : Prop :=
  others_same uid w w'
  ∧ shows_only uid r
  ∧ (∀ nid, target = Some nid → valid → not_owned uid nid w → Backend.dfaults w = [] →
       r = Ok (Backend.not_found what) ∧ Backend.table w' = Backend.table w).

End Ownership.

Abbreviation scoped_note := (scoped BackendNotes.user_id "Note").

(** The row a request of the notes router names, and whether its body
    passes the validation chain of its route. *)
Definition note_target (req : BackendNotes.Request) : option N :=
  match req with
  | BackendNotes.Get nid | BackendNotes.Update nid _
  | BackendNotes.Delete nid | BackendNotes.Pin nid => Some nid
  | BackendNotes.List _ | BackendNotes.Create _ => None
  end.

Definition note_valid (req : BackendNotes.Request) : Prop :=
  match req with
  | BackendNotes.Update _ b => BackendNotes.validate_update b = []
  | _ => True
  end.

(** The same for the todos router. *)
Definition todo_target (req : BackendTodos.Request) : option N :=
  match req with
  | BackendTodos.Get tid | BackendTodos.Update tid _
  | BackendTodos.Toggle tid | BackendTodos.Delete tid => Some tid
  | BackendTodos.List _ | BackendTodos.Create _ | BackendTodos.Stats => None
  end.

Definition todo_valid (req : BackendTodos.Request) : Prop :=
  match req with
  | BackendTodos.Update _ b => BackendTodos.validate_update b = []
  | _ => True
  end.

(** ** Completion timestamps

    A todo that is not completed carries no completion timestamp. *)
Definition consistent (w : BackendTodos.World) : Prop :=
  ∀ tid r, Backend.table w !! tid = Some r →
           BackendTodos.completed r = false → BackendTodos.completed_at r = None.

(** The postcondition of a request: scoped to its caller, and the
    timestamps stay consistent with the flags. *)
Definition scoped_todo (uid : N) (w : BackendTodos.World) (target : option N) (valid : Prop)
    (r : Res Response) (w' : BackendTodos.World) : Prop :=
  scoped BackendTodos.user_id "Todo" uid w target valid r w' ∧ (consistent w → consistent w').

(** What a PUT that sets [completed] leaves in the row. *)
Definition update_sets_timestamp (now : Z) (tid : N) (b : BackendTodos.Body)
    (r : Res Response) (w' : BackendTodos.World) : Prop :=
  ∀ resp v, r = Ok resp → status resp = 200%nat → BackendTodos.b_completed b = Some v →
    ∃ row, Backend.table w' !! tid = Some row
           ∧ BackendTodos.completed row = js_truthy v
           ∧ BackendTodos.completed_at row = if js_truthy v then Some now else None.

(** What a toggle leaves in the row. *)
Definition toggle_sets_timestamp (now : Z) (tid : N) (w : BackendTodos.World)
    (r : Res Response) (w' : BackendTodos.World) : Prop :=
  ∀ resp, r = Ok resp → status resp = 200%nat →
    ∃ row0 row, Backend.table w !! tid = Some row0 ∧ Backend.table w' !! tid = Some row
                ∧ BackendTodos.completed row = negb (BackendTodos.completed row0)
                ∧ BackendTodos.completed_at row
                  = if BackendTodos.completed row then Some now else None.

(** ** Passwords *)

Section Passwords.
Context `{BcryptLib}.






End Passwords.

(** ** Cache keys

    The claim as the specification words it, on the key of the gateway:
    requests that differ in identity or in a query parameter get different
    keys. *)
Definition gateway_keys_never_collide : Prop :=
  ∀ u1 u2 q1 q2, u1 ≠ u2 ∨ q1 ≠ q2 → Gateway.cacheKey u1 q1 ≠ Gateway.cacheKey u2 q2.

(** ** Further statements *)

(** No two users share an e-mail address or a username. *)
Definition unique_users (w : BackendAuth.World) : Prop :=
  ∀ i j ri rj,
    Backend.table w !! i = Some ri → Backend.table w !! j = Some rj →
    BackendAuth.email ri = BackendAuth.email rj
    ∨ BackendAuth.username ri = BackendAuth.username rj →
    i = j.

(** What a request to the auth routes does to the table of users: nothing,
    or one new row whose e-mail address and username nobody had. *)
Definition adds_fresh_user (w w' : BackendAuth.World) : Prop :=
  Backend.table w' = Backend.table w
  ∨ ∃ key row,
      Backend.table w !! key = None
      ∧ Backend.table w' = <[key := row]> (Backend.table w)
      ∧ ∀ j rj, Backend.table w !! j = Some rj →
                BackendAuth.email rj ≠ BackendAuth.email row
                ∧ BackendAuth.username rj ≠ BackendAuth.username row.

(** The literal prefix of the keys the gateway caches the lists of a user
    under. *)
Definition gateway_prefix (uid : N) : string := "notes:" ++ pretty uid ++ ":".

(** * Sample data

    Small instances of the external libraries and small worlds, to run the
    handlers on. *)

(** Tokens that spell out their claims. *)
Definition spelled_token (c : Claims) : string :=
  "jwt:" ++ pretty (claim_id c) ++ ":" ++ default "access" (claim_type c)
         ++ ":" ++ pretty (claim_iat c) ++ ":" ++ pretty (claim_exp c).

(** The claims this verifier knows: the tokens of user 1 signed at the
    instants 900, 1000 and 2000. *)
Definition known_claims : list Claims :=
  [mkClaims 1 None 900 (900 + days 7);
   mkClaims 1 (Some "refresh") 1000 (1000 + days 30);
   mkClaims 1 None 1000 (1000 + days 7);
   mkClaims 1 (Some "refresh") 2000 (2000 + days 30);
   mkClaims 1 None 2000 (2000 + days 7)].

Definition spelled_jwt : JwtLib :=
  {| jwt_sign := spelled_token;
     jwt_decode := λ s, snd <$> list_find (λ c, spelled_token c = s) known_claims |}.

Definition prefix_bcrypt : BcryptLib :=
  {| bcrypt_hash := λ p, "$2a$12$" ++ p;
     bcrypt_compare := λ p h, bool_decide (h = "$2a$12$" ++ p) |}.

Definition alice : AuthService.User :=
  AuthService.mkUser 1 "Alice" "alice@example.com" "alice" "$2a$12$wonderland" 100 100.

Definition auth_world : AuthService.World :=
  Service.mkWorld (Redis.mk ∅ []) {[ 1%N := alice ]} 2%N [] false [].

Definition alice_login : AuthService.LoginBody :=
  AuthService.mkLoginBody (Some "alice") (Some "wonderland").

(** A concrete world of the notes service: user 1 has one cached list. *)
Definition notes_world_cached : NotesService.World :=
  Service.mkWorld
    (Redis.mk {[ NotesService.cacheKey 1 "/" :=
                   Redis.mkEntry (JStr "cached before the write") 300 1300 ]} [])
    ∅ 1%N [] false [].

Definition sample_note : NotesService.CreateBody :=
  NotesService.mkCreateBody (Some "A") (Some "B") None None.

(** The database of the notes service is unreachable and nothing is cached. *)
Definition notes_world_db_down : NotesService.World :=
  Service.mkWorld (Redis.mk ∅ []) ∅ 1%N [true] false [].

Definition no_query : NotesService.Query :=
  NotesService.mkQuery None None None None None.

Definition retrieve_failed : Json :=
  JObj [("success", JBool false); ("message", JStr "Failed to retrieve notes")].

(** The cache of the gateway is unreachable. *)
Definition gateway_world_redis_down : Gateway.World :=
  Gateway.mkWorld (Redis.mk ∅ [true]) false [].

(** The database works; Redis rejects the next command. *)
Definition notes_world_redis_down : NotesService.World :=
  Service.mkWorld (Redis.mk ∅ [true]) ∅ 1%N [] false [].

Definition create_failed : Json :=
  JObj [("success", JBool false); ("message", JStr "Failed to create note")].

Definition query_plain : Gateway.Query :=
  Gateway.mkQuery None None None None None [].

Definition query_page_1 : Gateway.Query :=
  Gateway.mkQuery (Some "1") None None None None [].

Definition query_page_2 : Gateway.Query :=
  Gateway.mkQuery (Some "2") None None None None [].

(** Alice logs in at 1000 and again at 2000; the world after both logins. *)
Definition auth_world_two_logins : AuthService.World :=
  (AuthService.login (H := spelled_jwt) (H0 := prefix_bcrypt) 2000 alice_login
     (AuthService.login (H := spelled_jwt) (H0 := prefix_bcrypt) 1000 alice_login
        auth_world).2).2.

(** Two users of the monolith, one note each. *)
Definition backend_notes_world : BackendNotes.World :=
  Backend.mkDb
    {[ 1%N := BackendNotes.mkNoteRow "Groceries" "milk, eggs" 1 [] false false 100 100;
       2%N := BackendNotes.mkNoteRow "Diary" "not for user 1" 2 [] false false 200 200 ]}
    3 [] false [].

Definition rename_note : BackendNotes.Body :=
  BackendNotes.mkBody (Some "Mine now") None None None None.

(** Two users of the monolith, one open todo each. *)
Definition backend_todos_world : BackendTodos.World :=
  Backend.mkDb
    {[ 1%N := BackendTodos.mkTodoRow "water the plants" false 1 "medium" None None None
                                     100 100;
       2%N := BackendTodos.mkTodoRow "call the bank" false 2 "high" None None None
                                     200 200 ]}
    3 [] false [].

(** A validator that asks an address for an at sign. *)
Definition at_sign_validator : ValidatorLib :=
  {| isEmail := λ s, negb (all_chars (λ c, negb (Ascii.eqb c "@")) s);
     normalizeEmail := toLowerCase |}.

(** The monolith before its first registration. *)
Definition backend_users_world : BackendAuth.World := Backend.mkDb ∅ 1 [] false [].

Definition alice_registration : BackendAuth.RegisterBody :=
  BackendAuth.mkRegisterBody (Some "Alice") (Some "alice@example.com") (Some "alice")
                             (Some "wonderland").

(** ** More sample data *)

Definition plan_note : BackendNotes.Body :=
  BackendNotes.mkBody (Some "  Plan ") (Some "book the train") None None None.

Definition first_page : BackendNotes.Query :=
  BackendNotes.mkQuery None None None None None.

Definition urgent_todo : BackendTodos.Body :=
  BackendTodos.mkBody (Some " pay the rent ") (Some "high") (Some "") None None.

(** The monolith after the registration of Alice at 1000. *)
Definition backend_users_alice : BackendAuth.World :=
  (BackendAuth.register (H := spelled_jwt) (H0 := prefix_bcrypt) (H1 := at_sign_validator)
     1000 alice_registration backend_users_world).2.

Definition alice_backend_login : BackendAuth.LoginBody :=
  BackendAuth.mkLoginBody (Some " alice ") (Some "wonderland").

(** The notes service with one note of user 1 and one of user 2. *)
Definition notes_service_world : NotesService.World :=
  Service.mkWorld (Redis.mk ∅ [])
    {[ 1%N := NotesService.mkNote 1 "Groceries" "milk, eggs" 1 [] false false 100 100;
       2%N := NotesService.mkNote 2 "Diary" "not for user 1" 2 [] false false 200 200 ]}
    3 [] false [].

(** The auth service behind gRPC after the two logins of Alice. *)
Definition grpc_auth_world : GrpcAuth.World :=
  GrpcAuth.mkWorld auth_world_two_logins [].

(** A notes service that accepts every note. *)
Definition accepting_notes_service (request : GatewayWrites.CreateNoteRequest)
    : Res GatewayWrites.NoteReply :=
  Ok (GatewayWrites.mkNoteReply true "Note created successfully"
        (JObj [("user_id", JNum (Z.of_N (GatewayWrites.r_user_id request)))])).

(** The gateway holds a cached list of user 1 and one of user 2. *)
Definition gateway_world_cached : GatewayWrites.World :=
  GatewayWrites.mkWorld
    (Gateway.mkWorld
       (Redis.mk {[ Gateway.cacheKey 1 query_plain := Redis.mkEntry (JStr "list of 1") 300 1300;
                    Gateway.cacheKey 2 query_plain := Redis.mkEntry (JStr "list of 2") 300 1300 ]}
                 [])
       false [])
    [].

Definition shopping_note : GatewayWrites.Body :=
  GatewayWrites.mkBody (Some "Shopping") (Some "milk") None None.

Definition bob_registration : AuthRegister.RegisterBody :=
  AuthRegister.mkRegisterBody (Some " Bob ") (Some "Bob@Example.com") (Some "bob42")
                              (Some "secret9").

(** * Proofs *)

(** ** Running the monad *)

Lemma bind_ok {S A B : Type} (m : M S A) (k : A → M S B) (s s' : S) (a : A) :
  m s = (Ok a, s') → bind m k s = k a s'.
Proof. intros E. unfold bind. by rewrite E. Qed.

Lemma bind_throw {S A B : Type} (m : M S A) (k : A → M S B) (s s' : S) (e : string) :
  m s = (Throw e, s') → bind m k s = (Throw e, s').
Proof. intros E. unfold bind. by rewrite E. Qed.

(** ** Characters of strings *)

Lemma string_app_cons (c : ascii) (s t : string) : String c s ++ t = String c (s ++ t).
Proof. reflexivity. Qed.

Lemma string_app_nil (t : string) : "" ++ t = t.
Proof. reflexivity. Qed.

Lemma string_app_assoc (s1 s2 s3 : string) : (s1 ++ s2) ++ s3 = s1 ++ (s2 ++ s3).
Proof.
  induction s1 as [|c s1 IH]; [done|]. by rewrite !string_app_cons, IH.
Qed.

Lemma all_chars_app P s1 s2 :
  all_chars P (s1 ++ s2) = all_chars P s1 && all_chars P s2.
Proof.
  induction s1 as [|c s1 IH]; [done|].
  rewrite string_app_cons. simpl. by rewrite IH, andb_assoc.
Qed.

Lemma all_chars_impl (P Q : ascii → bool) s :
  (∀ c, P c = true → Q c = true) → all_chars P s = true → all_chars Q s = true.
Proof.
  intros HPQ. induction s as [|c s IH]; simpl; [done|].
  rewrite !andb_true_iff. intros [? ?]. auto.
Qed.

Lemma pretty_N_char_digit x : is_digit (pretty_N_char x) = true.
Proof. unfold pretty_N_char. by repeat case_match. Qed.

Lemma pretty_N_go_digits x s :
  all_chars is_digit s = true → all_chars is_digit (pretty_N_go x s) = true.
Proof.
  revert s. induction (N.lt_wf_0 x) as [x _ IH]; intros s Hs.
  destruct (decide (x = 0%N)) as [->|Hx]; [by rewrite pretty_N_go_0|].
  rewrite pretty_N_go_step by lia.
  apply IH; [apply N.div_lt; lia|].
  simpl. by rewrite pretty_N_char_digit, Hs.
Qed.

Lemma pretty_N_digits (x : N) : all_chars is_digit (pretty x) = true.
Proof.
  unfold pretty, pretty_N. case_decide; [done|]. by apply pretty_N_go_digits.
Qed.

(** A decimal rendering is never empty. *)
Lemma pretty_N_go_nonempty x s : s ≠ "" → pretty_N_go x s ≠ "".
Proof.
  revert s. induction (N.lt_wf_0 x) as [x _ IH]; intros s Hs.
  destruct (decide (x = 0%N)) as [->|Hx]; [by rewrite pretty_N_go_0|].
  rewrite pretty_N_go_step by lia. apply IH; [apply N.div_lt; lia|done].
Qed.

Lemma pretty_N_nonempty (x : N) : pretty x ≠ "".
Proof.
  unfold pretty, pretty_N. case_decide; [done|].
  rewrite pretty_N_go_step by lia. by apply pretty_N_go_nonempty.
Qed.

(** ** Glob patterns *)

Lemma glob_star_any s : Redis.glob "*" s = true.
Proof. induction s as [|c s IH]; simpl in *; [done|]. by rewrite IH. Qed.

(** A pattern made of a literal prefix and a final star matches exactly the
    keys that start with the prefix. *)
Lemma glob_prefix_star p s :
  plain p = true →
  Redis.glob (p ++ "*") s = true ↔ ∃ rest, s = p ++ rest.
Proof.
  revert s. induction p as [|c p IH]; intros s Hp.
  - split; [intros _; by exists s|intros _; apply glob_star_any].
  - simpl in Hp. apply andb_true_iff in Hp as [Hc Hp].
    unfold is_meta in Hc. apply negb_true_iff, orb_false_iff in Hc as [Hstar Hq].
    change (String c p ++ "*") with (String c (p ++ "*")).
    cbn [Redis.glob]. rewrite Hstar.
    destruct s as [|d s].
    + split; [done|]. by intros [rest ?].
    + rewrite Hq. simpl orb. rewrite andb_true_iff, IH by done. split.
      * intros [Hcd [rest ->]]. apply Ascii.eqb_eq in Hcd as ->. by exists rest.
      * intros [rest Heq]. simpl in Heq. injection Heq as -> ->.
        split; [apply Ascii.eqb_refl|by exists rest].
Qed.

Lemma digit_not_meta c : is_digit c = true → negb (is_meta c) = true.
Proof.
  unfold is_digit, is_meta. intros H.
  destruct (Ascii.eqb_spec c "*") as [->|_]; [done|].
  destruct (Ascii.eqb_spec c "?") as [->|_]; done.
Qed.

Lemma plain_pretty (x : N) : plain (pretty x) = true.
Proof. eapply all_chars_impl; [apply digit_not_meta|apply pretty_N_digits]. Qed.

(** ** The Redis client *)

Section RedisFacts.
Context {V : Type}.
Implicit Types (r : Redis.t V) (k : string) (now : Z).

Lemma command_unfold {A : Type} (run : Redis.t V → Res A * Redis.t V) r :
  Redis.command run r =
  if Redis.faulty r then (Throw Redis.connection_error, Redis.ticked r)
  else run (Redis.ticked r).
Proof. by destruct r as [st [|[] fs]]. Qed.

Lemma get_ok now k r o r' :
  Redis.get now k r = (Ok o, r') →
  o = Redis.lookup now r k ∧ r' = Redis.ticked r.
Proof.
  unfold Redis.get. rewrite command_unfold.
  destruct (Redis.faulty r); [done|]. by intros [= <- <-].
Qed.

Lemma get_no_fault now k r :
  Redis.faulty r = false →
  Redis.get now k r = (Ok (Redis.lookup now r k), Redis.ticked r).
Proof. intros Hf. unfold Redis.get. by rewrite command_unfold, Hf. Qed.

Lemma get_fault now k r :
  Redis.faulty r = true →
  Redis.get now k r = (Throw Redis.connection_error, Redis.ticked r).
Proof. intros Hf. unfold Redis.get. by rewrite command_unfold, Hf. Qed.

Lemma setEx_ok now k ttl v r r' :
  Redis.setEx now k ttl v r = (Ok tt, r') →
  (0 < ttl)%Z ∧
  Redis.store r' = <[k := Redis.mkEntry v ttl (now + ttl)%Z]> (Redis.store r).
Proof.
  unfold Redis.setEx. rewrite command_unfold.
  destruct (Redis.faulty r); [done|].
  destruct (Z.leb_spec ttl 0); [done|]. intros [= <-]. by split; [lia|].
Qed.

Lemma setEx_no_fault now k ttl v r :
  Redis.faulty r = false → (0 < ttl)%Z →
  Redis.setEx now k ttl v r =
  (Ok tt, Redis.mk (<[k := Redis.mkEntry v ttl (now + ttl)%Z]> (Redis.store r))
                   (tail (Redis.rfaults r))).
Proof.
  intros Hf Httl. unfold Redis.setEx. rewrite command_unfold, Hf.
  destruct (Z.leb_spec ttl 0); [lia|done].
Qed.

(** A command that rejects leaves the store as it was. *)
Lemma setEx_throw now k ttl v r e r' :
  Redis.setEx now k ttl v r = (Throw e, r') → Redis.store r' = Redis.store r.
Proof.
  unfold Redis.setEx. rewrite command_unfold.
  destruct (Redis.faulty r); [by intros [= _ <-]|].
  destruct (Z.leb_spec ttl 0); [by intros [= _ <-]|done].
Qed.

Lemma del_keys_lookup (ks : list string) (m : gmap string (Redis.entry V)) k :
  Redis.del_keys ks m !! k = if decide (k ∈ ks) then None else m !! k.
Proof.
  unfold Redis.del_keys. induction ks as [|k' ks IH]; cbn [foldr].
  - rewrite decide_False; [done|]. apply not_elem_of_nil.
  - destruct (decide (k' = k)) as [->|Hne].
    + rewrite lookup_delete_eq, decide_True; [done|]. left.
    + rewrite lookup_delete_ne, IH by done.
      destruct (decide (k ∈ ks)) as [Hin|Hin].
      * rewrite decide_True; [done|]. by right.
      * rewrite decide_False; [done|]. by intros [->|?]%elem_of_cons.
Qed.

Lemma del_ok ks r r' :
  Redis.del ks r = (Ok tt, r') → Redis.store r' = Redis.del_keys ks (Redis.store r).
Proof.
  unfold Redis.del. rewrite command_unfold.
  destruct (Redis.faulty r); [done|]. by intros [= <-].
Qed.

Lemma del_throw ks r e r' :
  Redis.del ks r = (Throw e, r') → Redis.store r' = Redis.store r.
Proof.
  unfold Redis.del. rewrite command_unfold.
  destruct (Redis.faulty r); [by intros [= _ <-]|done].
Qed.

Lemma keys_ok now pat r ks r' :
  Redis.keys now pat r = (Ok ks, r') →
  Redis.store r' = Redis.store r ∧
  ∀ k, k ∈ ks ↔ ∃ e, Redis.store r !! k = Some e ∧ Redis.glob pat k = true
                      ∧ Redis.live now e = true.
Proof.
  unfold Redis.keys. rewrite command_unfold.
  destruct (Redis.faulty r); [done|]. intros [= <- <-]. split; [done|].
  intros k. rewrite list_elem_of_fmap. split.
  - intros [[k' e] [-> Hin]]. apply list_elem_of_filter in Hin as [[Hg Hl] Hin].
    apply elem_of_map_to_list in Hin. by exists e.
  - intros (e & Hk & Hg & Hl). exists (k, e). split; [done|].
    apply list_elem_of_filter. split; [done|]. by apply elem_of_map_to_list.
Qed.

Lemma keys_throw now pat r e r' :
  Redis.keys now pat r = (Throw e, r') → Redis.store r' = Redis.store r.
Proof.
  unfold Redis.keys. rewrite command_unfold.
  destruct (Redis.faulty r); [by intros [= _ <-]|done].
Qed.

(** An entry that is dead at one instant is dead at every later instant. *)
Lemma live_later now now' (e : Redis.entry V) :
  (now ≤ now')%Z → Redis.live now e = false → Redis.live now' e = false.
Proof. unfold Redis.live. intros ? H%Z.ltb_ge. apply Z.ltb_ge. lia. Qed.

(** KEYS with a prefix pattern followed by DEL of what it returned: nothing
    under the prefix can be read any more, and the other keys are as before. *)
Lemma keys_del_prefix now p (st st' : gmap string (Redis.entry V)) ks :
  plain p = true →
  (∀ k, k ∈ ks ↔ ∃ e, st !! k = Some e ∧ Redis.glob (p ++ "*") k = true
                       ∧ Redis.live now e = true) →
  st' = Redis.del_keys ks st →
  (∀ k rest now' rf, k = p ++ rest → (now ≤ now')%Z →
      Redis.lookup now' (Redis.mk st' rf) k = None)
  ∧ (∀ k, (∀ rest, k ≠ p ++ rest) → st' !! k = st !! k).
Proof.
  intros Hp Hks ->. split.
  - intros k rest now' rf -> Hle. unfold Redis.lookup. simpl.
    rewrite del_keys_lookup. case_decide as Hin; [done|].
    destruct (st !! (p ++ rest)) as [e|] eqn:He; [|done].
    destruct (Redis.live now e) eqn:Hl.
    + exfalso. apply Hin, Hks. exists e. split_and!; [done| |done].
      apply glob_prefix_star; [done|]. by exists rest.
    + by rewrite (live_later now now' e Hle Hl).
  - intros k Hk. rewrite del_keys_lookup. case_decide as Hin; [|done].
    apply Hks in Hin as (e & _ & Hg & _).
    apply glob_prefix_star in Hg as [rest ->]; [|done]. by destruct (Hk rest).
Qed.

End RedisFacts.

(** ** Rules for postconditions *)

Lemma wp_elim {S A : Type} (m : M S A) (s s' : S) (r : Res A) (Q : Res A → S → Prop) :
  wp m s Q → m s = (r, s') → Q r s'.
Proof. unfold wp. intros HQ Heq. by rewrite Heq in HQ. Qed.

Lemma wp_ret {S A : Type} (a : A) (s : S) (Q : Res A → S → Prop) :
  Q (Ok a) s → wp (ret a) s Q.
Proof. done. Qed.

Lemma wp_throw {S A : Type} (e : string) (s : S) (Q : Res A → S → Prop) :
  Q (Throw e) s → wp (throw e) s Q.
Proof. done. Qed.

Lemma wp_bind {S A B : Type} (m : M S A) (k : A → M S B) (s : S)
    (Q : Res B → S → Prop) :
  wp m s (λ r s', match r with
                  | Ok a => wp (k a) s' Q
                  | Throw e => Q (Throw e) s'
                  end) →
  wp (bind m k) s Q.
Proof. unfold wp, bind. by destruct (m s) as [[a|e] s']. Qed.

Lemma wp_try_catch {S A : Type} (m : M S A) (h : string → M S A) (s : S)
    (Q : Res A → S → Prop) :
  wp m s (λ r s', match r with
                  | Ok a => Q (Ok a) s'
                  | Throw e => wp (h e) s' Q
                  end) →
  wp (try_catch m h) s Q.
Proof. unfold wp, try_catch. by destruct (m s) as [[a|e] s']. Qed.

Lemma wp_pure {S A : Type} (f : S → Res A * S) (s : S) (Q : Res A → S → Prop) :
  Q (f s).1 (f s).2 → wp f s Q.
Proof. done. Qed.

Lemma wp_mono {S A : Type} (m : M S A) (s : S) (Q Q' : Res A → S → Prop) :
  (∀ r s', Q r s' → Q' r s') → wp m s Q → wp m s Q'.
Proof. unfold wp. auto. Qed.

(** ** Shared service operations *)

Section ServiceFacts.
Import Service.
Context {V Row : Type}.
Implicit Types (w : World V Row) (now : Z).

Lemma redisClient_run {A : Type} (m : M (Redis.t V) A) w :
  redisClient m w = ((m (redis w)).1, set_redis (m (redis w)).2 w).
Proof. unfold redisClient. by destruct (m (redis w)). Qed.

Lemma query_unfold {A : Type} (run : World V Row → Res A * World V Row) w :
  query run w =
  match dfaults w with
  | true :: fs => (Throw "SequelizeConnectionError", set_dfaults fs w)
  | _ => run (set_dfaults (tail (dfaults w)) w)
  end.
Proof. by destruct w as [r t n [|[] fs] d c]. Qed.

(** The catch block always answers 500 and leaves table and cache alone. *)
Lemma server_error_run (label message e : string) w :
  ∃ resp w', server_error label message e w = (Ok resp, w')
    ∧ status resp = 500%nat ∧ redis w' = redis w ∧ table w' = table w
    ∧ next_id w' = next_id w.
Proof. by eexists _, _. Qed.

Lemma server_error_status (label message e : string) w resp w' :
  server_error label message e w = (Ok resp, w') → status resp = 500%nat.
Proof. by intros [= <- <-]. Qed.

(** KEYS then DEL that returned: the prefix is cleared, and nothing but the
    cache was touched. *)
Lemma delete_matching_ok now p w w' :
  plain p = true →
  delete_matching now (p ++ "*") w = (Ok tt, w') →
  prefix_cleared now p (redis w')
  ∧ (∀ k, (∀ rest, k ≠ p ++ rest) →
          Redis.store (redis w') !! k = Redis.store (redis w) !! k)
  ∧ table w' = table w ∧ next_id w' = next_id w.
Proof.
  intros Hp. unfold delete_matching, bind. rewrite redisClient_run.
  destruct (Redis.keys now _ (redis w)) as [[ks|e] r1] eqn:Hkeys; simpl; [|done].
  apply keys_ok in Hkeys as [Hst Hks].
  destruct (Nat.ltb_spec 0 (List.length ks)) as [Hlen|Hlen].
  - rewrite redisClient_run. simpl.
    destruct (Redis.del ks r1) as [[[]|e] r2] eqn:Hdel; simpl; [|done].
    intros [= <-]. simpl.
    apply del_ok in Hdel. rewrite Hst in Hdel.
    destruct (keys_del_prefix now _ _ _ ks Hp Hks Hdel) as [Hgone Hkeep].
    split_and!; [|done..].
    intros rest now' Hle. destruct r2 as [st2 rf2]. simpl in *. by eapply Hgone.
  - intros [= <-]. simpl.
    assert (ks = []) as -> by (destruct ks; [done|simpl in Hlen; lia]).
    destruct (keys_del_prefix now _ (Redis.store (redis w)) _ [] Hp Hks eq_refl)
      as [Hgone Hkeep].
    split_and!; [|by rewrite Hst|done..].
    intros rest now' Hle. destruct r1 as [st1 rf1]. simpl in *. subst st1.
    by eapply Hgone.
Qed.

(** KEYS or DEL that rejects leaves the store as it was. *)
Lemma delete_matching_throw now pat w e w' :
  delete_matching now pat w = (Throw e, w') →
  Redis.store (redis w') = Redis.store (redis w) ∧ table w' = table w.
Proof.
  unfold delete_matching, bind. rewrite redisClient_run.
  destruct (Redis.keys now _ (redis w)) as [[ks|e0] r1] eqn:Hkeys; simpl.
  - apply keys_ok in Hkeys as [Hst _].
    destruct (0 <? List.length ks)%nat; [|done].
    rewrite redisClient_run. simpl.
    destruct (Redis.del ks r1) as [[[]|e1] r2] eqn:Hdel; simpl; [done|].
    intros [= _ <-]. simpl. apply del_throw in Hdel. by rewrite Hdel, Hst.
  - intros [= _ <-]. simpl. by apply keys_throw in Hkeys.
Qed.

End ServiceFacts.

(** ** Notes service *)

Section NotesFacts.
Import Service NotesService.
Implicit Types (w : World) (uid nid : N) (now : Z).

Lemma notes_prefix_plain uid : plain (notes_prefix uid) = true.
Proof.
  unfold notes_prefix, plain. rewrite !all_chars_app.
  fold (plain (pretty uid)). by rewrite plain_pretty.
Qed.

Lemma notes_pattern uid :
  "cache:notes:" ++ pretty uid ++ ":*" = notes_prefix uid ++ "*".
Proof. unfold notes_prefix. by rewrite !string_app_assoc. Qed.






(** With nothing to read under the key, the middleware hands the request
    to the downstream handler: directly when the GET rejects, through the
    replaced [res.json] otherwise. *)
Lemma cacheMiddleware_miss duration now uid url next w :
  Redis.lookup now (redis w) (cacheKey uid url) = None →
  cacheMiddleware duration now GET uid url next w =
  if Redis.faulty (redis w) then next (after_get w)
  else on_miss now duration (cacheKey uid url) next (after_get w).
Proof.
  intros Hmiss. unfold cacheMiddleware. cbn [is_GET negb].
  unfold bind at 1. unfold try_catch, bind at 1. rewrite redisClient_run.
  destruct (Redis.faulty (redis w)) eqn:Hf.
  - by rewrite get_fault.
  - rewrite get_no_fault by done. simpl. by rewrite Hmiss.
Qed.

End NotesFacts.

(** ** Todos service *)

Section TodosFacts.
Import Service TodosService.
Implicit Types (w : World) (uid tid : N) (now : Z).
Variable sequelize_boolean : BooleanInput → bool.






End TodosFacts.

(** ** Auth service *)

Lemma jwt_verify_ok `{JwtLib} now token c :
  jwt_verify now token = Ok c ↔ jwt_decode token = Some c ∧ (now < claim_exp c)%Z.
Proof.
  unfold jwt_verify. destruct (jwt_decode token) as [c'|]; [|by split; [|intros []]].
  destruct (Z.ltb_spec now (claim_exp c')).
  - split; [by intros [= ->]|by intros [[= ->] _]].
  - split; [done|]. intros [[= ->] ?]. lia.
Qed.

Section AuthFacts.
Import Service AuthService.
Context `{JwtLib} `{BcryptLib}.
Implicit Types (w : World) (now : Z) (token : string).

Lemma verify_token_run now token w : verify_token now token w = (jwt_verify now token, w).
Proof. done. Qed.

(** A login that answers 200 has stored its fresh refresh token under the
    key of the user, whatever was stored there. *)
Lemma login_stores now b w resp w' :
  login now b w = (Ok resp, w') →
  status resp = 200%nat →
  ∃ user,
    Redis.store (redis w') !! refresh_key (user_id user)
      = Some (Redis.mkEntry (generateRefreshToken now (user_id user))
                            2592000 (now + 2592000)%Z)
    ∧ body resp = envelope_data true "Login successful"
        (JObj [("user", userResponse user);
               ("accessToken", JStr (generateToken now (user_id user)));
               ("refreshToken", JStr (generateRefreshToken now (user_id user)))]).
Proof.
  unfold login, try_catch.
  destruct (validate_login b); [|by intros [= <- <-]].
  unfold bind at 1.
  destruct (User_findOne_or _ _ w) as [[[user|]|e] w0];
    [|by intros [= <- <-]|by intros ->%server_error_status].
  destruct (bcrypt_compare _ _); cbn [negb]; [|by intros [= <- <-]].
  unfold bind at 1. rewrite redisClient_run.
  destruct (Redis.setEx _ _ _ _ (redis w0)) as [[[]|e] r1] eqn:Hset; simpl;
    [|by intros ->%server_error_status].
  intros [= <- <-] _. exists user. split; [|done].
  apply setEx_ok in Hset as [_ Hst]. simpl. rewrite Hst. apply lookup_insert_eq.
Qed.

(** POST /refresh with a token: 200 exactly on the stored token of the
    identity the token carries, 403 otherwise. *)
Lemma refresh_result now token w :
  truthy_string token = true →
  ∃ resp w', refresh now (Some token) w = (Ok resp, w')
    ∧ ((status resp = 200%nat
        ∧ ∃ c, jwt_verify now token = Ok c
               ∧ Redis.lookup now (redis w) (refresh_key (claim_id c)) = Some token)
       ∨ resp = invalid_refresh).
Proof.
  intros Htruthy. unfold refresh, try_catch. rewrite Htruthy. cbn [negb].
  unfold bind at 1. rewrite verify_token_run.
  destruct (jwt_verify now token) as [c|e] eqn:Hverify; [|by eexists _, _; split; [|right]].
  unfold bind at 1. rewrite redisClient_run.
  destruct (Redis.get now _ (redis w)) as [[stored|e] r1] eqn:Hget; simpl;
    [|by eexists _, _; split; [|right]].
  apply get_ok in Hget as [-> ->].
  destruct (truthy_opt _); simpl; [|by eexists _, _; split; [|right]].
  case_bool_decide as Hstored; simpl; [|by eexists _, _; split; [|right]].
  eexists _, _. split; [done|]. left. split; [done|]. by exists c.
Qed.

(** The stored token of the identity is accepted when Redis answers. *)
Lemma refresh_accepts now token c w :
  truthy_string token = true →
  jwt_verify now token = Ok c →
  Redis.faulty (redis w) = false →
  Redis.lookup now (redis w) (refresh_key (claim_id c)) = Some token →
  ∃ w', refresh now (Some token) w
        = (Ok (res_json (JObj [("success", JBool true);
                               ("data", JObj [("accessToken",
                                               JStr (generateToken now (claim_id c)))])])),
           w').
Proof.
  intros Htruthy Hverify Hf Hstored. unfold refresh, try_catch. rewrite Htruthy. cbn [negb].
  unfold bind at 1. rewrite verify_token_run, Hverify.
  unfold bind at 1. rewrite redisClient_run, get_no_fault by done. simpl.
  rewrite Hstored. simpl. rewrite Htruthy. simpl.
  rewrite bool_decide_true by done. simpl. by eexists.
Qed.

(** Removing the stored refresh token adds no key. *)
Lemma drop_refresh_token_run now refreshToken w :
  ∃ r w1, drop_refresh_token now refreshToken w = (r, w1)
    ∧ (∀ k e, Redis.store (redis w1) !! k = Some e → Redis.store (redis w) !! k = Some e)
    ∧ (Redis.rfaults (redis w) = [] → Redis.rfaults (redis w1) = []
       ∧ (refresh_step_passes now refreshToken = true → r = Ok tt)).
Proof.
  unfold drop_refresh_token, refresh_step_passes.
  destruct refreshToken as [t|]; [|by eexists _, _].
  destruct (truthy_string t); [|by eexists _, _].
  unfold bind. rewrite verify_token_run.
  destruct (jwt_verify now t) as [c'|]; [|by eexists _, _].
  rewrite redisClient_run. unfold Redis.del1.
  destruct (Redis.del _ (redis w)) as [[[]|e1] r1] eqn:Hdel; simpl.
  - eexists _, _. split; [done|]. simpl. split.
    + intros k e. apply del_ok in Hdel. rewrite Hdel, del_keys_lookup. by case_decide.
    + intros Hnf. unfold Redis.del in Hdel. rewrite command_unfold in Hdel.
      unfold Redis.faulty, Redis.ticked in Hdel. rewrite Hnf in Hdel.
      by injection Hdel as <-.
  - eexists _, _. split; [done|]. simpl. split.
    + apply del_throw in Hdel. by rewrite Hdel.
    + intros Hnf. unfold Redis.del in Hdel. rewrite command_unfold in Hdel.
      unfold Redis.faulty in Hdel. by rewrite Hnf in Hdel.
Qed.

Lemma logout_blacklists now refreshToken token c w :
  truthy_string token = true →
  jwt_verify now token = Ok c →
  Redis.rfaults (redis w) = [] →
  refresh_step_passes now refreshToken = true →
  ∃ w', logout now refreshToken (Some token) w = (Ok logout_successful, w')
    ∧ Redis.rfaults (redis w') = []
    ∧ Redis.store (redis w') !! blacklist_key token
      = Some (Redis.mkEntry "revoked" (claim_exp c - now) (claim_exp c)).
Proof.
  intros Htruthy Hverify Hnofault Hstep.
  apply jwt_verify_ok in Hverify as Hc. destruct Hc as [_ Hexp].
  unfold logout, try_catch. unfold bind at 1.
  destruct (drop_refresh_token_run now refreshToken w) as (r & w1 & -> & _ & Hnf).
  destruct (Hnf Hnofault) as [Hnf1 Hr]. rewrite (Hr Hstep).
  unfold blacklist_access_token. rewrite Htruthy.
  unfold bind at 1. unfold bind at 1. rewrite verify_token_run, Hverify.
  rewrite redisClient_run, setEx_no_fault by (try lia; unfold Redis.faulty; by rewrite Hnf1).
  simpl. eexists. split; [done|]. simpl. rewrite Hnf1. split; [done|].
  rewrite lookup_insert_eq. do 2 f_equal. lia.
Qed.

(** A blacklisted token is answered 401, Token revoked, while the entry lives. *)
Lemma verify_blacklisted now token w e :
  Redis.faulty (redis w) = false →
  Redis.store (redis w) !! blacklist_key token = Some e →
  Redis.value e = "revoked" → (now < Redis.expires_at e)%Z →
  ∃ w', verify now token w = (Ok (not_valid "Token revoked"), w').
Proof.
  intros Hf He Hv Hlive. unfold verify, try_catch. unfold bind at 1.
  rewrite redisClient_run, get_no_fault by done. simpl.
  unfold Redis.lookup. rewrite He. unfold Redis.live.
  destruct (Z.ltb_spec now (Redis.expires_at e)); [|lia].
  rewrite Hv. simpl. by eexists.
Qed.

(** Logging out with an expired access token stores nothing. *)
Lemma logout_expired now refreshToken token c w :
  jwt_decode token = Some c → (claim_exp c ≤ now)%Z →
  ∃ w', logout now refreshToken (Some token) w = (Ok logout_successful, w')
    ∧ ∀ k e, Redis.store (redis w') !! k = Some e → Redis.store (redis w) !! k = Some e.
Proof.
  intros Hdecode Hexp.
  assert (jwt_verify now token = Throw "TokenExpiredError") as Hverify.
  { unfold jwt_verify. rewrite Hdecode. destruct (Z.ltb_spec now (claim_exp c)); [lia|done]. }
  unfold logout, try_catch. unfold bind at 1.
  destruct (drop_refresh_token_run now refreshToken w) as (r & w1 & -> & Hkeys & _).
  destruct r as [[]|e]; [|by eexists].
  unfold blacklist_access_token.
  destruct (truthy_string token); [|by eexists].
  unfold bind at 1. unfold bind at 1. rewrite verify_token_run, Hverify. by eexists.
Qed.

End AuthFacts.

(** ** Logout and the stored refresh token *)

Section AuthLogoutFacts.
Import Service AuthService.
Context `{JwtLib}.
Implicit Types (w : World) (now : Z).

Lemma blacklist_key_not_refresh_key token uid : blacklist_key token ≠ refresh_key uid.
Proof. unfold blacklist_key, refresh_key. cbn. by intros [=]. Qed.

(** What the blacklist step of logout can do to the store: nothing, or one
    entry under a blacklist key. *)
Lemma blacklist_access_token_keeps now accessToken w r w1 k :
  blacklist_access_token now accessToken w = (r, w1) →
  (∀ token, k ≠ blacklist_key token) →
  Redis.store (redis w1) !! k = Redis.store (redis w) !! k.
Proof.
  unfold blacklist_access_token. intros Hrun Hk.
  destruct accessToken as [token|]; [|by injection Hrun as _ <-].
  destruct (truthy_string token); [|by injection Hrun as _ <-].
  revert Hrun. unfold bind at 1. rewrite verify_token_run.
  destruct (jwt_verify now token) as [c|e]; [|by intros [= _ <-]].
  rewrite redisClient_run.
  destruct (Redis.setEx _ _ _ _ (redis w)) as [[[]|e] r1] eqn:Hset; simpl.
  - intros [= _ <-]. simpl. apply setEx_ok in Hset as [_ ->].
    by rewrite lookup_insert_ne.
  - intros [= _ <-]. simpl. apply setEx_throw in Hset. by rewrite Hset.
Qed.

(** Logging out with a refresh token that verifies, on a Redis that answers:
    the entry of its identity is gone. *)
Lemma logout_drops_refresh now refreshToken accessToken c w :
  truthy_string refreshToken = true →
  jwt_verify now refreshToken = Ok c →
  Redis.faulty (redis w) = false →
  ∃ w', logout now (Some refreshToken) accessToken w = (Ok logout_successful, w')
    ∧ Redis.store (redis w') !! refresh_key (claim_id c) = None
    ∧ table w' = table w.
Proof.
  intros Htruthy Hverify Hf. unfold logout, try_catch. unfold bind at 1.
  unfold drop_refresh_token. rewrite Htruthy.
  unfold bind at 1. rewrite verify_token_run, Hverify.
  rewrite redisClient_run. unfold Redis.del1, Redis.del.
  rewrite command_unfold, Hf. simpl.
  unfold bind at 1.
  destruct (blacklist_access_token now accessToken _) as [r w1] eqn:Hblack.
  assert (Redis.store (redis w1) !! refresh_key (claim_id c) = None) as Hgone.
  { erewrite blacklist_access_token_keeps; [|exact Hblack|].
    - simpl. apply lookup_delete_eq.
    - intros token Heq. by apply (blacklist_key_not_refresh_key token (claim_id c)). }
  assert (table w1 = table w) as Htable.
  { revert Hblack. unfold blacklist_access_token.
    destruct accessToken as [token|]; [|by intros [= _ <-]].
    destruct (truthy_string token); [|by intros [= _ <-]].
    unfold bind at 1. rewrite verify_token_run.
    destruct (jwt_verify now token); [|by intros [= _ <-]].
    rewrite redisClient_run.
    destruct (Redis.setEx _ _ _ _ _) as [? ?]. by intros [= _ <-]. }
  destruct r as [[]|e]; by eexists.
Qed.

(** Without an entry under the key of its identity, a refresh token is
    answered 403. *)
Lemma refresh_rejects_absent now token w :
  truthy_string token = true →
  (∀ c, jwt_decode token = Some c →
        Redis.store (redis w) !! refresh_key (claim_id c) = None) →
  ∃ w', refresh now (Some token) w = (Ok invalid_refresh, w').
Proof.
  intros Htruthy Habsent.
  destruct (refresh_result now token w Htruthy) as (resp & w' & Hrun & Hcases).
  exists w'. destruct Hcases as [(_ & c & Hverify & Hstored)| ->]; [|done].
  apply jwt_verify_ok in Hverify as [Hdecode _].
  unfold Redis.lookup in Hstored. by rewrite (Habsent c Hdecode) in Hstored.
Qed.

End AuthLogoutFacts.

(** ** The monolithic backend *)

Section BackendFacts.
Import Backend.
Context {Row : Type}.
Implicit Types (w : Db Row).

Lemma bind_execute {A B : Type} (run : Db Row → Res A * Db Row)
    (k : A → M (Db Row) B) w :
  bind (execute run) k w =
  if faulty w then (Throw "ECONNREFUSED", ticked w) else bind run k (ticked w).
Proof. unfold bind, execute. by destruct (faulty w). Qed.

Lemma faulty_no_faults w : dfaults w = [] → faulty w = false.
Proof. unfold faulty. by intros ->. Qed.

Lemma ticked_no_faults w : dfaults w = [] → dfaults (ticked w) = [].
Proof. simpl. by intros ->. Qed.

Lemma wp_execute {A : Type} (run : Db Row → Res A * Db Row) w
    (Q : Res A → Db Row → Prop) :
  (faulty w = true → Q (Throw "ECONNREFUSED") (ticked w)) →
  (faulty w = false → wp run (ticked w) Q) →
  wp (execute run) w Q.
Proof. unfold wp, execute. destruct (faulty w); auto. Qed.

Lemma wp_createConnection w (Q : Res unit → Db Row → Prop) :
  (faulty w = true → Q (Throw "ECONNREFUSED") (ticked w)) →
  (faulty w = false → Q (Ok tt) (ticked w)) →
  wp createConnection w Q.
Proof. intros. by apply wp_execute. Qed.

Lemma wp_server_error (label message e : string) w (Q : Res Response → Db Row → Prop) :
  Q (Ok (res_status_json 500 (envelope false message)))
    (mkDb (table w) (next_id w) (dfaults w) (development w) (console w ++ [label ++ e])) →
  wp (server_error label message e) w Q.
Proof. done. Qed.

(** What LIMIT and OFFSET keep was there. *)
Lemma limit_offset_subset {A : Type} (limit offset : Z) (rows kept : list A) :
  limit_offset limit offset rows = Ok kept → kept ⊆ rows.
Proof.
  unfold limit_offset. case_match; [done|]. intros [= <-].
  etrans; [apply subseteq_take|apply subseteq_drop].
Qed.

Lemma elem_of_select (p : N * Row → bool) (before : N * Row → N * Row → Prop)
    `{!RelDecision before} w kv :
  kv ∈ select p before w ↔ table w !! kv.1 = Some kv.2 ∧ p kv = true.
Proof.
  unfold select. rewrite merge_sort_Permutation, list_elem_of_filter.
  destruct kv as [k r]. rewrite elem_of_map_to_list. simpl. tauto.
Qed.

End BackendFacts.

(** One step of symbolic execution of a route. *)
Ltac wp_step :=
  lazymatch goal with
  | |- wp (bind _ _) _ _ => apply wp_bind
  | |- wp (try_catch _ _) _ _ => apply wp_try_catch
  | |- wp Backend.createConnection _ _ => apply wp_createConnection; intros ?
  | |- wp (Backend.execute _) _ _ => apply wp_execute; intros ?; [|apply wp_pure]
  | |- wp (Backend.server_error _ _ _) _ _ => apply wp_server_error
  | |- wp (ret _) _ _ => apply wp_ret
  | |- wp (throw _) _ _ => apply wp_throw
  end.

(** The [user_id] of a row is the only owner its JSON names. *)
Lemma owners_strings (l : list string) : flat_map owners (map JStr l) = [].
Proof. by induction l. Qed.

Lemma owners_rows {A : Type} (f : A → Json) (owner : A → Z) (rows : list A) :
  (∀ a, owners (f a) = [owner a]) →
  flat_map owners (map f rows) = map owner rows.
Proof. intros Hf. induction rows as [|a rows IH]; simpl; [done|]. by rewrite Hf, IH. Qed.

Lemma owners_pages total limit : owners (Backend.pages total limit) = [].
Proof. unfold Backend.pages. by case_match. Qed.

(** *** Ownership *)

Section Ownership.
Import Backend.
Context {Row : Type} (owner : Row → N).
Implicit Types (w : Db Row) (uid nid : N).

Lemma others_same_refl uid w w' : table w' = table w → others_same owner uid w w'.
Proof. intros Ht nid r _. by rewrite Ht. Qed.

Lemma shows_only_throw uid e : shows_only uid (Throw e).
Proof. by intros resp z [=]. Qed.

Lemma shows_only_plain uid resp : owners (body resp) = [] → shows_only uid (Ok resp).
Proof. intros Hb resp' z [= <-]. rewrite Hb. by intros ?%elem_of_nil. Qed.

Lemma shows_only_one uid resp :
  owners (body resp) = [Z.of_N uid] → shows_only uid (Ok resp).
Proof. intros Hb resp' z [= <-]. rewrite Hb. by intros ->%list_elem_of_singleton. Qed.

Lemma shows_only_rows uid resp (rows : list (N * Row)) :
  owners (body resp) = map (λ kv, Z.of_N (owner kv.2)) rows →
  (∀ kv, kv ∈ rows → owner kv.2 = uid) →
  shows_only uid (Ok resp).
Proof.
  intros Hb Hrows resp' z [= <-]. rewrite Hb.
  intros (kv & -> & Hkv)%list_elem_of_fmap. by rewrite (Hrows kv Hkv).
Qed.

(** Changing or deleting a row of [uid] leaves the rows of the others. *)
Lemma others_same_alter uid nid (f : Row → Row) w w' r0 :
  table w !! nid = Some r0 → owner r0 = uid → owner (f r0) = uid →
  table w' = alter f nid (table w) →
  others_same owner uid w w'.
Proof.
  intros Hr0 Hu Hf Ht k r Hr. rewrite Ht. destruct (decide (k = nid)) as [->|Hk].
  - rewrite lookup_alter_eq, Hr0. simpl. split; intros [= <-]; by destruct Hr.
  - by rewrite lookup_alter_ne.
Qed.

Lemma others_same_delete uid nid w w' r0 :
  table w !! nid = Some r0 → owner r0 = uid →
  table w' = delete nid (table w) →
  others_same owner uid w w'.
Proof.
  intros Hr0 Hu Ht k r Hr. rewrite Ht. destruct (decide (k = nid)) as [->|Hk].
  - rewrite lookup_delete_eq, Hr0. split; [done|]. intros [= <-]. by destruct Hr.
  - by rewrite lookup_delete_ne.
Qed.

Lemma others_same_insert uid nid w w' r0 :
  table w !! nid = None → owner r0 = uid →
  table w' = <[nid := r0]> (table w) →
  others_same owner uid w w'.
Proof.
  intros Hnone Hu Ht k r Hr. rewrite Ht. destruct (decide (k = nid)) as [->|Hk].
  - rewrite lookup_insert_eq, Hnone. split; [|done]. intros [= <-]. by destruct Hr.
  - by rewrite lookup_insert_ne.
Qed.

End Ownership.

(** A leaf where nothing was written and no row is shown. *)
Ltac quiet_leaf :=
  split_and!;
  [by apply others_same_refl
  |first [apply shows_only_throw
         |by (apply shows_only_plain; simpl; rewrite ?owners_strings)]
  |try (intros ? ? ? ? Hnofaults; exfalso; unfold Backend.faulty in *; simpl in *;
        rewrite Hnofaults in *; simpl in *; congruence)].

(** A leaf that answers 404 without writing. *)
Ltac not_found_leaf :=
  split_and!;
  [by apply others_same_refl
  |by apply shows_only_plain
  |by intros].

(** ** routes/notes.js *)

Section BackendNotesFacts.
Import Backend BackendNotes.
Variable sql_like : string → string → bool.
Implicit Types (w : World) (uid nid : N) (now : Z).


Lemma owners_note_json kv : owners (note_json kv) = [Z.of_N (user_id kv.2)].
Proof. unfold note_json. simpl. by rewrite owners_strings. Qed.

Lemma select_owned_spec nid uid w kv :
  kv ∈ select_owned nid uid w ↔
  kv.1 = nid ∧ table w !! nid = Some kv.2 ∧ user_id kv.2 = uid.
Proof.
  unfold select_owned. destruct kv as [k r]. simpl.
  destruct (table w !! nid) as [r0|] eqn:Hr.
  - destruct (N.eqb_spec (user_id r0) uid) as [Hu|Hu].
    + rewrite list_elem_of_singleton. split; [by intros [= -> ->]|].
      by intros (-> & [= ->] & _).
    + split; [by intros ?%elem_of_nil|]. intros (-> & [= ->] & ?). done.
  - split; [by intros ?%elem_of_nil|]. by intros (_ & ? & _).
Qed.

Lemma not_owned_select uid nid w w1 :
  table w1 = table w → not_owned user_id uid nid w → select_owned nid uid w1 = [].
Proof.
  intros Ht Hno. unfold select_owned. rewrite Ht.
  destruct (table w !! nid) as [r|] eqn:Hr; [|done].
  destruct (N.eqb_spec (user_id r) uid) as [Hu|Hu]; [|done]. by destruct (Hno r).
Qed.

Lemma select_owned_cons uid nid w kv rest :
  select_owned nid uid w = kv :: rest →
  kv.1 = nid ∧ table w !! nid = Some kv.2 ∧ user_id kv.2 = uid.
Proof.
  intros Hsel. apply select_owned_spec. rewrite Hsel. left.
Qed.

(** The target is not owned, yet the ownership query returned it. *)
Ltac owned_absurd Hsel :=
  intros ? [= <-] _ Hno _; exfalso;
  match type of Hsel with
  | select_owned _ _ ?w1 = _ =>
      match type of Hno with
      | not_owned _ _ _ ?w0 =>
          rewrite (not_owned_select _ _ w0 w1 eq_refl Hno) in Hsel; discriminate
      end
  end.

Lemma get_note_scoped now uid nid w :
  wp (get_note now uid nid) w (scoped_note uid w (Some nid) True).
Proof.
  unfold get_note. repeat (wp_step; simpl); [quiet_leaf..|].
  destruct (select_owned nid uid _) as [|n rest] eqn:Hsel; wp_step.
  - not_found_leaf.
  - apply select_owned_cons in Hsel as Hn. destruct Hn as (_ & _ & Hu).
    split_and!; [by apply others_same_refl| |owned_absurd Hsel].
    apply (shows_only_rows user_id uid _ [n]); [simpl; by rewrite owners_strings|].
    by intros kv ->%list_elem_of_singleton.
Qed.

Lemma elem_of_wanted uid q kv : wanted sql_like uid q kv = true → user_id kv.2 = uid.
Proof.
  unfold wanted. rewrite !andb_true_iff. intros [[[Hu _] _] _]. by apply N.eqb_eq.
Qed.

Lemma list_notes_scoped now uid q w :
  wp (list_notes sql_like now uid q) w (scoped_note uid w None True).
Proof.
  unfold list_notes. repeat (wp_step; simpl); [quiet_leaf..|].
  destruct (limit_offset _ _ _) as [notes|e] eqn:Hnotes; simpl.
  - repeat (wp_step; simpl); [quiet_leaf|].
    split_and!; [by apply others_same_refl| |done].
    apply (shows_only_rows user_id uid _ notes).
    + simpl. rewrite owners_pages, !app_nil_r.
      apply (owners_rows note_json (λ kv, Z.of_N (user_id kv.2)) notes owners_note_json).
    + intros kv Hkv. apply limit_offset_subset in Hnotes. apply Hnotes in Hkv.
      apply elem_of_select in Hkv as [_ Hw]. by apply elem_of_wanted in Hw.
  - wp_step. quiet_leaf.
Qed.

Lemma delete_note_scoped now uid nid w :
  wp (delete_note now uid nid) w (scoped_note uid w (Some nid) True).
Proof.
  unfold delete_note. repeat (wp_step; simpl); [quiet_leaf..|].
  destruct (select_owned nid uid _) as [|n rest] eqn:Hsel; simpl; wp_step.
  - not_found_leaf.
  - apply select_owned_cons in Hsel as Hn. destruct Hn as (_ & Hrow & Hu). simpl in Hrow.
    split_and!; [|by apply shows_only_plain|owned_absurd Hsel].
    by eapply others_same_delete.
Qed.

Lemma select_by_id_lookup nid w : select_by_id nid w = match table w !! nid with
                                                       | Some r => [(nid, r)]
                                                       | None => []
                                                       end.
Proof. done. Qed.

Lemma create_note_scoped now uid b w :
  wp (create_note now uid b) w (scoped_note uid w None True).
Proof.
  unfold create_note. wp_step. wp_step; simpl; [quiet_leaf|]. wp_step.
  destruct (validate_create b); [|wp_step; simpl; quiet_leaf].
  wp_step. wp_step; simpl; [wp_step; quiet_leaf|].
  unfold insert. simpl.
  destruct (table w !! next_id w) as [taken|] eqn:Hfree; simpl; [wp_step; quiet_leaf|].
  wp_step. wp_step; simpl; [wp_step|].
  - split_and!; [|by apply shows_only_plain|done].
    by eapply (others_same_insert user_id uid (next_id w)); [exact Hfree| |reflexivity].
  - rewrite select_by_id_lookup. simpl. rewrite lookup_insert_eq.
    repeat (wp_step; simpl).
    split_and!; [| |done].
    2:{ apply shows_only_one. simpl. by rewrite owners_strings. }
    by eapply (others_same_insert user_id uid (next_id w)); [exact Hfree| |reflexivity].
Qed.

(** The guarded assignment of PUT keeps the owner of the row. *)
Lemma guarded_assign_owner now uid b r :
  user_id r = uid →
  user_id (if (user_id r =? uid)%N then assign now b r else r) = uid.
Proof. intros Hu. by case_match. Qed.

Lemma update_note_scoped now uid nid b w :
  wp (update_note now uid nid b) w (scoped_note uid w (Some nid) (validate_update b = [])).
Proof.
  unfold update_note. wp_step. wp_step; simpl; [quiet_leaf|]. wp_step.
  destruct (validate_update b) eqn:Hvalid.
  2:{ wp_step. simpl. split_and!; [by apply others_same_refl| |by intros].
      apply shows_only_plain. simpl. by rewrite owners_strings. }
  wp_step. wp_step; simpl; [wp_step; quiet_leaf|].
  destruct (select_owned nid uid _) as [|n rest] eqn:Hsel; simpl.
  { wp_step. simpl. not_found_leaf. }
  apply select_owned_cons in Hsel as Hn. destruct Hn as (_ & Hrow & Hu). simpl in Hrow.
  wp_step. wp_step; simpl; [wp_step|].
  { split_and!; [by apply others_same_refl|by apply shows_only_plain|owned_absurd Hsel]. }
  wp_step. wp_step; simpl; [wp_step|].
  { split_and!; [|by apply shows_only_plain|owned_absurd Hsel].
    eapply (others_same_alter user_id uid nid); [exact Hrow|exact Hu| |reflexivity].
    by apply guarded_assign_owner. }
  rewrite select_by_id_lookup. simpl. rewrite lookup_alter_eq, Hrow. simpl.
  repeat (wp_step; simpl).
  split_and!; [| |owned_absurd Hsel].
  - eapply (others_same_alter user_id uid nid); [exact Hrow|exact Hu| |reflexivity].
    by apply guarded_assign_owner.
  - apply shows_only_one. simpl. rewrite owners_strings. simpl.
    by rewrite (guarded_assign_owner now uid b n.2 Hu).
Qed.

Lemma toggle_pin_scoped now uid nid w :
  wp (toggle_pin now uid nid) w (scoped_note uid w (Some nid) True).
Proof.
  unfold toggle_pin. wp_step. wp_step; simpl; [quiet_leaf|]. wp_step.
  wp_step. wp_step; simpl; [wp_step; quiet_leaf|].
  destruct (select_owned nid uid _) as [|n rest] eqn:Hsel; simpl.
  { wp_step. simpl. not_found_leaf. }
  apply select_owned_cons in Hsel as Hn. destruct Hn as (_ & Hrow & Hu). simpl in Hrow.
  wp_step. wp_step; simpl; [wp_step|].
  { split_and!; [by apply others_same_refl|by apply shows_only_plain|owned_absurd Hsel]. }
  wp_step. wp_step; simpl; [wp_step|].
  { split_and!; [|by apply shows_only_plain|owned_absurd Hsel].
    by eapply (others_same_alter user_id uid nid); [exact Hrow|exact Hu| |reflexivity]. }
  rewrite select_by_id_lookup. simpl. rewrite lookup_alter_eq, Hrow. simpl.
  repeat (wp_step; simpl).
  split_and!; [| |owned_absurd Hsel].
  - by eapply (others_same_alter user_id uid nid); [exact Hrow|exact Hu| |reflexivity].
  - apply shows_only_one. simpl. rewrite owners_strings. simpl. by rewrite Hu.
Qed.

(** Every request of the router is scoped to its caller. *)
Lemma notes_handle_scoped now uid req w :
  wp (handle sql_like now uid req) w
     (scoped_note uid w (note_target req) (note_valid req)).
Proof.
  destruct req; simpl.
  - apply list_notes_scoped.
  - apply get_note_scoped.
  - apply create_note_scoped.
  - apply update_note_scoped.
  - apply delete_note_scoped.
  - apply toggle_pin_scoped.
Qed.

End BackendNotesFacts.

(** ** routes/todos.js *)

Section BackendTodosFacts.
Import Backend BackendTodos.
Implicit Types (w : World) (uid tid : N) (now : Z).

Lemma owners_opt_json {A : Type} (f : A → Json) (o : option A) :
  (∀ a, owners (f a) = []) → owners (opt_json f o) = [].
Proof. intros Hf. destruct o; simpl; auto. Qed.

Lemma owners_sum_json p rows : owners (sum_json p rows) = [].
Proof. by destruct rows. Qed.

Lemma owners_general_stats mine : owners (general_stats mine) = [].
Proof. unfold general_stats. simpl. by rewrite !owners_sum_json. Qed.

Lemma owners_group_stats g mine : flat_map owners (group_stats g mine) = [].
Proof.
  unfold group_stats. induction (remove_dups _) as [|v vs IH]; [done|].
  simpl. by rewrite owners_sum_json, IH.
Qed.

Lemma owners_todo_json kv : owners (todo_json kv) = [Z.of_N (user_id kv.2)].
Proof.
  unfold todo_json. simpl.
  by rewrite !owners_opt_json by done.
Qed.

Lemma todo_select_owned_spec tid uid w kv :
  kv ∈ select_owned tid uid w ↔
  kv.1 = tid ∧ table w !! tid = Some kv.2 ∧ user_id kv.2 = uid.
Proof.
  unfold select_owned. destruct kv as [k r]. simpl.
  destruct (table w !! tid) as [r0|] eqn:Hr.
  - destruct (N.eqb_spec (user_id r0) uid) as [Hu|Hu].
    + rewrite list_elem_of_singleton. split; [by intros [= -> ->]|].
      by intros (-> & [= ->] & _).
    + split; [by intros ?%elem_of_nil|]. intros (-> & [= ->] & ?). done.
  - split; [by intros ?%elem_of_nil|]. by intros (_ & ? & _).
Qed.

Lemma todo_not_owned_select uid tid w w1 :
  table w1 = table w → not_owned user_id uid tid w → select_owned tid uid w1 = [].
Proof.
  intros Ht Hno. unfold select_owned. rewrite Ht.
  destruct (table w !! tid) as [r|] eqn:Hr; [|done].
  destruct (N.eqb_spec (user_id r) uid) as [Hu|Hu]; [|done]. by destruct (Hno r).
Qed.

Lemma todo_select_owned_cons uid tid w kv rest :
  select_owned tid uid w = kv :: rest →
  kv.1 = tid ∧ table w !! tid = Some kv.2 ∧ user_id kv.2 = uid.
Proof.
  intros Hsel. apply todo_select_owned_spec. rewrite Hsel. left.
Qed.

Lemma consistent_same w w' : table w' = table w → consistent w → consistent w'.
Proof. intros Ht Hc tid r. rewrite Ht. apply Hc. Qed.

Lemma consistent_alter tid (f : TodoRow → TodoRow) w w' :
  (∀ r, (completed r = false → completed_at r = None) →
        completed (f r) = false → completed_at (f r) = None) →
  table w' = alter f tid (table w) →
  consistent w → consistent w'.
Proof.
  intros Hf Ht Hc k r. rewrite Ht. destruct (decide (k = tid)) as [->|Hk].
  - rewrite lookup_alter_eq. destruct (table w !! tid) as [r0|] eqn:Hr0; [|done].
    simpl. intros [= <-]. apply Hf. by apply (Hc tid).
  - rewrite lookup_alter_ne by done. apply Hc.
Qed.

Lemma consistent_delete tid w w' :
  table w' = delete tid (table w) → consistent w → consistent w'.
Proof.
  intros Ht Hc k r. rewrite Ht. destruct (decide (k = tid)) as [->|Hk].
  - by rewrite lookup_delete_eq.
  - rewrite lookup_delete_ne by done. apply Hc.
Qed.

Lemma consistent_insert tid r0 w w' :
  completed_at r0 = None →
  table w' = <[tid := r0]> (table w) → consistent w → consistent w'.
Proof.
  intros Hr0 Ht Hc k r. rewrite Ht. destruct (decide (k = tid)) as [->|Hk].
  - rewrite lookup_insert_eq. by intros [= <-].
  - rewrite lookup_insert_ne by done. apply Hc.
Qed.

(** The assignments of PUT and of the toggle keep a row consistent. *)
Lemma assign_consistent now b r :
  (completed r = false → completed_at r = None) →
  completed (assign now b r) = false → completed_at (assign now b r) = None.
Proof.
  unfold assign. simpl. destruct (b_completed b) as [v|]; simpl; [|done].
  by intros _ ->.
Qed.

Lemma set_completed_consistent now done r :
  completed (set_completed now done r) = false →
  completed_at (set_completed now done r) = None.
Proof. simpl. by intros ->. Qed.

Ltac todo_owned_absurd Hsel :=
  intros ? [= <-] _ Hno _; exfalso;
  match type of Hsel with
  | select_owned _ _ ?w1 = _ =>
      match type of Hno with
      | not_owned _ _ _ ?w0 =>
          rewrite (todo_not_owned_select _ _ w0 w1 eq_refl Hno) in Hsel; discriminate
      end
  end.

(** Leaves where the table is as it was. *)
Ltac todo_quiet := split; [quiet_leaf|by apply consistent_same].
Ltac todo_not_found := split; [not_found_leaf|by apply consistent_same].

Lemma get_todo_scoped now uid tid w :
  wp (get_todo now uid tid) w (scoped_todo uid w (Some tid) True).
Proof.
  unfold get_todo. repeat (wp_step; simpl); [todo_quiet..|].
  destruct (select_owned tid uid _) as [|t rest] eqn:Hsel; wp_step.
  - todo_not_found.
  - apply todo_select_owned_cons in Hsel as Hn. destruct Hn as (_ & _ & Hu).
    split; [|by apply consistent_same].
    split_and!; [by apply others_same_refl| |todo_owned_absurd Hsel].
    apply shows_only_one. simpl. rewrite !owners_opt_json by done. simpl. by rewrite Hu.
Qed.

Lemma elem_of_wanted_todo uid q kv : wanted uid q kv = true → user_id kv.2 = uid.
Proof.
  unfold wanted. rewrite !andb_true_iff. intros [[[Hu _] _] _]. by apply N.eqb_eq.
Qed.

Lemma list_todos_scoped now uid q w :
  wp (list_todos now uid q) w (scoped_todo uid w None True).
Proof.
  unfold list_todos. repeat (wp_step; simpl); [todo_quiet..|].
  destruct (limit_offset _ _ _) as [todos|e] eqn:Htodos; simpl.
  - repeat (wp_step; simpl); [todo_quiet..|].
    split; [|by apply consistent_same].
    split_and!; [by apply others_same_refl| |done].
    apply (shows_only_rows user_id uid _ todos).
    + simpl. rewrite owners_pages, !owners_sum_json, !app_nil_r.
      apply (owners_rows todo_json (λ kv, Z.of_N (user_id kv.2)) todos owners_todo_json).
    + intros kv Hkv. apply limit_offset_subset in Htodos. apply Htodos in Hkv.
      apply elem_of_select in Hkv as [_ Hw]. by apply elem_of_wanted_todo in Hw.
  - wp_step. todo_quiet.
Qed.

Lemma stats_summary_scoped now uid w :
  wp (stats_summary now uid) w (scoped_todo uid w None True).
Proof.
  unfold stats_summary. repeat (wp_step; simpl); [todo_quiet..|].
  split; [|by apply consistent_same].
  split_and!; [by apply others_same_refl| |done].
  apply shows_only_plain.
  cbn [body res_json owners flat_map String.eqb Ascii.eqb Bool.eqb List.app].
  by rewrite owners_general_stats, !owners_group_stats.
Qed.

Lemma delete_todo_scoped now uid tid w :
  wp (delete_todo now uid tid) w (scoped_todo uid w (Some tid) True).
Proof.
  unfold delete_todo. repeat (wp_step; simpl); [todo_quiet..|].
  destruct (select_owned tid uid _) as [|t rest] eqn:Hsel; simpl; wp_step.
  - todo_not_found.
  - apply todo_select_owned_cons in Hsel as Hn. destruct Hn as (_ & Hrow & Hu). simpl in Hrow.
    split; [|by eapply consistent_delete].
    split_and!; [|by apply shows_only_plain|todo_owned_absurd Hsel].
    by eapply others_same_delete.
Qed.

Lemma todo_select_by_id_lookup tid w :
  select_by_id tid w = match table w !! tid with
                       | Some r => [(tid, r)]
                       | None => []
                       end.
Proof. done. Qed.

Lemma create_todo_scoped now uid b w :
  wp (create_todo now uid b) w (scoped_todo uid w None True).
Proof.
  unfold create_todo. wp_step. wp_step; simpl; [todo_quiet|]. wp_step.
  destruct (validate_create b); [|wp_step; simpl; todo_quiet].
  wp_step. wp_step; simpl; [wp_step; todo_quiet|].
  unfold insert. simpl.
  destruct (table w !! next_id w) as [taken|] eqn:Hfree; simpl; [wp_step; todo_quiet|].
  wp_step. wp_step; simpl; [wp_step|].
  - split; [|by eapply (consistent_insert (next_id w)); [|reflexivity]].
    split_and!; [|by apply shows_only_plain|done].
    by eapply (others_same_insert user_id uid (next_id w)); [exact Hfree| |reflexivity].
  - rewrite todo_select_by_id_lookup. simpl. rewrite lookup_insert_eq.
    repeat (wp_step; simpl).
    split; [|by eapply (consistent_insert (next_id w)); [|reflexivity]].
    split_and!; [| |done].
    2:{ apply shows_only_one. simpl. by rewrite !owners_opt_json by done. }
    by eapply (others_same_insert user_id uid (next_id w)); [exact Hfree| |reflexivity].
Qed.

Lemma guarded_assign_todo_owner now uid b r :
  user_id r = uid →
  user_id (if (user_id r =? uid)%N then assign now b r else r) = uid.
Proof. intros Hu. by case_match. Qed.

Lemma guarded_assign_consistent now uid b r :
  (completed r = false → completed_at r = None) →
  completed (if (user_id r =? uid)%N then assign now b r else r) = false →
  completed_at (if (user_id r =? uid)%N then assign now b r else r) = None.
Proof. case_match; [apply assign_consistent|done]. Qed.

(** A leaf that does not answer 200. *)
Ltac not_200 := intros ? ?; intros [= <-]; simpl; intros [=].

Lemma update_todo_scoped now uid tid b w :
  wp (update_todo now uid tid b) w
     (λ r w', scoped_todo uid w (Some tid) (validate_update b = []) r w'
              ∧ update_sets_timestamp now tid b r w').
Proof.
  unfold update_todo. wp_step. wp_step; simpl; [split; [todo_quiet|by intros ?? [=]]|].
  wp_step.
  destruct (validate_update b) eqn:Hvalid.
  2:{ wp_step. simpl. split; [split; [|by apply consistent_same]|not_200].
      split_and!; [by apply others_same_refl| |by intros].
      apply shows_only_plain. simpl. by rewrite owners_strings. }
  wp_step. wp_step; simpl; [wp_step; split; [todo_quiet|not_200]|].
  destruct (select_owned tid uid _) as [|t rest] eqn:Hsel; simpl.
  { wp_step. simpl. split; [todo_not_found|not_200]. }
  apply todo_select_owned_cons in Hsel as Hn. destruct Hn as (_ & Hrow & Hu). simpl in Hrow.
  wp_step. wp_step; simpl; [wp_step|].
  { split; [split; [|by apply consistent_same]|not_200].
    split_and!; [by apply others_same_refl|by apply shows_only_plain|todo_owned_absurd Hsel]. }
  wp_step. wp_step; simpl; [wp_step|].
  { split; [split|not_200].
    - split_and!; [|by apply shows_only_plain|todo_owned_absurd Hsel].
      eapply (others_same_alter user_id uid tid); [exact Hrow|exact Hu| |reflexivity].
      by apply guarded_assign_todo_owner.
    - eapply (consistent_alter tid); [|reflexivity]. intros r. apply guarded_assign_consistent. }
  rewrite todo_select_by_id_lookup. simpl. rewrite lookup_alter_eq, Hrow. simpl.
  repeat (wp_step; simpl).
  split; [split|].
  - split_and!; [| |todo_owned_absurd Hsel].
    + eapply (others_same_alter user_id uid tid); [exact Hrow|exact Hu| |reflexivity].
      by apply guarded_assign_todo_owner.
    + apply shows_only_one. simpl. rewrite !owners_opt_json by done. simpl.
      by rewrite (guarded_assign_todo_owner now uid b t.2 Hu).
  - eapply (consistent_alter tid); [|reflexivity]. intros r. apply guarded_assign_consistent.
  - intros resp v _ _ Hv. eexists. split; [simpl; by rewrite lookup_alter_eq, Hrow|].
    rewrite Hu, N.eqb_refl. unfold assign. simpl. rewrite Hv. simpl. done.
Qed.

Lemma toggle_todo_scoped now uid tid w :
  wp (toggle_todo now uid tid) w
     (λ r w', scoped_todo uid w (Some tid) True r w'
              ∧ toggle_sets_timestamp now tid w r w').
Proof.
  unfold toggle_todo. wp_step. wp_step; simpl; [split; [todo_quiet|by intros ? [=]]|].
  wp_step. wp_step. wp_step; simpl; [wp_step; split; [todo_quiet|intros ? [= <-] [=]]|].
  destruct (select_owned tid uid _) as [|t rest] eqn:Hsel; simpl.
  { wp_step. simpl. split; [todo_not_found|intros ? [= <-] [=]]. }
  apply todo_select_owned_cons in Hsel as Hn. destruct Hn as (Hid & Hrow & Hu).
  simpl in Hrow.
  wp_step. wp_step; simpl; [wp_step|].
  { split; [split; [|by apply consistent_same]|intros ? [= <-] [=]].
    split_and!; [by apply others_same_refl|by apply shows_only_plain|todo_owned_absurd Hsel]. }
  wp_step. wp_step; simpl; [wp_step|].
  { split; [split|intros ? [= <-] [=]].
    - split_and!; [|by apply shows_only_plain|todo_owned_absurd Hsel].
      by eapply (others_same_alter user_id uid tid); [exact Hrow|exact Hu| |reflexivity].
    - eapply (consistent_alter tid); [|reflexivity].
      intros r _. apply set_completed_consistent. }
  rewrite todo_select_by_id_lookup. simpl. rewrite lookup_alter_eq, Hrow. simpl.
  repeat (wp_step; simpl).
  split; [split|].
  - split_and!; [| |todo_owned_absurd Hsel].
    + by eapply (others_same_alter user_id uid tid); [exact Hrow|exact Hu| |reflexivity].
    + apply shows_only_one. simpl. rewrite !owners_opt_json by done. simpl. by rewrite Hu.
  - eapply (consistent_alter tid); [|reflexivity].
    intros r _. apply set_completed_consistent.
  - intros resp _ _. exists t.2. eexists.
    split; [done|]. split; [simpl; by rewrite lookup_alter_eq, Hrow|]. done.
Qed.

(** Every request of the router is scoped to its caller and keeps the
    timestamps consistent. *)
Lemma todos_handle_scoped now uid req w :
  wp (handle now uid req) w
     (scoped_todo uid w (todo_target req) (todo_valid req)).
Proof.
  destruct req; simpl.
  - apply list_todos_scoped.
  - apply get_todo_scoped.
  - apply create_todo_scoped.
  - eapply wp_mono; [|apply update_todo_scoped]. by intros r w' [? _].
  - eapply wp_mono; [|apply toggle_todo_scoped]. by intros r w' [? _].
  - apply delete_todo_scoped.
  - apply stats_summary_scoped.
Qed.


Lemma beforeSave_unchanged now t :
  changed_completed t = false → beforeSave now t = t.
Proof. unfold beforeSave. by intros ->. Qed.

End BackendTodosFacts.

(** ** models/User.js and routes/auth.js *)

Section BackendAuthFacts.
Import Backend BackendAuth.
Context `{JwtLib} `{BcryptLib} `{ValidatorLib}.
Implicit Types (w : World) (now : Z).

Lemma wp_sequelize {A : Type} (run : World → Res A * World) w
    (Q : Res A → World → Prop) :
  (faulty w = true → Q (Throw "SequelizeConnectionError") (ticked w)) →
  (faulty w = false → wp run (ticked w) Q) →
  wp (sequelize run) w Q.
Proof. unfold wp, sequelize. destruct (faulty w); auto. Qed.























End BackendAuthFacts.

(** ** The monolith on a database that answers *)

Section HealthyRuns.
Import Backend.
Context {Row : Type}.
Implicit Types (w : Db Row).

Lemma ticked_healthy w : dfaults w = [] → ticked w = w.
Proof. destruct w as [t n fs d c]. simpl. by intros ->. Qed.

Lemma execute_healthy {A : Type} (run : Db Row → Res A * Db Row) w :
  dfaults w = [] → execute run w = run w.
Proof.
  intros Hw. unfold execute. by rewrite (faulty_no_faults w Hw), (ticked_healthy w Hw).
Qed.

Lemma createConnection_healthy w : dfaults w = [] → createConnection w = (Ok tt, w).
Proof. intros Hw. unfold createConnection. by rewrite execute_healthy. Qed.

End HealthyRuns.

(** Run a route of the monolith on a database that answers. *)
Ltac healthy_run :=
  repeat first
    [ rewrite createConnection_healthy by (simpl; assumption)
    | rewrite execute_healthy by (simpl; assumption)
    | progress (unfold bind at 1)
    | progress (unfold try_catch at 1)
    | progress simpl ].

(** An UPDATE of one row that is there. *)
Lemma alter_as_insert {A : Type} (f : A → A) (m : gmap N A) (i : N) (x : A) :
  m !! i = Some x → alter f i m = <[i := f x]> m.
Proof.
  intros Hi. apply map_eq. intros j. destruct (decide (i = j)) as [<-|Hne].
  - by rewrite lookup_alter_eq, lookup_insert_eq, Hi.
  - by rewrite lookup_alter_ne, lookup_insert_ne.
Qed.

(** What is left of a sorted list is sorted. *)
Lemma StronglySorted_sublist {A : Type} (R : relation A) (l k : list A) :
  l `sublist_of` k → StronglySorted R k → StronglySorted R l.
Proof.
  induction 1 as [|x l k Hsub IH|x l k Hsub IH]; intros Hk; [done|..].
  - apply StronglySorted_inv in Hk as [Hk Hx]. constructor; [by apply IH|].
    apply Forall_forall. intros y Hy. rewrite Forall_forall in Hx. apply Hx.
    by apply (sublist_subseteq _ _ Hsub).
  - apply StronglySorted_inv in Hk as [Hk _]. by apply IH.
Qed.

Lemma limit_offset_sublist {A : Type} (limit offset : Z) (rows kept : list A) :
  Backend.limit_offset limit offset rows = Ok kept →
  kept `sublist_of` rows ∧ (List.length kept ≤ Z.to_nat limit)%nat.
Proof.
  unfold Backend.limit_offset. case_match; [done|]. intros [= <-]. split.
  - etrans; [apply sublist_take|apply sublist_drop].
  - rewrite length_take. lia.
Qed.

Section BackendNotesRuns.
Import Backend BackendNotes.
Implicit Types (w : World) (uid nid : N) (now : Z).
#[local] Existing Instance note_before_dec.

Lemma select_owned_hit nid uid w row :
  table w !! nid = Some row → user_id row = uid → select_owned nid uid w = [(nid, row)].
Proof. intros Hr Hu. unfold select_owned. by rewrite Hr, Hu, N.eqb_refl. Qed.

Lemma select_owned_miss nid uid w :
  (∀ row, table w !! nid = Some row → user_id row ≠ uid) → select_owned nid uid w = [].
Proof.
  intros Hno. unfold select_owned. destruct (table w !! nid) as [r|]; [|done].
  destruct (N.eqb_spec (user_id r) uid) as [Hu|Hu]; [|done]. by destruct (Hno r).
Qed.

Lemma get_note_healthy now uid nid w :
  dfaults w = [] →
  get_note now uid nid w
  = (Ok (match select_owned nid uid w with
         | [] => not_found "Note"
         | n :: _ => res_json (JObj [("success", JBool true);
                                     ("data", JObj [("note", note_json n)])])
         end), w).
Proof.
  intros Hw. unfold get_note. healthy_run. by destruct (select_owned nid uid w).
Qed.

(** [ORDER BY is_pinned DESC, created_at DESC] is a total preorder. *)
Lemma note_before_total : Total note_before.
Proof.
  intros a b. unfold note_before, note_beforeb.
  destruct (is_pinned a.2), (is_pinned b.2); simpl; rewrite ?Is_true_true; try tauto;
    rewrite !Z.leb_le; lia.
Qed.

Lemma note_before_trans : Transitive note_before.
Proof.
  intros a b c. unfold note_before, note_beforeb.
  destruct (is_pinned a.2), (is_pinned b.2), (is_pinned c.2); simpl;
    rewrite ?Is_true_true, ?Is_true_false; try tauto; try done;
    rewrite !Z.leb_le; lia.
Qed.

Lemma select_sorted (p : N * NoteRow → bool) w :
  StronglySorted note_before (select p note_before w).
Proof.
  unfold select.
  pose proof note_before_trans. pose proof note_before_total.
  by apply StronglySorted_merge_sort.
Qed.

Lemma select_NoDup (p : N * NoteRow → bool) w : NoDup (select p note_before w).
Proof.
  unfold select. rewrite merge_sort_Permutation.
  apply NoDup_filter, NoDup_map_to_list.
Qed.

End BackendNotesRuns.

(** ** Trimming a word *)

Lemma string_app_empty (s : string) : s ++ "" = s.
Proof. induction s as [|c s IH]; [done|]. by rewrite string_app_cons, IH. Qed.

Lemma rev_app_rev_app (s1 s2 s3 : string) :
  String.rev_app (String.rev_app s1 s2) s3 = String.rev_app s2 (s1 ++ s3).
Proof.
  revert s2 s3. induction s1 as [|c s1 IH]; intros s2 s3; simpl; [done|].
  by rewrite IH.
Qed.

Lemma rev_rev (s : string) : String.rev (String.rev s) = s.
Proof. unfold String.rev. rewrite rev_app_rev_app. simpl. apply string_app_empty. Qed.

Lemma all_chars_rev_app P (s1 s2 : string) :
  all_chars P (String.rev_app s1 s2) = all_chars P s1 && all_chars P s2.
Proof.
  revert s2. induction s1 as [|c s1 IH]; intros s2; simpl; [done|].
  rewrite IH. simpl. by destruct (P c), (all_chars P s1), (all_chars P s2).
Qed.

Lemma trim_left_no_space (s : string) :
  all_chars (λ c, negb (is_space c)) s = true → trim_left s = s.
Proof. destruct s as [|c s]; simpl; [done|]. by destruct (is_space c). Qed.

Lemma trim_no_space (s : string) :
  all_chars (λ c, negb (is_space c)) s = true → trim s = s.
Proof.
  intros Hs. unfold trim. rewrite (trim_left_no_space s Hs).
  rewrite trim_left_no_space; [apply rev_rev|].
  unfold String.rev. rewrite all_chars_rev_app, Hs. done.
Qed.

Lemma word_char_no_space (c : ascii) : is_word_char c = true → negb (is_space c) = true.
Proof. destruct c as [[] [] [] [] [] [] [] []]; vm_compute; congruence. Qed.

Lemma trim_word (s : string) : all_chars is_word_char s = true → trim s = s.
Proof.
  intros Hs. apply trim_no_space.
  by apply (all_chars_impl is_word_char); [apply word_char_no_space|].
Qed.

(** ** routes/auth.js: the table of users *)

Section BackendAuthTable.
Import Backend BackendAuth.
Context `{JwtLib} `{BcryptLib} `{ValidatorLib}.
Implicit Types (w : World) (now : Z).

Ltac auth_run :=
  lazymatch goal with
  | |- wp (bind _ _) _ _ => apply wp_bind
  | |- wp (try_catch _ _) _ _ => apply wp_try_catch
  | |- wp (sequelize _) _ _ => apply wp_sequelize; intros ?; [|apply wp_pure]
  | |- wp (ret _) _ _ => apply wp_ret
  | |- wp (throw _) _ _ => apply wp_throw
  | |- wp (console_error _) _ _ => apply wp_pure
  | |- wp (gets _) _ _ => apply wp_pure
  | |- wp (server_error_dev _ _ _) _ _ => unfold server_error_dev
  end.

Lemma sequelize_healthy {A : Type} (run : World → Res A * World) w :
  dfaults w = [] → sequelize run w = run w.
Proof.
  intros Hw. unfold sequelize. by rewrite (faulty_no_faults w Hw), (ticked_healthy w Hw).
Qed.

Lemma truthy_long (n : nat) (s : string) :
  (0 < n)%nat → isLength_min n s = true → truthy_string s = true.
Proof.
  unfold isLength_min, truthy_string. intros Hn Hlen%Nat.leb_le.
  destruct s; simpl in *; [lia|done].
Qed.

(** What the chain of POST /register has checked. *)
Lemma validate_register_ok (b : RegisterBody) :
  validate_register b = [] →
  isLength 3 20 (trim (default "" (r_username b))) = true
  ∧ all_chars is_word_char (trim (default "" (r_username b))) = true
  ∧ isLength_min 6 (default "" (r_password b)) = true.
Proof.
  unfold validate_register. intros Hv.
  apply app_eq_nil in Hv as [_ Hv]. apply app_eq_nil in Hv as [_ Hv].
  apply app_eq_nil in Hv as [Hname Hpass].
  destruct (isLength 3 20 _) eqn:Hlen; [|done].
  destruct (all_chars is_word_char _) eqn:Hword; [|done].
  by destruct (isLength_min 6 _).
Qed.

Lemma existsb_false_elem {A : Type} (f : A → bool) (l : list A) (x : A) :
  existsb f l = false → x ∈ l → f x = false.
Proof.
  intros Hnone Hx. apply not_true_is_false. intros Hf.
  assert (existsb f l = true) as Hex; [|congruence].
  apply existsb_exists. exists x. split; [|done]. by apply list_elem_of_In.
Qed.

Lemma User_create_fresh now nm mail uname pass w :
  wp (User_create now nm mail uname pass) w
     (λ r w', match r with
              | Ok user =>
                  table w !! inst_id user = None
                  ∧ table w' = <[inst_id user := inst_row user]> (table w)
                  ∧ (∀ j rj, table w !! j = Some rj →
                             email rj ≠ email (inst_row user)
                             ∧ username rj ≠ username (inst_row user))
                  ∧ inst_row user
                    = mkUserRow nm (trim (toLowerCase mail)) (trim uname)
                                (bcrypt_hash pass) now now
                  ∧ inst_attributes user = all_attributes
                  ∧ dfaults w' = tail (dfaults w)
              | Throw _ => table w' = table w
              end).
Proof.
  unfold User_create. destruct (model_errors _); [|by auth_run].
  auth_run; simpl; [done|].
  destruct (existsb (λ kv : N * UserRow, bool_decide (email kv.2 = _)) _) eqn:Hmail;
    simpl; [done|].
  destruct (existsb (λ kv : N * UserRow, bool_decide (username kv.2 = _)) _) eqn:Hname;
    simpl; [done|].
  unfold insert. simpl. destruct (table w !! next_id w) eqn:Hfree; simpl; [done|].
  split_and!; [done..| |done|done|done].
  intros j rj Hj. split.
  - apply (existsb_false_elem _ _ (j, rj)) in Hmail; [|by apply elem_of_map_to_list].
    by apply bool_decide_eq_false in Hmail.
  - apply (existsb_false_elem _ _ (j, rj)) in Hname; [|by apply elem_of_map_to_list].
    by apply bool_decide_eq_false in Hname.
Qed.

Lemma handle_adds_fresh_user now req w :
  wp (handle now req) w (λ _ w', adds_fresh_user w w').
Proof.
  destruct req as [b|b| |authorization]; simpl.
  - unfold register. auth_run.
    destruct (validate_register b); [|auth_run; by left].
    unfold User_findOne. auth_run. auth_run; simpl.
    { repeat (auth_run; simpl).
      repeat (case_match; repeat (auth_run; simpl)); by left. }
    destruct (list_find _ _) as [found|]; simpl; [auth_run; by left|].
    auth_run.
    eapply wp_mono; [|apply User_create_fresh]. intros [user|e] w1 Hc; simpl in *.
    + destruct Hc as (Hfree & Ht & Hfresh & _). auth_run. right.
      exists (inst_id user), (inst_row user). by split_and!.
    + repeat (auth_run; simpl).
      repeat (case_match; repeat (auth_run; simpl)); left; by rewrite Hc.
  - unfold login. auth_run.
    destruct (validate_login b); [|auth_run; by left].
    unfold User_findOne. auth_run. auth_run; simpl.
    { repeat (auth_run; simpl).
      repeat (case_match; repeat (auth_run; simpl)); by left. }
    destruct (list_find _ _) as [found|]; simpl.
    + destruct (comparePassword _ _); simpl; auth_run; by left.
    + auth_run. by left.
  - unfold demo. auth_run. unfold User_findOne. auth_run. auth_run; simpl.
    { repeat (auth_run; simpl). by left. }
    destruct (list_find _ _) as [found|]; simpl.
    + repeat (auth_run; simpl). by left.
    + auth_run.
      eapply wp_mono; [|apply User_create_fresh]. intros [user|e] w1 Hc; simpl in *.
      * destruct Hc as (Hfree & Ht & Hfresh & _). auth_run. right.
        exists (inst_id user), (inst_row user). by split_and!.
      * repeat (auth_run; simpl). left. by rewrite Hc.
  - unfold me, auth. auth_run.
    destruct (authorization ≫= bearer) as [token|]; [|auth_run; by left].
    destruct (jwt_verify now token) as [decoded|e]; [|auth_run; by left].
    unfold User_findByPk. auth_run. auth_run; simpl.
    { repeat (auth_run; simpl).
      repeat (case_match; repeat (auth_run; simpl)); by left. }
    destruct (table w !! claim_id decoded) as [r|]; simpl.
    + unfold me_handler. repeat auth_run. by left.
    + auth_run. by left.
Qed.

End BackendAuthTable.

(** ** Authorization headers *)

Lemma split_on_nonempty sep s : split_on sep s ≠ [].
Proof. destruct s as [|c s]; simpl; [done|]. by repeat case_match. Qed.

Lemma split_on_word (s : string) : space_free s = true → split_on " " s = [s].
Proof.
  unfold space_free. induction s as [|c s IH]; simpl; [done|].
  intros [Hc Hs]%andb_true_iff. apply negb_true_iff in Hc. rewrite Hc.
  by rewrite (IH Hs).
Qed.

Lemma split_on_space (a b : string) :
  space_free a = true → split_on " " (a ++ String " " b) = a :: split_on " " b.
Proof.
  unfold space_free. induction a as [|c a IH].
  - done.
  - simpl. intros [Hc Ha]%andb_true_iff. apply negb_true_iff in Hc.
    rewrite Hc. by rewrite (IH Ha).
Qed.

Lemma header_token_scheme (scheme token : string) :
  space_free scheme = true → space_free token = true → truthy_string token = true →
  header_token (Some (scheme ++ " " ++ token)) = Some token.
Proof.
  intros Hs Ht Hne. unfold header_token.
  change (" " ++ token) with (String " " token).
  rewrite (split_on_space scheme token Hs), (split_on_word token Ht). simpl.
  by rewrite Hne.
Qed.



(** ** The gateway in front of the services *)

Section RestGatewayFacts.
Import RestGateway.
Context `{JwtLib}.
Implicit Types (r : Redis.t string) (now : Z) (token : string).

Lemma check_token_run now token r :
  check_token now token r =
  (Ok (if Redis.faulty r then inl (plain_error 403 "Invalid or expired token")
       else if truthy_opt (Redis.lookup now r (blacklist_key token))
            then inl (plain_error 401 "Token has been revoked")
            else match jwt_verify now token with
                 | Ok decoded => inr decoded
                 | Throw _ => inl (plain_error 403 "Invalid or expired token")
                 end),
   Redis.ticked r).
Proof.
  unfold check_token, try_catch. unfold bind at 1.
  unfold Redis.get. rewrite command_unfold.
  destruct (Redis.faulty r); [done|]. simpl.
  change (Redis.lookup now (Redis.ticked r) (blacklist_key token))
    with (Redis.lookup now r (blacklist_key token)).
  destruct (truthy_opt (Redis.lookup now r (blacklist_key token))); [done|].
  unfold bind. by destruct (jwt_verify now token).
Qed.

Lemma blacklist_key_shared token :
  blacklist_key token = AuthService.blacklist_key token.
Proof. done. Qed.

End RestGatewayFacts.

(** ** The auth service behind gRPC *)

Section GrpcAuthFacts.
Import GrpcAuth.
Context `{JwtLib}.
Implicit Types (w : World) (now : Z) (token : string).

Lemma grpc_redisClient_run {A : Type} (m : M (Redis.t string) A) w :
  redisClient m w =
  ((m (Service.redis (service w))).1,
   mkWorld (Service.set_redis (m (Service.redis (service w))).2 (service w)) (logged w)).
Proof.
  unfold redisClient, lift. rewrite redisClient_run.
  by destruct (m (Service.redis (service w))).
Qed.

(** The refresh step of logout always returns, touches nothing but Redis
    and removes at most the entry of a refresh token. *)
Lemma grpc_drop_refresh_token_run now refresh_token w :
  ∃ w1, drop_refresh_token now refresh_token w = (Ok tt, w1)
    ∧ Service.table (service w1) = Service.table (service w)
    ∧ logged w1 = logged w
    ∧ (∀ k e, Redis.store (Service.redis (service w1)) !! k = Some e →
              Redis.store (Service.redis (service w)) !! k = Some e)
    ∧ (Redis.rfaults (Service.redis (service w)) = [] →
       Redis.rfaults (Service.redis (service w1)) = [])
    ∧ (∀ token c,
         refresh_token = Some token → truthy_string token = true →
         jwt_verify now token = Ok c →
         Redis.faulty (Service.redis (service w)) = false →
         Redis.store (Service.redis (service w1)) !! refresh_key (claim_id c) = None).
Proof.
  unfold drop_refresh_token.
  destruct refresh_token as [token|]; [|by exists w].
  destruct (truthy_string token) eqn:Htruthy;
    [|by exists w; split_and!; [..|intros ?? [= ->]; congruence]].
  unfold try_catch, bind, verify_token.
  destruct (jwt_verify now token) as [c|e] eqn:Hverify;
    [|by exists w; split_and!; [..|intros ?? [= ->]; congruence]].
  rewrite grpc_redisClient_run. unfold Redis.del1, Redis.del. rewrite command_unfold.
  destruct (Redis.faulty _) eqn:Hf; simpl.
  - eexists. split_and!; [done..| | |]; simpl; [done| |].
    + intros Hnf. by rewrite Hnf.
    + by intros ?? _ _ _ ?.
  - eexists. split_and!; [done..| | |]; simpl.
    + intros k e. rewrite lookup_delete_Some. by intros [_ ?].
    + intros Hnf. by rewrite Hnf.
    + intros token' c' [= <-] _ Hverify' _. rewrite Hverify in Hverify'.
      injection Hverify' as <-. apply lookup_delete_eq.
Qed.

(** The blacklist step always returns; with a token that verifies, on a
    Redis that answers, it stores the entry. *)
Lemma grpc_blacklist_access_token_run now access_token w :
  ∃ w2, blacklist_access_token now access_token w = (Ok tt, w2)
    ∧ Service.table (service w2) = Service.table (service w)
    ∧ logged w2 = logged w
    ∧ (∀ token c,
         access_token = Some token → truthy_string token = true →
         jwt_verify now token = Ok c →
         Redis.rfaults (Service.redis (service w)) = [] →
         Redis.rfaults (Service.redis (service w2)) = []
         ∧ Redis.store (Service.redis (service w2)) !! blacklist_key token
           = Some (Redis.mkEntry "revoked" (claim_exp c - now) (claim_exp c)))
    ∧ (∀ k, (∀ token, k ≠ blacklist_key token) →
            Redis.store (Service.redis (service w2)) !! k
            = Redis.store (Service.redis (service w)) !! k).
Proof.
  unfold blacklist_access_token.
  destruct access_token as [token|]; [|by exists w].
  destruct (truthy_string token) eqn:Htruthy; [|exists w; split_and!; try done; intros ?? [= ->]; congruence].
  unfold try_catch, bind, verify_token.
  destruct (jwt_verify now token) as [c|e] eqn:Hverify;
    [|exists w; split_and!; try done; intros ?? [= ->]; congruence].
  apply jwt_verify_ok in Hverify as [Hdecode Hexp].
  destruct (Z.ltb_spec 0 (claim_exp c - now)) as [Hpos|Hneg]; [|lia].
  rewrite grpc_redisClient_run. unfold Redis.setEx. rewrite command_unfold.
  destruct (Redis.faulty _) eqn:Hf; simpl.
  - eexists. split_and!; [done..| |done]. intros token' c' [= <-] _ _ Hnf.
    unfold Redis.faulty in Hf. by rewrite Hnf in Hf.
  - destruct (Z.leb_spec (claim_exp c - now) 0); [lia|]. simpl.
    eexists. split_and!; [done..| |].
    + intros token' c' [= <-] _ Hverify' Hnf. simpl.
      apply jwt_verify_ok in Hverify' as [Hdecode' _].
      rewrite Hdecode in Hdecode'. injection Hdecode' as <-.
      rewrite Hnf. split; [done|]. rewrite lookup_insert_eq. do 2 f_equal. lia.
    + intros k Hk. simpl. by rewrite lookup_insert_ne.
Qed.

Lemma grpc_blacklist_key_not_refresh_key token uid : refresh_key uid ≠ blacklist_key token.
Proof. unfold blacklist_key, refresh_key. cbn. by intros [=]. Qed.

(** Without an entry under the key of its identity, a refresh token is
    answered as invalid. *)
Lemma refreshToken_absent now token w :
  (∀ c, jwt_decode token = Some c →
        Redis.store (Service.redis (service w)) !! refresh_key (claim_id c) = None) →
  ∃ w', refreshToken now token w = (Ok invalid_refresh, w').
Proof.
  intros Habsent. unfold refreshToken, try_catch. unfold bind at 1, verify_token.
  destruct (jwt_verify now token) as [c|e] eqn:Hverify; [|by eexists].
  apply jwt_verify_ok in Hverify as [Hdecode _].
  unfold bind at 1. rewrite grpc_redisClient_run. unfold Redis.get.
  rewrite command_unfold. destruct (Redis.faulty _); simpl; [by eexists|].
  unfold Redis.lookup. simpl. rewrite (Habsent c Hdecode). simpl. by eexists.
Qed.

(** A live blacklist entry makes [validateToken] answer that the token is
    revoked. *)
Lemma validateToken_blacklisted now token w e :
  Redis.faulty (Service.redis (service w)) = false →
  Redis.store (Service.redis (service w)) !! blacklist_key token = Some e →
  Redis.value e = "revoked" → (now < Redis.expires_at e)%Z →
  ∃ w', validateToken now token w = (Ok (not_valid "Token has been revoked"), w').
Proof.
  intros Hf He Hv Hlive. unfold validateToken, try_catch. unfold bind at 1.
  rewrite grpc_redisClient_run, get_no_fault by done. simpl.
  unfold Redis.lookup. rewrite He. unfold Redis.live.
  destruct (Z.ltb_spec now (Redis.expires_at e)); [|lia].
  rewrite Hv. simpl. by eexists.
Qed.

End GrpcAuthFacts.

(** ** The gateway: creating a note *)

Section GatewayWritesFacts.
Import GatewayWrites.
Implicit Types (w : World) (now : Z) (uid : N).

Lemma gateway_prefix_plain uid : plain (gateway_prefix uid) = true.
Proof.
  unfold gateway_prefix, plain. rewrite !all_chars_app.
  fold (plain (pretty uid)). by rewrite plain_pretty.
Qed.

Lemma gateway_pattern uid : cachePattern uid = gateway_prefix uid ++ "*".
Proof. unfold cachePattern, gateway_prefix. by rewrite !string_app_assoc. Qed.

Lemma gateway_cacheKey_prefix uid q :
  ∃ rest, Gateway.cacheKey uid q = gateway_prefix uid ++ rest.
Proof.
  unfold Gateway.cacheKey, gateway_prefix. eexists.
  rewrite !string_app_assoc. reflexivity.
Qed.

Lemma gateway_writes_redisClient_run {A : Type} (m : M (Redis.t Json) A) w :
  redisClient m w =
  ((m (Gateway.redis (gateway w))).1,
   mkWorld (Gateway.set_redis (m (Gateway.redis (gateway w))).2 (gateway w)) (emitted w)).
Proof.
  unfold redisClient, lift, Gateway.redisClient.
  by destruct (m (Gateway.redis (gateway w))).
Qed.

(** KEYS then DEL of the route, when both return: the prefix of the user is
    cleared, and nothing but those keys was touched. *)
Lemma gateway_clear_ok now uid w :
  let clear :=
    (let! keys := redisClient (Redis.keys now (cachePattern uid)) in
     if (0 <? List.length keys)%nat then redisClient (Redis.del keys) else ret tt) in
  ∀ w1,
    clear w = (Ok tt, w1) →
    prefix_cleared now (gateway_prefix uid) (Gateway.redis (gateway w1))
    ∧ (∀ k, (∀ rest, k ≠ gateway_prefix uid ++ rest) →
            Redis.store (Gateway.redis (gateway w1)) !! k
            = Redis.store (Gateway.redis (gateway w)) !! k)
    ∧ emitted w1 = emitted w
    ∧ Gateway.logged (gateway w1) = Gateway.logged (gateway w).
Proof.
  intros clear w1. unfold clear, bind. rewrite gateway_writes_redisClient_run.
  rewrite gateway_pattern.
  destruct (Redis.keys now _ (Gateway.redis (gateway w))) as [[ks|e] r1] eqn:Hkeys;
    simpl; [|done].
  apply keys_ok in Hkeys as [Hst Hks].
  pose proof (gateway_prefix_plain uid) as Hp.
  destruct (Nat.ltb_spec 0 (List.length ks)) as [Hlen|Hlen].
  - rewrite gateway_writes_redisClient_run. simpl.
    destruct (Redis.del ks r1) as [[[]|e] r2] eqn:Hdel; simpl; [|done].
    intros [= <-]. simpl.
    apply del_ok in Hdel. rewrite Hst in Hdel.
    destruct (keys_del_prefix now _ _ _ ks Hp Hks Hdel) as [Hgone Hkeep].
    split_and!; [|done..].
    intros rest now' Hle. destruct r2 as [st2 rf2]. simpl in *. by eapply Hgone.
  - intros [= <-]. simpl.
    assert (ks = []) as -> by (destruct ks; [done|simpl in Hlen; lia]).
    destruct (keys_del_prefix now _ (Redis.store (Gateway.redis (gateway w))) _ []
                Hp Hks eq_refl) as [Hgone Hkeep].
    split_and!; [|by rewrite Hst|done..].
    intros rest now' Hle. destruct r1 as [st1 rf1]. simpl in *. subst st1.
    by eapply Hgone.
Qed.

(** KEYS or DEL that rejects leaves the store as it was. *)
Lemma gateway_clear_throw now uid w e w1 :
  (let! keys := redisClient (Redis.keys now (cachePattern uid)) in
   if (0 <? List.length keys)%nat then redisClient (Redis.del keys) else ret tt) w
  = (Throw e, w1) →
  Redis.store (Gateway.redis (gateway w1)) = Redis.store (Gateway.redis (gateway w))
  ∧ emitted w1 = emitted w.
Proof.
  unfold bind. rewrite gateway_writes_redisClient_run.
  destruct (Redis.keys now _ (Gateway.redis (gateway w))) as [[ks|e0] r1] eqn:Hkeys; simpl.
  - apply keys_ok in Hkeys as [Hst _].
    destruct (0 <? List.length ks)%nat; [|done].
    rewrite gateway_writes_redisClient_run. simpl.
    destruct (Redis.del ks r1) as [[[]|e1] r2] eqn:Hdel; simpl; [done|].
    intros [= _ <-]. simpl. apply del_throw in Hdel. by rewrite Hdel, Hst.
  - intros [= _ <-]. simpl. by apply keys_throw in Hkeys.
Qed.

End GatewayWritesFacts.

(** ** The users service *)

Section UsersFacts.
Import Service UsersService.
Context `{BcryptLib}.
Implicit Types (w : World) (now : Z) (uid : N).

Lemma set_dfaults_healthy w : dfaults w = [] → set_dfaults (tail (dfaults w)) w = w.
Proof. destruct w as [r t n d dev c]. simpl. by intros ->. Qed.

(** With names that are nobody else's, the lookup of login finds the
    user. *)
Lemma User_findOne_or_unique uname mail w user :
  dfaults w = [] →
  (∃ k, table w !! k = Some user) →
  AuthService.username user = uname ∨ AuthService.email user = mail →
  (∀ k r, table w !! k = Some r →
          AuthService.username r = uname ∨ AuthService.email r = mail → r = user) →
  AuthService.User_findOne_or uname mail w = (Ok (Some user), w).
Proof.
  intros Hd [k Hk] Hmatch Huniq. unfold AuthService.User_findOne_or.
  rewrite query_unfold, Hd. simpl.
  replace (set_dfaults [] w) with w
    by (destruct w as [r t n d dev c]; simpl in Hd; by subst d).
  destruct (list_find _ (map_to_list (table w))) as [[i [k' r]]|] eqn:Hfind; simpl.
  - apply list_find_Some in Hfind as (Hi & Hr & _). simpl in Hr.
    apply list_elem_of_lookup_2, elem_of_map_to_list in Hi.
    by rewrite (Huniq k' r Hi Hr).
  - apply list_find_None in Hfind. rewrite Forall_forall in Hfind.
    destruct (Hfind (k, user)); [by apply elem_of_map_to_list|done].
Qed.

(** A password change that answers 200 has rewritten the row of the
    caller. *)
Lemma change_password_ok now uid b w resp w' :
  change_password now uid b w = (Ok resp, w') →
  status resp = 200%nat →
  ∃ user,
    table w !! uid = Some user
    ∧ table w'
      = <[AuthService.user_id user :=
            set_password now (bcrypt_hash (default "" (newPassword b))) user]> (table w).
Proof.
  unfold change_password, try_catch.
  destruct (validate_password b); [|by intros [= <- <-]].
  unfold bind at 1.
  destruct (AuthService.User_findByPk uid w) as [[[user|]|e] w0] eqn:Hfind;
    [|by intros [= <- <-]|by intros ->%server_error_status].
  assert (table w !! uid = Some user ∧ table w0 = table w) as [Huser Ht0].
  { revert Hfind. unfold AuthService.User_findByPk. rewrite query_unfold.
    destruct (dfaults w) as [|[] fs]; simpl; [|done|]; by intros [= -> <-]. }
  destruct (bcrypt_compare _ _); cbn [negb]; [|by intros [= <- <-]].
  unfold bind at 1, User_update_password. rewrite query_unfold.
  destruct (dfaults w0) as [|[] fs]; simpl.
  2:{ by intros ->%server_error_status. }
  all: intros [= <- <-] _; exists user; split; [done|]; simpl; by rewrite Ht0.
Qed.

End UsersFacts.

(** ** Invalidation on write *)



(** ** Cache keys *)

Lemma digit_not_colon c : is_digit c = true → negb (Ascii.eqb c ":") = true.
Proof.
  unfold is_digit. intros H. by destruct (Ascii.eqb_spec c ":") as [->|_].
Qed.

Lemma colon_free_pretty (x : N) : colon_free (pretty x) = true.
Proof. eapply all_chars_impl; [apply digit_not_colon|apply pretty_N_digits]. Qed.

Lemma string_app_inj_l (s a b : string) : s ++ a = s ++ b → a = b.
Proof.
  induction s as [|c s IH]; [done|].
  rewrite !string_app_cons. intros [= ?]. auto.
Qed.

(** Two texts cut at their first colon agree on both sides of it. *)
Lemma split_at_colon (a1 a2 r1 r2 : string) :
  colon_free a1 = true → colon_free a2 = true →
  a1 ++ ":" ++ r1 = a2 ++ ":" ++ r2 → a1 = a2 ∧ r1 = r2.
Proof.
  change (":" ++ r1) with (String ":" r1). change (":" ++ r2) with (String ":" r2).
  revert a2. induction a1 as [|c a1 IH]; intros [|d a2] H1 H2.
  - change ("" ++ String ":" r1) with (String ":" r1).
    change ("" ++ String ":" r2) with (String ":" r2). by intros [= ->].
  - change ("" ++ String ":" r1) with (String ":" r1).
    rewrite string_app_cons. intros [= <- _].
    unfold colon_free in H2. by simpl in H2.
  - change ("" ++ String ":" r2) with (String ":" r2).
    rewrite string_app_cons. intros [= -> _].
    unfold colon_free in H1. by simpl in H1.
  - rewrite !string_app_cons. intros [= -> Heq].
    unfold colon_free in *. simpl in H1, H2.
    apply andb_true_iff in H1 as [_ H1], H2 as [_ H2].
    destruct (IH a2 H1 H2 Heq) as [-> ->]. done.
Qed.

Lemma notes_cacheKey_inj u1 u2 url1 url2 :
  NotesService.cacheKey u1 url1 = NotesService.cacheKey u2 url2 →
  u1 = u2 ∧ url1 = url2.
Proof.
  unfold NotesService.cacheKey. intros Heq%string_app_inj_l.
  apply split_at_colon in Heq as [Hu ->]; [|apply colon_free_pretty..].
  by apply (inj pretty) in Hu.
Qed.

Lemma gateway_cacheKey_identity u1 u2 q1 q2 :
  Gateway.cacheKey u1 q1 = Gateway.cacheKey u2 q2 → u1 = u2.
Proof.
  unfold Gateway.cacheKey. intros Heq%string_app_inj_l.
  apply split_at_colon in Heq as [Hu _]; [|apply colon_free_pretty..].
  by apply (inj pretty) in Hu.
Qed.

Lemma gateway_cacheKey_rendered u q1 q2 :
  Forall (λ s, colon_free s = true) (Gateway.rendered q1) →
  Forall (λ s, colon_free s = true) (Gateway.rendered q2) →
  Gateway.cacheKey u q1 = Gateway.cacheKey u q2 →
  Gateway.rendered q1 = Gateway.rendered q2.
Proof.
  unfold Gateway.rendered, Gateway.cacheKey.
  intros H1 H2 Heq%string_app_inj_l.
  repeat match goal with
         | H : Forall _ (_ :: _) |- _ => apply Forall_cons in H as [? H]
         end.
  apply split_at_colon in Heq as [_ Heq]; [|apply colon_free_pretty..].
  apply split_at_colon in Heq as [-> Heq]; [|done..].
  apply split_at_colon in Heq as [-> Heq]; [|done..].
  apply split_at_colon in Heq as [-> Heq]; [|done..].
  apply split_at_colon in Heq as [-> ->]; [|done..].
  done.
Qed.

(** C2 (as stated, on the gateway).  GET /api/notes and GET /api/notes?page=1
    of one user differ in a query parameter and share their key: the key
    renders the default of an absent parameter. *)
Lemma gateway_key_collision : ¬ gateway_keys_never_collide.
Proof.
  intros Hclaim.
  apply (Hclaim 7%N 7%N query_plain query_page_1); [by right|].
  vm_compute. reflexivity.
Qed.

(** C2 (amended).  Both keys are functions of their inputs.  The key of the
    notes service separates every two requests that differ in identity or
    in the original URL (path and query string).  The key of the gateway
    depends on the query only through the five values it renders (with the
    defaults of absent parameters), separates every two identities, and
    separates two queries of one identity whose rendered values differ when
    these values contain no colon. *)
Theorem cache_keys_separate :
  (∀ u1 u2 url1 url2,
     NotesService.cacheKey u1 url1 = NotesService.cacheKey u2 url2 ↔
     u1 = u2 ∧ url1 = url2)
  ∧ (∀ u q1 q2, Gateway.rendered q1 = Gateway.rendered q2 →
                Gateway.cacheKey u q1 = Gateway.cacheKey u q2)
  ∧ (∀ u1 u2 q1 q2, Gateway.cacheKey u1 q1 = Gateway.cacheKey u2 q2 → u1 = u2)
  ∧ (∀ u q1 q2,
       Forall (λ s, colon_free s = true) (Gateway.rendered q1) →
       Forall (λ s, colon_free s = true) (Gateway.rendered q2) →
       Gateway.rendered q1 ≠ Gateway.rendered q2 →
       Gateway.cacheKey u q1 ≠ Gateway.cacheKey u q2).
Proof.
  split_and!.
  - intros u1 u2 url1 url2. split; [apply notes_cacheKey_inj|by intros [-> ->]].
  - unfold Gateway.rendered, Gateway.cacheKey. by intros u q1 q2 [= -> -> -> -> ->].
  - apply gateway_cacheKey_identity.
  - intros u q1 q2 H1 H2 Hne Heq. by apply Hne, (gateway_cacheKey_rendered u).
Qed.

Lemma cache_keys_separate_witness :
  Gateway.cacheKey 7 query_page_1 ≠ Gateway.cacheKey 7 query_page_2.
Proof.
  destruct cache_keys_separate as (_ & _ & _ & Hsep).
  apply Hsep.
  - vm_compute. repeat constructor.
  - vm_compute. repeat constructor.
  - vm_compute. discriminate.
Defined.

(** ** The read-through middleware of the notes service *)

Section MiddlewareFacts.
Import Service NotesService.
Implicit Types (w : World) (uid : N) (now : Z) (next : M World Response).

(** A stored value is returned at once; [next] does not occur in the result. *)
Lemma cacheMiddleware_hit duration now uid url next w cached :
  Redis.faulty (redis w) = false →
  Redis.lookup now (redis w) (cacheKey uid url) = Some cached →
  cacheMiddleware duration now GET uid url next w = (Ok (res_json cached), after_get w).
Proof.
  intros Hf Hhit. unfold cacheMiddleware. cbn [is_GET negb].
  unfold bind at 1. unfold try_catch, bind at 1. rewrite redisClient_run.
  rewrite get_no_fault by done. simpl. by rewrite Hhit.
Qed.

(** On a miss the response of the handler is stored whatever its status. *)
Lemma on_miss_stores duration now key next w resp w1 :
  next w = (Ok resp, w1) →
  Redis.faulty (redis w1) = false → (0 < duration)%Z →
  ∃ w2, on_miss now duration key next w = (Ok resp, w2)
        ∧ Redis.store (redis w2) !! key
          = Some (Redis.mkEntry (body resp) duration (now + duration)%Z).
Proof.
  intros Hnext Hf Hd. unfold on_miss. rewrite (bind_ok _ _ _ _ _ Hnext).
  unfold catch_promise, try_catch, bind. rewrite redisClient_run.
  rewrite setEx_no_fault by done. simpl.
  eexists. split; [done|]. simpl. apply lookup_insert_eq.
Qed.

(** A SETEX that rejects does not change the response. *)
Lemma on_miss_response duration now key next w resp w1 :
  next w = (Ok resp, w1) →
  ∃ w2, on_miss now duration key next w = (Ok resp, w2) ∧ table w2 = table w1.
Proof.
  intros Hnext. unfold on_miss. rewrite (bind_ok _ _ _ _ _ Hnext).
  unfold catch_promise, try_catch, bind. rewrite redisClient_run.
  destruct (Redis.setEx now key duration (body resp) (redis w1)) as [[[]|e] r2];
    simpl; by eexists.
Qed.

End MiddlewareFacts.

(** C3 (the code at the failing input).  GET / of user 1 while the database
    is unreachable: the handler answers 500, the middleware stores that body
    for 300 seconds, and the next GET of the same URL, a second later, is
    answered 200 with the stored failure although the database is back. *)
Theorem cacheMiddleware_stores_error_response (sql_like : string → string → bool) :
  let route now :=
    NotesService.cacheMiddleware 300 now NotesService.GET 1 "/"
      (NotesService.get_notes sql_like now 1 no_query) in
  let first := route 1000%Z notes_world_db_down in
  let second := route 1001%Z first.2 in
  first.1 = Ok (mkResponse 500 retrieve_failed)
  ∧ Redis.store (Service.redis first.2) !! NotesService.cacheKey 1 "/"
    = Some (Redis.mkEntry retrieve_failed 300 1300)
  ∧ Service.dfaults first.2 = []
  ∧ second.1 = Ok (mkResponse 200 retrieve_failed).
Proof. vm_compute. done. Qed.

(** ** Cache failures on the read path *)

Section ReadPathFacts.
Import Service NotesService.
Implicit Types (w : World) (uid : N) (now : Z) (next : M World Response).

(** In the notes service a GET of the cache that rejects hands the request
    to the downstream handler. *)
Lemma cacheMiddleware_get_rejects duration now uid url next w :
  Redis.faulty (redis w) = true →
  cacheMiddleware duration now GET uid url next w = next (after_get w).
Proof.
  intros Hf. unfold cacheMiddleware. cbn [is_GET negb].
  unfold bind at 1. unfold try_catch, bind at 1. rewrite redisClient_run.
  by rewrite get_fault.
Qed.

(** Whatever the cache does, a request that does not hit completes with the
    response of its handler. *)
Lemma cacheMiddleware_best_effort duration now uid url next w resp w1 :
  Redis.lookup now (redis w) (cacheKey uid url) = None →
  next (after_get w) = (Ok resp, w1) →
  ∃ w2, cacheMiddleware duration now GET uid url next w = (Ok resp, w2).
Proof.
  intros Hmiss Hnext. rewrite cacheMiddleware_miss by done.
  destruct (Redis.faulty (redis w)); [by eexists|].
  destruct (on_miss_response duration now (cacheKey uid url) next _ _ _ Hnext)
    as (w2 & -> & _).
  by eexists.
Qed.

End ReadPathFacts.

(** C4 (the code at the failing input).  GET /api/notes of the gateway while
    Redis rejects the lookup: whatever the notes service would answer, the
    request is answered 500 and the notes service is not asked. *)
Theorem gateway_get_notes_fails_with_cache
    (notesClient_getNotes : N → Gateway.Query → Res Gateway.NotesReply) :
  (Gateway.get_notes notesClient_getNotes 1000 1 query_plain gateway_world_redis_down).1
  = Ok (mkResponse 500 retrieve_failed).
Proof. vm_compute. done. Qed.

(** ** Invalidation failures on the write path *)

(** C5 (the code at the failing input).  POST / of user 1 with a valid note
    while Redis rejects KEYS: the note is inserted, and the request is
    answered 500. *)
Theorem create_note_surfaces_cache_failure :
  let run := NotesService.create_note 1000 1 sample_note notes_world_redis_down in
  run.1 = Ok (mkResponse 500 create_failed)
  ∧ Service.table run.2 !! 1%N
    = Some (NotesService.mkNote 1 "A" "B" 1 [] false false 1000 1000).
Proof. vm_compute. done. Qed.

(** ** Refresh tokens *)

(** C6.  A login that answers 200 leaves, under the key of the user it
    answers with, the refresh token it has just issued and returned,
    whatever was stored there before.  POST /refresh with a token answers
    200 only when the token verifies and equals the token currently stored
    (and not expired) for the identity it carries; for every other token it
    answers 403, Invalid refresh token.  The stored token itself is
    accepted when Redis answers. *)
Theorem refresh_token_exact_match `{JwtLib} `{BcryptLib} :
  (∀ now b w resp w',
     AuthService.login now b w = (Ok resp, w') →
     status resp = 200%nat →
     ∃ user,
       Redis.store (Service.redis w') !! AuthService.refresh_key (AuthService.user_id user)
       = Some (Redis.mkEntry (generateRefreshToken now (AuthService.user_id user))
                             2592000 (now + 2592000)%Z)
       ∧ body resp
         = envelope_data true "Login successful"
             (JObj [("user", AuthService.userResponse user);
                    ("accessToken", JStr (generateToken now (AuthService.user_id user)));
                    ("refreshToken",
                     JStr (generateRefreshToken now (AuthService.user_id user)))]))
  ∧ (∀ now token w,
       truthy_string token = true →
       ∃ resp w',
         AuthService.refresh now (Some token) w = (Ok resp, w')
         ∧ ((status resp = 200%nat
             ∧ ∃ c, jwt_verify now token = Ok c
                    ∧ Redis.lookup now (Service.redis w)
                        (AuthService.refresh_key (claim_id c)) = Some token)
            ∨ resp = mkResponse 403 (envelope false "Invalid refresh token")))
  ∧ (∀ now token c w,
       truthy_string token = true →
       jwt_verify now token = Ok c →
       Redis.faulty (Service.redis w) = false →
       Redis.lookup now (Service.redis w) (AuthService.refresh_key (claim_id c)) = Some token →
       ∃ resp w', AuthService.refresh now (Some token) w = (Ok resp, w')
                  ∧ status resp = 200%nat).
Proof.
  split_and!.
  - intros now b w resp w' Hrun H200. by apply (login_stores now b w resp w').
  - intros now token w Htruthy. by apply refresh_result.
  - intros now token c w Htruthy Hverify Hf Hstored.
    destruct (refresh_accepts now token c w Htruthy Hverify Hf Hstored) as [w' Hrun].
    by eexists _, w'.
Qed.

Lemma refresh_token_exact_match_witness :
  (∃ w', AuthService.refresh (H := spelled_jwt) 3000
           (Some (generateRefreshToken (H := spelled_jwt) 1000 1)) auth_world_two_logins
         = (Ok (mkResponse 403 (envelope false "Invalid refresh token")), w'))
  ∧ (∃ resp w', AuthService.refresh (H := spelled_jwt) 3000
           (Some (generateRefreshToken (H := spelled_jwt) 2000 1)) auth_world_two_logins
         = (Ok resp, w') ∧ status resp = 200%nat).
Proof.
  destruct (refresh_token_exact_match (H := spelled_jwt) (H0 := prefix_bcrypt))
    as (_ & Hrefresh & _).
  split.
  - destruct (Hrefresh 3000%Z (generateRefreshToken (H := spelled_jwt) 1000 1)
                auth_world_two_logins eq_refl)
      as (resp & w' & Hrun & [[_ (c & Hc & Hl)]| ->]); [|by exists w'].
    vm_compute in Hc. injection Hc as <-. vm_compute in Hl. discriminate.
  - destruct (Hrefresh 3000%Z (generateRefreshToken (H := spelled_jwt) 2000 1)
                auth_world_two_logins eq_refl)
      as (resp & w' & Hrun & [[H200 _]| ->]); [by exists resp, w'|].
    vm_compute in Hrun. discriminate.
Defined.

(** ** The blacklist *)

(** C7.  A logout whose access token verifies, on a Redis that answers,
    leaves the entry [blacklist:<token>] with a TTL equal to the remaining
    validity of the token (its [exp] claim minus the current instant, a
    positive number, so the entry expires exactly when the token does), and
    from then until that instant POST /verify answers 401, Token revoked.
    A logout with an expired access token answers as usual and adds no key
    to the store. *)
Theorem blacklist_after_logout `{JwtLib} `{BcryptLib} :
  (∀ now refreshToken token c w,
     truthy_string token = true →
     jwt_verify now token = Ok c →
     Redis.rfaults (Service.redis w) = [] →
     refresh_step_passes now refreshToken = true →
     ∃ resp w' e,
       AuthService.logout now refreshToken (Some token) w = (Ok resp, w')
       ∧ Redis.store (Service.redis w') !! AuthService.blacklist_key token = Some e
       ∧ Redis.value e = "revoked"
       ∧ Redis.ttl_set e = (claim_exp c - now)%Z
       ∧ (0 < Redis.ttl_set e)%Z
       ∧ Redis.expires_at e = claim_exp c
       ∧ ∀ now', (now ≤ now' < claim_exp c)%Z →
           ∃ w'', AuthService.verify now' token w'
                  = (Ok (mkResponse 401 (JObj [("valid", JBool false);
                                               ("message", JStr "Token revoked")])), w''))
  ∧ (∀ now refreshToken token c w,
       jwt_decode token = Some c → (claim_exp c ≤ now)%Z →
       ∃ resp w',
         AuthService.logout now refreshToken (Some token) w = (Ok resp, w')
         ∧ ∀ k e, Redis.store (Service.redis w') !! k = Some e →
                  Redis.store (Service.redis w) !! k = Some e).
Proof.
  split.
  - intros now refreshToken token c w Htruthy Hverify Hnf Hstep.
    destruct (logout_blacklists now refreshToken token c w Htruthy Hverify Hnf Hstep)
      as (w' & Hrun & Hnf' & Hst).
    apply jwt_verify_ok in Hverify as [_ Hexp].
    eexists _, w', _. split_and!; [done|done|done|done|simpl; lia|done|].
    intros now' [_ Hlive].
    eapply (verify_blacklisted now' token w'); [|done|done|done].
    unfold Redis.faulty. by rewrite Hnf'.
  - intros now refreshToken token c w Hdecode Hexp.
    destruct (logout_expired now refreshToken token c w Hdecode Hexp) as (w' & Hrun & Hkeys).
    by eexists _, w'.
Qed.

Lemma blacklist_after_logout_witness :
  (∃ w' w'',
     AuthService.logout (H := spelled_jwt) 1000 None
       (Some (generateToken (H := spelled_jwt) 900 1)) auth_world
     = (Ok (res_json (envelope true "Logout successful")), w')
     ∧ AuthService.verify (H := spelled_jwt) 1000 (generateToken (H := spelled_jwt) 900 1) w'
       = (Ok (mkResponse 401 (JObj [("valid", JBool false);
                                    ("message", JStr "Token revoked")])), w''))
  ∧ (Service.redis
       (AuthService.logout (H := spelled_jwt) 700000 None
          (Some (generateToken (H := spelled_jwt) 900 1)) auth_world).2
     = Service.redis auth_world).
Proof.
  destruct (blacklist_after_logout (H := spelled_jwt) (H0 := prefix_bcrypt))
    as [Hlive Hexpired].
  split.
  - destruct (Hlive 1000%Z None (generateToken (H := spelled_jwt) 900 1)
                (mkClaims 1 None 900 (900 + days 7)) auth_world
                eq_refl eq_refl eq_refl eq_refl)
      as (resp & w' & e & Hrun & _ & _ & _ & _ & _ & Hverify).
    destruct (Hverify 1000%Z) as [w'' Hv]; [unfold days; simpl; lia|].
    exists w', w''. split; [|done].
    rewrite Hrun. vm_compute in Hrun. by injection Hrun as <- _.
  - destruct (Hexpired 700000%Z None (generateToken (H := spelled_jwt) 900 1)
                (mkClaims 1 None 900 (900 + days 7)) auth_world eq_refl)
      as (resp & w' & Hrun & _); [unfold days; simpl; lia|].
    vm_compute. reflexivity.
Defined.

(** ** Ownership in the monolith *)

(** C8.  Whatever request user [uid] sends to the notes router or to the
    todos router of the monolith (list, read, create, update, pin or
    toggle, delete), every row owned by another user is afterwards what it
    was before, and every row the response carries is owned by [uid].  When
    the request names a row that is absent or owned by another user, its
    body passes the validation chain of its route and the database answers,
    the response is 404 (Note not found, Todo not found) and the table is
    unchanged. *)
Theorem requests_scoped_to_caller (sql_like : string → string → bool) :
  (∀ now uid req w r w',
     BackendNotes.handle sql_like now uid req w = (r, w') →
     others_same BackendNotes.user_id uid w w'
     ∧ shows_only uid r
     ∧ ∀ nid, note_target req = Some nid → note_valid req →
              not_owned BackendNotes.user_id uid nid w → Backend.dfaults w = [] →
              r = Ok (mkResponse 404 (envelope false "Note not found"))
              ∧ Backend.table w' = Backend.table w)
  ∧ (∀ now uid req w r w',
       BackendTodos.handle now uid req w = (r, w') →
       others_same BackendTodos.user_id uid w w'
       ∧ shows_only uid r
       ∧ ∀ tid, todo_target req = Some tid → todo_valid req →
                not_owned BackendTodos.user_id uid tid w → Backend.dfaults w = [] →
                r = Ok (mkResponse 404 (envelope false "Todo not found"))
                ∧ Backend.table w' = Backend.table w).
Proof.
  split.
  - intros now uid req w r w' Hrun.
    exact (wp_elim _ _ _ _ _ (notes_handle_scoped sql_like now uid req w) Hrun).
  - intros now uid req w r w' Hrun.
    exact (proj1 (wp_elim _ _ _ _ _ (todos_handle_scoped now uid req w) Hrun)).
Qed.

Lemma requests_scoped_to_caller_witness :
  BackendNotes.handle (λ _ _, true) 1000 1 (BackendNotes.Update 2 rename_note)
                      backend_notes_world
  = (Ok (mkResponse 404 (envelope false "Note not found")), backend_notes_world).
Proof.
  destruct (BackendNotes.handle (λ _ _, true) 1000 1 (BackendNotes.Update 2 rename_note)
                                backend_notes_world) as [r w'] eqn:Hrun.
  destruct (requests_scoped_to_caller (λ _ _, true)) as [Hnotes _].
  destruct (Hnotes _ _ _ _ _ _ Hrun) as (_ & _ & Hmissing).
  destruct (Hmissing 2%N) as [-> _].
  - reflexivity.
  - vm_compute. reflexivity.
  - intros row Hrow. vm_compute in Hrow. injection Hrow as <-. simpl. discriminate.
  - reflexivity.
  - vm_compute in Hrun. by injection Hrun as <-.
Defined.

(** ** Completion timestamps *)



(** ** Passwords *)



(** * Further properties

    ** The notes router of the monolith *)

(** X1.  On a database that answers, a POST /api/notes that answers 201 has
    inserted one row under a key that was free: the row carries the trimmed
    title and text of the body, the caller as owner and is not archived; the
    response shows that row, and from then on GET /api/notes/:id of the
    caller with that key answers 200 with the same note. *)
Theorem created_note_is_readable now now' uid b w resp w' :
  Backend.dfaults w = [] →
  BackendNotes.create_note now uid b w = (Ok resp, w') →
  status resp = 201%nat →
  ∃ nid,
    let row := BackendNotes.mkNoteRow
                 (trim (default "" (BackendNotes.b_title b)))
                 (trim (default "" (BackendNotes.b_text b)))
                 uid (default [] (BackendNotes.b_tags b))
                 (default false (BackendNotes.b_isPinned b)) false now now in
    Backend.table w !! nid = None
    ∧ Backend.table w' = <[nid := row]> (Backend.table w)
    ∧ body resp = envelope_data true "Note created successfully"
                    (JObj [("note", BackendNotes.note_json (nid, row))])
    ∧ BackendNotes.get_note now' uid nid w'
      = (Ok (res_json (JObj [("success", JBool true);
                             ("data", JObj [("note", BackendNotes.note_json (nid, row))])])),
         w').
Proof.
  intros Hw Hrun H201. unfold BackendNotes.create_note in Hrun.
  unfold bind at 1 in Hrun. rewrite createConnection_healthy in Hrun by done.
  unfold try_catch in Hrun.
  destruct (BackendNotes.validate_create b) as [|e es];
    [|simpl in Hrun; injection Hrun as <- <-; discriminate H201].
  unfold bind at 1 in Hrun. rewrite execute_healthy in Hrun by done.
  unfold Backend.insert in Hrun.
  destruct (Backend.table w !! Backend.next_id w) eqn:Hfree;
    [simpl in Hrun; injection Hrun as <- <-; discriminate H201|].
  unfold bind at 1 in Hrun. rewrite execute_healthy in Hrun by done.
  unfold BackendNotes.select_by_id in Hrun. simpl in Hrun.
  rewrite lookup_insert_eq in Hrun. simpl in Hrun. injection Hrun as <- <-.
  exists (Backend.next_id w). simpl. split_and!; [done..|].
  rewrite get_note_healthy by done.
  erewrite select_owned_hit; [done| |done]. simpl. apply lookup_insert_eq.
Qed.

Lemma created_note_is_readable_witness :
  ∃ nid,
    BackendNotes.get_note 1001 1 nid
      (BackendNotes.create_note 1000 1 plan_note backend_notes_world).2
    = (Ok (res_json
             (JObj [("success", JBool true);
                    ("data",
                     JObj [("note",
                            BackendNotes.note_json
                              (nid, BackendNotes.mkNoteRow "Plan" "book the train" 1 []
                                                           false false 1000 1000))])])),
       (BackendNotes.create_note 1000 1 plan_note backend_notes_world).2).
Proof.
  destruct (BackendNotes.create_note 1000 1 plan_note backend_notes_world)
    as [[resp|e] w'] eqn:Hrun; [|vm_compute in Hrun; discriminate].
  destruct (created_note_is_readable 1000 1001 1 plan_note backend_notes_world resp w'
              eq_refl Hrun) as (nid & _ & _ & _ & Hget).
  { vm_compute in Hrun. by injection Hrun as <- _. }
  exists nid. exact Hget.
Defined.

(** X2.  A DELETE /api/notes/:id that answers 200 has removed exactly the
    row it names, which the caller owned; every other row is as before, and
    on a database that answers GET /api/notes/:id with that key answers 404
    for every user from then on. *)
Theorem deleted_note_is_gone now uid nid w resp w' :
  BackendNotes.delete_note now uid nid w = (Ok resp, w') →
  status resp = 200%nat →
  (∃ row, Backend.table w !! nid = Some row ∧ BackendNotes.user_id row = uid)
  ∧ Backend.table w' = delete nid (Backend.table w)
  ∧ (Backend.dfaults w' = [] →
     ∀ now' uid', BackendNotes.get_note now' uid' nid w'
                  = (Ok (mkResponse 404 (envelope false "Note not found")), w')).
Proof.
  intros Hrun H200. unfold BackendNotes.delete_note in Hrun.
  unfold bind at 1 in Hrun. unfold Backend.createConnection, Backend.execute at 1 in Hrun.
  destruct (Backend.faulty w); [discriminate Hrun|].
  unfold try_catch, bind, Backend.execute in Hrun.
  destruct (Backend.faulty (Backend.ticked w));
    [simpl in Hrun; injection Hrun as <- <-; discriminate H200|].
  destruct (BackendNotes.select_owned nid uid _) as [|kv rest] eqn:Hsel;
    [simpl in Hrun; injection Hrun as <- <-; discriminate H200|].
  simpl in Hrun. injection Hrun as <- <-.
  apply select_owned_cons in Hsel as (Hid & Hrow & Hu). simpl in Hrow.
  split_and!; [by exists kv.2|done|].
  intros Hw now' uid'. rewrite get_note_healthy by done.
  rewrite select_owned_miss; [done|]. simpl. intros row. by rewrite lookup_delete_eq.
Qed.

Lemma deleted_note_is_gone_witness :
  Backend.table (BackendNotes.delete_note 1000 1 1 backend_notes_world).2
  = delete 1%N (Backend.table backend_notes_world).
Proof.
  destruct (BackendNotes.delete_note 1000 1 1 backend_notes_world)
    as [[resp|e] w'] eqn:Hrun; [|vm_compute in Hrun; discriminate].
  apply (deleted_note_is_gone 1000 1 1 backend_notes_world resp w' Hrun).
  vm_compute in Hrun. by injection Hrun as <- _.
Defined.

(** X3.  On a database that answers, PATCH /api/notes/:id/pin on an own
    note answers 200 and negates the pin flag; a second toggle restores it,
    so that after both the row differs from the original in [updated_at]
    only. *)
Theorem pin_toggled_twice now1 now2 uid nid w row :
  Backend.dfaults w = [] →
  Backend.table w !! nid = Some row →
  BackendNotes.user_id row = uid →
  ∃ resp1 w1 resp2 w2,
    BackendNotes.toggle_pin now1 uid nid w = (Ok resp1, w1)
    ∧ BackendNotes.toggle_pin now2 uid nid w1 = (Ok resp2, w2)
    ∧ status resp1 = 200%nat ∧ status resp2 = 200%nat
    ∧ Backend.table w1
      = <[nid := BackendNotes.set_pinned now1 (negb (BackendNotes.is_pinned row)) row]>
          (Backend.table w)
    ∧ Backend.table w2
      = <[nid := BackendNotes.mkNoteRow
                   (BackendNotes.title row) (BackendNotes.text row)
                   (BackendNotes.user_id row) (BackendNotes.tags row)
                   (BackendNotes.is_pinned row) (BackendNotes.is_archived row)
                   (BackendNotes.created_at row) now2]> (Backend.table w).
Proof.
  intros Hw Hrow Hu.
  assert (∀ now w0 row0,
            Backend.dfaults w0 = [] → Backend.table w0 !! nid = Some row0 →
            BackendNotes.user_id row0 = uid →
            ∃ resp,
              BackendNotes.toggle_pin now uid nid w0
              = (Ok resp,
                 Backend.set_table
                   (<[nid := BackendNotes.set_pinned now
                               (negb (BackendNotes.is_pinned row0)) row0]>
                      (Backend.table w0)) (Backend.next_id w0) w0)
              ∧ status resp = 200%nat) as Hstep.
  { intros now w0 row0 Hw0 Hrow0 Hu0. unfold BackendNotes.toggle_pin.
    unfold bind at 1. rewrite createConnection_healthy by done.
    unfold try_catch. unfold bind at 1. rewrite execute_healthy by done.
    rewrite (select_owned_hit nid uid w0 row0) by done.
    unfold bind at 1. rewrite execute_healthy by done.
    unfold bind at 1. rewrite execute_healthy by done.
    unfold BackendNotes.select_by_id. simpl.
    rewrite (alter_as_insert _ _ _ row0) by done. rewrite lookup_insert_eq. simpl.
    by eexists. }
  destruct (Hstep now1 w row Hw Hrow Hu) as (resp1 & Hrun1 & H1).
  destruct (Hstep now2
              (Backend.set_table
                 (<[nid := BackendNotes.set_pinned now1
                             (negb (BackendNotes.is_pinned row)) row]> (Backend.table w))
                 (Backend.next_id w) w)
              (BackendNotes.set_pinned now1 (negb (BackendNotes.is_pinned row)) row)
              Hw (lookup_insert_eq _ _ _) Hu) as (resp2 & Hrun2 & H2).
  eexists resp1, _, resp2, _. split_and!; [done..|].
  simpl. rewrite insert_insert_eq. by rewrite negb_involutive.
Qed.

Lemma pin_toggled_twice_witness :
  ∃ resp1 w1 resp2 w2,
    BackendNotes.toggle_pin 1000 1 1 backend_notes_world = (Ok resp1, w1)
    ∧ BackendNotes.toggle_pin 2000 1 1 w1 = (Ok resp2, w2)
    ∧ Backend.table w2 !! 1%N
      = Some (BackendNotes.mkNoteRow "Groceries" "milk, eggs" 1 [] false false 100 2000).
Proof.
  destruct (pin_toggled_twice 1000 2000 1 1 backend_notes_world
              (BackendNotes.mkNoteRow "Groceries" "milk, eggs" 1 [] false false 100 100)
              eq_refl eq_refl eq_refl)
    as (resp1 & w1 & resp2 & w2 & Hrun1 & Hrun2 & _ & _ & _ & Ht).
  exists resp1, w1, resp2, w2. split_and!; [done..|].
  rewrite Ht. apply lookup_insert_eq.
Defined.

(** X4.  A PUT /api/notes/:id that answers 200 has rewritten exactly the
    row it names, which the caller owned: the fields present in the body are
    assigned (title and text trimmed), the absent ones are kept, the owner
    and [created_at] are never changed, [updated_at] becomes the current
    time, and the response shows the new row. *)
Theorem updated_note_keeps_the_rest now uid nid b w resp w' :
  BackendNotes.update_note now uid nid b w = (Ok resp, w') →
  status resp = 200%nat →
  ∃ row row',
    Backend.table w !! nid = Some row
    ∧ Backend.table w' = <[nid := row']> (Backend.table w)
    ∧ BackendNotes.user_id row = uid
    ∧ BackendNotes.user_id row' = uid
    ∧ BackendNotes.created_at row' = BackendNotes.created_at row
    ∧ BackendNotes.updated_at row' = now
    ∧ BackendNotes.title row'
      = default (BackendNotes.title row) (trim <$> BackendNotes.b_title b)
    ∧ BackendNotes.text row'
      = default (BackendNotes.text row) (trim <$> BackendNotes.b_text b)
    ∧ BackendNotes.tags row' = default (BackendNotes.tags row) (BackendNotes.b_tags b)
    ∧ BackendNotes.is_pinned row'
      = default (BackendNotes.is_pinned row) (BackendNotes.b_isPinned b)
    ∧ BackendNotes.is_archived row'
      = default (BackendNotes.is_archived row) (BackendNotes.b_isArchived b)
    ∧ body resp = envelope_data true "Note updated successfully"
                    (JObj [("note", BackendNotes.note_json (nid, row'))]).
Proof.
  intros Hrun H200. unfold BackendNotes.update_note in Hrun.
  unfold bind at 1 in Hrun. unfold Backend.createConnection, Backend.execute at 1 in Hrun.
  destruct (Backend.faulty w); [discriminate Hrun|].
  unfold try_catch in Hrun.
  destruct (BackendNotes.validate_update b) as [|e es];
    [|simpl in Hrun; injection Hrun as <- <-; discriminate H200].
  unfold bind at 1, Backend.execute at 1 in Hrun.
  destruct (Backend.faulty (Backend.ticked w));
    [simpl in Hrun; injection Hrun as <- <-; discriminate H200|].
  destruct (BackendNotes.select_owned nid uid _) as [|kv rest] eqn:Hsel;
    [simpl in Hrun; injection Hrun as <- <-; discriminate H200|].
  apply select_owned_cons in Hsel as (Hid & Hrow & Hu). simpl in Hrow.
  unfold bind at 1, Backend.execute at 1 in Hrun.
  destruct (Backend.faulty _);
    [simpl in Hrun; injection Hrun as <- <-; discriminate H200|].
  unfold bind at 1, Backend.execute at 1 in Hrun.
  destruct (Backend.faulty _);
    [simpl in Hrun; injection Hrun as <- <-; discriminate H200|].
  unfold BackendNotes.select_by_id in Hrun. simpl in Hrun.
  rewrite (alter_as_insert _ _ _ kv.2) in Hrun by done.
  rewrite lookup_insert_eq, Hu, N.eqb_refl in Hrun. simpl in Hrun.
  injection Hrun as <- <-.
  exists kv.2, (BackendNotes.assign now b kv.2). simpl. by split_and!.
Qed.

Lemma updated_note_keeps_the_rest_witness :
  Backend.table (BackendNotes.update_note 1000 1 1 plan_note backend_notes_world).2 !! 1%N
  = Some (BackendNotes.mkNoteRow "Plan" "book the train" 1 [] false false 100 1000).
Proof.
  destruct (BackendNotes.update_note 1000 1 1 plan_note backend_notes_world)
    as [[resp|e] w'] eqn:Hrun; [|vm_compute in Hrun; discriminate].
  destruct (updated_note_keeps_the_rest 1000 1 1 plan_note backend_notes_world resp w' Hrun)
    as (row & row' & Hrow & Ht & _).
  { vm_compute in Hrun. by injection Hrun as <- _. }
  vm_compute in Hrun. by injection Hrun as _ <-.
Defined.

(** X5.  A GET /api/notes that answers 200 writes nothing and shows one page:
    at most [limit] notes, without repetition, every one a stored row of the
    caller that passes the filters of the query, pinned notes first and
    newer notes before older ones; [total] counts all the rows of the caller
    that pass the filters. *)
Theorem listed_notes_are_a_page (sql_like : string → string → bool)
    now uid q w resp w' :
  BackendNotes.list_notes sql_like now uid q w = (Ok resp, w') →
  status resp = 200%nat →
  ∃ notes,
    body resp
    = JObj [("success", JBool true);
            ("data",
             JObj [("notes", JArr (map BackendNotes.note_json notes));
                   ("pagination",
                    JObj [("page", JNum (default 1%Z (BackendNotes.q_page q)));
                          ("limit", JNum (default 20%Z (BackendNotes.q_limit q)));
                          ("total",
                           JNum (Z.of_nat
                                   (List.length
                                      (filter (λ kv, BackendNotes.wanted sql_like uid q kv
                                                     = true)
                                              (map_to_list (Backend.table w))))));
                          ("pages",
                           Backend.pages
                             (List.length
                                (filter (λ kv, BackendNotes.wanted sql_like uid q kv = true)
                                        (map_to_list (Backend.table w))))
                             (default 20%Z (BackendNotes.q_limit q)))])])]
    ∧ (List.length notes ≤ Z.to_nat (default 20%Z (BackendNotes.q_limit q)))%nat
    ∧ NoDup notes
    ∧ StronglySorted BackendNotes.note_before notes
    ∧ (∀ kv, kv ∈ notes →
         Backend.table w !! kv.1 = Some kv.2
         ∧ BackendNotes.user_id kv.2 = uid
         ∧ BackendNotes.wanted sql_like uid q kv = true)
    ∧ Backend.table w' = Backend.table w.
Proof.
  intros Hrun H200. unfold BackendNotes.list_notes in Hrun.
  unfold bind at 1 in Hrun. unfold Backend.createConnection, Backend.execute at 1 in Hrun.
  destruct (Backend.faulty w); [discriminate Hrun|].
  unfold try_catch in Hrun.
  unfold bind at 1, Backend.execute at 1 in Hrun.
  destruct (Backend.faulty (Backend.ticked w));
    [simpl in Hrun; injection Hrun as <- <-; discriminate H200|].
  destruct (Backend.limit_offset _ _ _) as [notes|e] eqn:Hpage;
    [|simpl in Hrun; injection Hrun as <- <-; discriminate H200].
  unfold bind at 1, Backend.execute at 1 in Hrun.
  destruct (Backend.faulty _);
    [simpl in Hrun; injection Hrun as <- <-; discriminate H200|].
  simpl in Hrun. injection Hrun as <- <-.
  apply limit_offset_sublist in Hpage as [Hsub Hlen].
  exists notes. split_and!.
  - simpl. unfold Backend.select.
    rewrite (Permutation_length (merge_sort_Permutation _ _)). reflexivity.
  - done.
  - eapply sublist_NoDup; [apply select_NoDup|exact Hsub].
  - apply (StronglySorted_sublist _ _ _ Hsub), select_sorted.
  - intros kv Hkv. apply (sublist_subseteq _ _ Hsub) in Hkv.
    apply elem_of_select in Hkv as [Hrow Hwanted]. simpl in Hrow.
    split_and!; [done| |done]. by eapply elem_of_wanted.
  - done.
Qed.

Lemma listed_notes_are_a_page_witness :
  ∃ notes : list (N * BackendNotes.NoteRow),
    (List.length notes ≤ 20)%nat
    ∧ ∀ kv, kv ∈ notes → BackendNotes.user_id kv.2 = 1%N.
Proof.
  destruct (BackendNotes.list_notes (λ _ _, true) 1000 1 first_page backend_notes_world)
    as [[resp|e] w'] eqn:Hrun; [|vm_compute in Hrun; discriminate].
  destruct (listed_notes_are_a_page (λ _ _, true) 1000 1 first_page
              backend_notes_world resp w' Hrun)
    as (notes & _ & Hlen & _ & _ & Hrows & _).
  { vm_compute in Hrun. by injection Hrun as <- _. }
  exists notes. split; [exact Hlen|]. intros kv Hkv. by destruct (Hrows kv Hkv) as (_ & ? & _).
Defined.

(** ** The todos router of the monolith *)

(** X6.  A POST /api/todos that answers 201 has inserted one row under a key
    that was free, whatever the body says beyond its text, priority,
    category and due date: the row belongs to the caller, is not completed
    and has no completion timestamp; its text is the trimmed text, its
    priority is medium unless the body names one, an empty category is
    stored as NULL; the response shows that row. *)
Theorem created_todo_is_open now uid b w resp w' :
  BackendTodos.create_todo now uid b w = (Ok resp, w') →
  status resp = 201%nat →
  ∃ tid,
    let row := BackendTodos.mkTodoRow
                 (trim (default "" (BackendTodos.b_text b))) false uid
                 (default "medium" (BackendTodos.b_priority b))
                 (BackendTodos.b_dueDate b)
                 (BackendTodos.or_null (trim <$> BackendTodos.b_category b))
                 None now now in
    Backend.table w !! tid = None
    ∧ Backend.table w' = <[tid := row]> (Backend.table w)
    ∧ body resp = envelope_data true "Todo created successfully"
                    (JObj [("todo", BackendTodos.todo_json (tid, row))]).
Proof.
  intros Hrun H201. unfold BackendTodos.create_todo in Hrun.
  unfold bind at 1 in Hrun. unfold Backend.createConnection, Backend.execute at 1 in Hrun.
  destruct (Backend.faulty w); [discriminate Hrun|].
  unfold try_catch in Hrun.
  destruct (BackendTodos.validate_create b) as [|e es];
    [|simpl in Hrun; injection Hrun as <- <-; discriminate H201].
  unfold bind at 1, Backend.execute at 1 in Hrun.
  destruct (Backend.faulty (Backend.ticked w));
    [simpl in Hrun; injection Hrun as <- <-; discriminate H201|].
  unfold Backend.insert in Hrun. simpl in Hrun.
  destruct (Backend.table w !! Backend.next_id w) eqn:Hfree;
    [simpl in Hrun; injection Hrun as <- <-; discriminate H201|].
  unfold bind at 1, Backend.execute at 1 in Hrun.
  destruct (Backend.faulty _);
    [simpl in Hrun; injection Hrun as <- <-; discriminate H201|].
  unfold BackendTodos.select_by_id in Hrun. simpl in Hrun.
  rewrite lookup_insert_eq in Hrun. simpl in Hrun. injection Hrun as <- <-.
  exists (Backend.next_id w). simpl. by split_and!.
Qed.

Lemma created_todo_is_open_witness :
  Backend.table (BackendTodos.create_todo 1000 2 urgent_todo backend_todos_world).2 !! 3%N
  = Some (BackendTodos.mkTodoRow "pay the rent" false 2 "high" None None None 1000 1000).
Proof.
  destruct (BackendTodos.create_todo 1000 2 urgent_todo backend_todos_world)
    as [[resp|e] w'] eqn:Hrun; [|vm_compute in Hrun; discriminate].
  destruct (created_todo_is_open 1000 2 urgent_todo backend_todos_world resp w' Hrun)
    as (tid & _ & Ht & _).
  { vm_compute in Hrun. by injection Hrun as <- _. }
  vm_compute in Hrun. by injection Hrun as _ <-.
Defined.

(** ** The auth routes of the monolith *)

(** X7.  Whatever request the register, login, demo-login and profile routes
    receive, no two stored users share an e-mail address or a username
    afterwards if none did before: a row is added only after a check that
    nobody has its e-mail address or its username. *)
Theorem users_stay_unique `{JwtLib} `{BcryptLib} `{ValidatorLib} now req w r w' :
  BackendAuth.handle now req w = (r, w') →
  unique_users w →
  unique_users w'.
Proof.
  intros Hrun Huniq.
  pose proof (wp_elim _ _ _ _ _ (handle_adds_fresh_user now req w) Hrun) as Heffect.
  destruct Heffect as [Hsame|(key & row & Hfree & Ht & Hfresh)].
  - unfold unique_users. rewrite Hsame. exact Huniq.
  - intros i j ri rj. rewrite Ht.
    destruct (decide (key = i)) as [<-|Hi], (decide (key = j)) as [<-|Hj];
      rewrite ?lookup_insert_eq, ?lookup_insert_ne by done.
    + done.
    + intros [= <-] Hrj [Heq|Heq]; destruct (Hfresh j rj Hrj); congruence.
    + intros Hri [= <-] [Heq|Heq]; destruct (Hfresh i ri Hri); congruence.
    + apply Huniq.
Qed.

Lemma users_stay_unique_witness :
  unique_users
    (BackendAuth.handle (H := spelled_jwt) (H0 := prefix_bcrypt) (H1 := at_sign_validator)
       1000 (BackendAuth.Register alice_registration) backend_users_world).2.
Proof.
  destruct (BackendAuth.handle (H := spelled_jwt) (H0 := prefix_bcrypt)
              (H1 := at_sign_validator) 1000 (BackendAuth.Register alice_registration)
              backend_users_world) as [r w'] eqn:Hrun.
  apply (users_stay_unique (H := spelled_jwt) (H0 := prefix_bcrypt)
           (H1 := at_sign_validator) 1000 _ _ r w' Hrun).
  intros i j ri rj Hi. unfold backend_users_world in Hi. simpl in Hi.
  by rewrite lookup_empty in Hi.
Defined.

(** X8.  A POST /api/auth/login answers 200 only when some stored user has
    the submitted (trimmed) name as username, or its lower-cased form as
    e-mail address, and bcrypt accepts the submitted password against the
    hash stored for that user; the response then carries that user without
    the password and a token signed for the key of that user.  No login
    changes the table. *)
Theorem login_checks_the_stored_hash `{JwtLib} `{BcryptLib} now b w resp w' :
  BackendAuth.login now b w = (Ok resp, w') →
  (status resp = 200%nat →
   ∃ uid row,
     Backend.table w !! uid = Some row
     ∧ (BackendAuth.username row = trim (default "" (BackendAuth.l_username b))
        ∨ BackendAuth.email row
          = toLowerCase (trim (default "" (BackendAuth.l_username b))))
     ∧ bcrypt_compare (default "" (BackendAuth.l_password b)) (BackendAuth.password row)
       = true
     ∧ body resp
       = envelope_data true "Login successful"
           (JObj [("user", BackendAuth.toJSON
                             (BackendAuth.mkInstance uid row BackendAuth.all_attributes));
                  ("token", JStr (generateToken now uid))]))
  ∧ Backend.table w' = Backend.table w.
Proof.
  unfold BackendAuth.login, try_catch.
  destruct (BackendAuth.validate_login b) as [|e es];
    [|simpl; intros [= <- <-]; split; [intros [=]|done]].
  unfold bind at 1, BackendAuth.User_findOne, BackendAuth.sequelize.
  destruct (Backend.faulty w).
  { simpl. intros [= <- <-]. split; [intros [=]|done]. }
  destruct (list_find _ _) as [[i [uid row]]|] eqn:Hfind; simpl;
    [|intros [= <- <-]; split; [intros [=]|done]].
  unfold BackendAuth.comparePassword. simpl.
  destruct (bcrypt_compare _ _) eqn:Hpass; simpl;
    [|intros [= <- <-]; split; [intros [=]|done]].
  intros [= <- <-]. split; [|done]. intros _.
  apply list_find_Some in Hfind as (Hlook & Hmatch & _).
  apply list_elem_of_lookup_2, elem_of_map_to_list in Hlook. simpl in *.
  by exists uid, row.
Qed.

Lemma login_checks_the_stored_hash_witness :
  ∃ uid row,
    Backend.table backend_users_alice !! uid = Some row
    ∧ bcrypt_compare (BcryptLib := prefix_bcrypt) "wonderland" (BackendAuth.password row)
      = true.
Proof.
  destruct (BackendAuth.login (H := spelled_jwt) (H0 := prefix_bcrypt)
              2000 alice_backend_login backend_users_alice)
    as [[resp|e] w'] eqn:Hrun; [|vm_compute in Hrun; discriminate].
  destruct (login_checks_the_stored_hash (H := spelled_jwt) (H0 := prefix_bcrypt)
              2000 alice_backend_login backend_users_alice resp w' Hrun) as [Hok _].
  destruct Hok as (uid & row & Hrow & _ & Hpass & _).
  { vm_compute in Hrun. by injection Hrun as <- _. }
  by exists uid, row.
Defined.

(** X9.  On a database that answers, with a bcrypt that accepts a password
    against its own hash, a user whose registration answered 201 can log in
    with the username and the password of the registration: the login
    answers 200 with the registered user and a token signed for its key,
    provided no earlier user has that username (lower-cased) as e-mail
    address. *)
Theorem registered_user_can_log_in `{JwtLib} `{BcryptLib} `{ValidatorLib}
    now now' b w resp w' :
  (∀ p, bcrypt_compare p (bcrypt_hash p) = true) →
  Backend.dfaults w = [] →
  (∀ j rj, Backend.table w !! j = Some rj →
           BackendAuth.email rj
           ≠ toLowerCase (trim (default "" (BackendAuth.r_username b)))) →
  BackendAuth.register now b w = (Ok resp, w') →
  status resp = 201%nat →
  ∃ uid row,
    Backend.table w' !! uid = Some row
    ∧ BackendAuth.username row = trim (default "" (BackendAuth.r_username b))
    ∧ BackendAuth.login now'
        (BackendAuth.mkLoginBody (BackendAuth.r_username b) (BackendAuth.r_password b)) w'
      = (Ok (res_json
               (envelope_data true "Login successful"
                  (JObj [("user",
                          BackendAuth.toJSON
                            (BackendAuth.mkInstance uid row BackendAuth.all_attributes));
                         ("token", JStr (generateToken now' uid))]))),
         w').
Proof.
  intros Hbcrypt Hw Hmail Hrun H201. unfold BackendAuth.register in Hrun.
  unfold try_catch in Hrun.
  destruct (BackendAuth.validate_register b) as [|e es] eqn:Hvalid;
    [|simpl in Hrun; injection Hrun as <- <-; discriminate H201].
  apply validate_register_ok in Hvalid as (Hlen & Hword & Hpass).
  unfold bind at 1 in Hrun. unfold BackendAuth.User_findOne in Hrun.
  rewrite sequelize_healthy in Hrun by done.
  destruct (list_find _ _) as [found|];
    [simpl in Hrun; injection Hrun as <- <-; discriminate H201|].
  simpl in Hrun.
  pose proof (User_create_fresh now
                (trim (default "" (BackendAuth.r_name b)))
                (normalizeEmail (default "" (BackendAuth.r_email b)))
                (trim (default "" (BackendAuth.r_username b)))
                (default "" (BackendAuth.r_password b)) w) as Hcreate.
  unfold wp in Hcreate. unfold bind at 1 in Hrun.
  destruct (BackendAuth.User_create _ _ _ _ _ w) as [[user|e] w1] eqn:Hcreated;
    simpl in Hcreate.
  2:{ simpl in Hrun. unfold bind in Hrun. simpl in Hrun.
      repeat (destruct (String.eqb e _); [injection Hrun as <- <-; discriminate H201|]).
      injection Hrun as <- <-. discriminate H201. }
  simpl in Hrun. injection Hrun as <- <-.
  destruct Hcreate as (Hfree & Ht & Hfresh & Hrow & Hattrs & Hw1).
  rewrite Hw in Hw1. simpl in Hw1.
  assert (BackendAuth.username (BackendAuth.inst_row user)
          = trim (default "" (BackendAuth.r_username b))) as Huser.
  { rewrite Hrow. simpl. by apply trim_word. }
  exists (BackendAuth.inst_id user), (BackendAuth.inst_row user).
  split; [by rewrite Ht, lookup_insert_eq|]. split; [done|].
  unfold BackendAuth.login, try_catch. unfold BackendAuth.validate_login. simpl.
  assert (truthy_string (trim (default "" (BackendAuth.r_username b))) = true) as ->.
  { apply (truthy_long 3); [lia|]. unfold isLength in Hlen. unfold isLength_min.
    by apply andb_true_iff in Hlen as [? _]. }
  assert (truthy_opt (BackendAuth.r_password b) = true) as ->.
  { destruct (BackendAuth.r_password b) as [p|]; simpl in *; [|done].
    by apply (truthy_long 6); [lia|]. }
  simpl. unfold bind at 1, BackendAuth.User_findOne.
  rewrite sequelize_healthy by done.
  destruct (list_find _ _) as [[i [uid row]]|] eqn:Hfind.
  2:{ exfalso. apply list_find_None in Hfind. rewrite Forall_forall in Hfind.
      apply (Hfind (BackendAuth.inst_id user, BackendAuth.inst_row user)).
      - apply elem_of_map_to_list. by rewrite Ht, lookup_insert_eq.
      - simpl. by left. }
  apply list_find_Some in Hfind as (Hlook & Hmatch & _).
  apply list_elem_of_lookup_2, elem_of_map_to_list in Hlook. simpl in Hlook, Hmatch.
  rewrite Ht in Hlook.
  destruct (decide (BackendAuth.inst_id user = uid)) as [<-|Hne].
  - rewrite lookup_insert_eq in Hlook. injection Hlook as <-.
    destruct user as [key urow attrs]. simpl in *. subst attrs.
    unfold BackendAuth.comparePassword. simpl.
    replace (BackendAuth.password urow)
      with (bcrypt_hash (default "" (BackendAuth.r_password b))) by (by rewrite Hrow).
    rewrite Hbcrypt. done.
  - exfalso. rewrite lookup_insert_ne in Hlook by done.
    destruct Hmatch as [Hname|Hemail].
    + destruct (Hfresh uid row Hlook) as [_ Hn]. congruence.
    + by apply (Hmail uid row Hlook).
Qed.

Lemma registered_user_can_log_in_witness :
  ∃ uid row,
    Backend.table backend_users_alice !! uid = Some row
    ∧ BackendAuth.username row = "alice"
    ∧ BackendAuth.login (H := spelled_jwt) (H0 := prefix_bcrypt) 2000
        (BackendAuth.mkLoginBody (Some "alice") (Some "wonderland")) backend_users_alice
      = (Ok (res_json
               (envelope_data true "Login successful"
                  (JObj [("user",
                          BackendAuth.toJSON
                            (BackendAuth.mkInstance uid row BackendAuth.all_attributes));
                         ("token", JStr (generateToken (H := spelled_jwt) 2000 uid))]))),
         backend_users_alice).
Proof.
  unfold backend_users_alice.
  destruct (BackendAuth.register (H := spelled_jwt) (H0 := prefix_bcrypt)
              (H1 := at_sign_validator) 1000 alice_registration backend_users_world)
    as [[resp|e] w'] eqn:Hrun; [|vm_compute in Hrun; discriminate].
  apply (registered_user_can_log_in (H := spelled_jwt) (H0 := prefix_bcrypt)
           (H1 := at_sign_validator) 1000 2000 alice_registration backend_users_world
           resp w').
  - intros p. simpl. by apply bool_decide_eq_true_2.
  - reflexivity.
  - intros j rj Hj. unfold backend_users_world in Hj. simpl in Hj.
    by rewrite lookup_empty in Hj.
  - exact Hrun.
  - vm_compute in Hrun. by injection Hrun as <- _.
Defined.



(** ** The notes service *)

(** X11.  The read-through cache of the notes service, on a Redis that
    answers.  A GET that misses runs the handler and answers with its
    response; from then on and for [duration] seconds every GET of the same
    user and URL is answered with the stored body and status 200, whatever
    status the stored response had and whatever the handler would answer
    now, without running the handler and without changing anything; once
    [duration] seconds have passed the entry cannot be read any more. *)
Theorem cached_response_is_replayed duration now uid url next w resp w1 :
  (0 < duration)%Z →
  Redis.rfaults (Service.redis w) = [] →
  Redis.lookup now (Service.redis w) (NotesService.cacheKey uid url) = None →
  next w = (Ok resp, w1) →
  Redis.rfaults (Service.redis w1) = [] →
  ∃ w2,
    NotesService.cacheMiddleware duration now NotesService.GET uid url next w
    = (Ok resp, w2)
    ∧ (∀ now' next',
         (now ≤ now' < now + duration)%Z →
         NotesService.cacheMiddleware duration now' NotesService.GET uid url next' w2
         = (Ok (mkResponse 200 (body resp)), w2))
    ∧ (∀ now', (now + duration ≤ now')%Z →
         Redis.lookup now' (Service.redis w2) (NotesService.cacheKey uid url) = None).
Proof.
  intros Hd Hw Hmiss Hnext Hw1.
  assert (∀ w0 : NotesService.World,
            Redis.rfaults (Service.redis w0) = [] → after_get w0 = w0) as Hafter.
  { intros [[st fs] t n d dv c]. simpl. by intros ->. }
  assert (∀ w0 : NotesService.World,
            Redis.rfaults (Service.redis w0) = [] → Redis.faulty (Service.redis w0) = false)
    as Hfaulty.
  { intros w0 H0. unfold Redis.faulty. by rewrite H0. }
  set (key := NotesService.cacheKey uid url).
  set (w2 := Service.set_redis
               (Redis.mk (<[key := Redis.mkEntry (body resp) duration (now + duration)%Z]>
                            (Redis.store (Service.redis w1))) []) w1).
  exists w2. split_and!.
  - rewrite cacheMiddleware_miss by done. rewrite (Hfaulty w Hw), (Hafter w Hw).
    unfold NotesService.on_miss. unfold bind at 1. rewrite Hnext.
    unfold bind, catch_promise, try_catch. rewrite redisClient_run.
    rewrite setEx_no_fault by auto. simpl. by rewrite Hw1.
  - intros now' next' [Hlo Hhi].
    rewrite (cacheMiddleware_hit duration now' uid url next' w2 (body resp)).
    + by rewrite (Hafter w2 eq_refl).
    + done.
    + unfold Redis.lookup. simpl. fold key. rewrite lookup_insert_eq. simpl.
      unfold Redis.live. simpl. by rewrite (proj2 (Z.ltb_lt _ _) Hhi).
  - intros now' Hlate. unfold Redis.lookup. simpl. fold key. rewrite lookup_insert_eq.
    unfold Redis.live. simpl. by rewrite (proj2 (Z.ltb_ge _ _) Hlate).
Qed.

Lemma cached_response_is_replayed_witness :
  ∃ resp w2,
    NotesService.cacheMiddleware 300 1000 NotesService.GET 1 "/?page=2"
      (NotesService.get_notes (λ _ _, true) 1000 1 no_query) notes_world_cached
    = (Ok resp, w2)
    ∧ NotesService.cacheMiddleware 300 1299 NotesService.GET 1 "/?page=2"
        (throw "the handler is not run") w2
      = (Ok (mkResponse 200 (body resp)), w2).
Proof.
  destruct (NotesService.get_notes (λ _ _, true) 1000 1 no_query notes_world_cached)
    as [[resp|e] w1] eqn:Hnext; [|vm_compute in Hnext; discriminate].
  destruct (cached_response_is_replayed 300 1000 1 "/?page=2"
              (NotesService.get_notes (λ _ _, true) 1000 1 no_query)
              notes_world_cached resp w1) as (w2 & Hrun & Hreplay & _).
  - lia.
  - reflexivity.
  - vm_compute. reflexivity.
  - exact Hnext.
  - vm_compute in Hnext. by injection Hnext as _ <-.
  - exists resp, w2. split; [exact Hrun|]. apply Hreplay. lia.
Defined.


(** X13.  GET /search of the notes service.  Without a search text it
    answers 400 and asks the database nothing.  When it answers 200 it shows
    at most [limit] notes (20 unless given), every one a stored note of the
    caller that is not archived and whose title or text matches the text
    between wildcards, and it echoes the text.  It never writes a note and
    never touches the cache. *)
Theorem search_shows_own_open_notes (sql_like : string → string → bool)
    now uid q limit w resp w' :
  NotesRoutes.search_notes sql_like now uid q limit w = (Ok resp, w') →
  (truthy_opt q = false →
   resp = mkResponse 400 (envelope false "Search query required") ∧ w' = w)
  ∧ (status resp = 200%nat →
     ∃ notes,
       body resp = JObj [("success", JBool true);
                         ("data", JObj [("notes", JArr (map NotesService.note_json notes));
                                        ("query", JStr (default "" q))])]
       ∧ (List.length notes ≤ Z.to_nat (default 20%Z limit))%nat
       ∧ ∀ n, n ∈ notes →
           (∃ key, Service.table w !! key = Some n)
           ∧ NotesService.userId n = uid
           ∧ NotesService.isArchived n = false
           ∧ (sql_like ("%" ++ default "" q ++ "%") (NotesService.title n) = true
              ∨ sql_like ("%" ++ default "" q ++ "%") (NotesService.text n) = true))
  ∧ Service.table w' = Service.table w
  ∧ Service.redis w' = Service.redis w.
Proof.
  unfold NotesRoutes.search_notes, try_catch.
  destruct (truthy_opt q) eqn:Hq; simpl.
  2:{ intros [= <- <-]. split_and!; [done|intros [=]|done|done]. }
  unfold bind, NotesRoutes.Note_findAll. rewrite query_unfold.
  destruct (Service.dfaults w) as [|[] fs] eqn:Hfs; simpl.
  1,3: destruct (Z.ltb_spec (default 20%Z limit) 0); simpl.
  all: intros [= <- <-]; split_and!; try done; try (by intros [=]).
  all: intros _; eexists; split_and!; [done|rewrite length_take; lia|].
  all: intros n Hn; apply (subseteq_take _ _ n) in Hn;
    rewrite merge_sort_Permutation in Hn.
  all: apply list_elem_of_filter in Hn as [(Hu & Ha & Hlike) Hn].
  all: apply list_elem_of_fmap in Hn as ([key n'] & -> & Hn).
  all: apply elem_of_map_to_list in Hn; simpl in *.
  all: split_and!; [by exists key|done..].
Qed.

Lemma search_shows_own_open_notes_witness :
  ∃ resp w',
    NotesRoutes.search_notes (λ _ _, true) 1000 1 (Some "milk") None notes_service_world
    = (Ok resp, w')
    ∧ Service.table w' = Service.table notes_service_world.
Proof.
  destruct (NotesRoutes.search_notes (λ _ _, true) 1000 1 (Some "milk") None
              notes_service_world) as [[resp|e] w'] eqn:Hrun;
    [|vm_compute in Hrun; discriminate].
  exists resp, w'. split; [done|].
  by destruct (search_shows_own_open_notes (λ _ _, true) 1000 1 (Some "milk") None
                 notes_service_world resp w' Hrun) as (_ & _ & Ht & _).
Defined.

(** X14.  DELETE /:id of the notes service.  When it answers 200 the note it
    names was a note of the caller and the table is the old one without the
    row of that note's id; when it answers 404 no stored note with that key
    belongs to the caller, and neither the table nor the cache has
    changed. *)
Theorem notes_service_deletes_own_note now uid nid w resp w' :
  NotesService.delete_note now uid nid w = (Ok resp, w') →
  (status resp = 200%nat →
   (∃ n, Service.table w !! nid = Some n ∧ NotesService.userId n = uid
         ∧ Service.table w' = delete (NotesService.note_id n) (Service.table w)))
  ∧ (status resp = 404%nat →
     (∀ n, Service.table w !! nid = Some n → NotesService.userId n ≠ uid)
     ∧ Service.table w' = Service.table w
     ∧ Service.redis w' = Service.redis w).
Proof.
  unfold NotesService.delete_note, try_catch. unfold bind at 1.
  unfold NotesService.Note_findOne. rewrite query_unfold.
  assert (∀ label message e (w0 : NotesService.World),
            Service.server_error label message e w0 = (Ok resp, w') →
            status resp = 500%nat) as Herr.
  { intros label message e w0. apply server_error_status. }
  destruct (Service.dfaults w) as [|[] fs] eqn:Hfs; simpl.
  2:{ intros Hrun%Herr. rewrite Hrun. split; intros [=]. }
  all: destruct (Service.table w !! nid) as [n|] eqn:Hn; simpl.
  all: try destruct (N.eqb_spec (NotesService.userId n) uid) as [Hu|Hu]; simpl.
  all: try (intros [= <- <-]; split; [intros [=]|intros _; split_and!; [|done..]];
            by intros ? [= <-]).
  all: unfold bind at 1, NotesService.Note_destroy; rewrite query_unfold; simpl.
  all: try (destruct fs as [|[] fs']; simpl).
  all: try (intros Hrun%Herr; rewrite Hrun; split; intros [=]).
  all: unfold bind at 1.
  all: match goal with
       | |- context [NotesService.clearUserCache ?t ?u ?w1] =>
           destruct (NotesService.clearUserCache t u w1) as [[[]|e] w2] eqn:Hclear
       end.
  all: try (intros Hrun%Herr; rewrite Hrun; split; intros [=]).
  all: unfold NotesService.clearUserCache in Hclear; rewrite notes_pattern in Hclear.
  all: apply delete_matching_ok in Hclear as (_ & _ & Ht & _);
    [|apply notes_prefix_plain].
  all: intros [= <- <-]; split; [intros _|intros [=]].
  all: exists n; split_and!; [done|done|by rewrite Ht].
Qed.

Lemma notes_service_deletes_own_note_witness :
  ∃ resp w',
    NotesService.delete_note 1000 1 1 notes_service_world = (Ok resp, w')
    ∧ status resp = 200%nat
    ∧ Service.table w' !! 1%N = None
    ∧ (NotesService.title <$> Service.table w' !! 2%N) = Some "Diary".
Proof.
  destruct (NotesService.delete_note 1000 1 1 notes_service_world)
    as [[resp|e] w'] eqn:Hrun; [|vm_compute in Hrun; discriminate].
  exists resp, w'.
  assert (status resp = 200%nat) as H200
    by (vm_compute in Hrun; by injection Hrun as <- _).
  destruct (notes_service_deletes_own_note 1000 1 1 notes_service_world resp w' Hrun)
    as [Hok _].
  destruct (Hok H200) as (n & Hn & _ & ->).
  vm_compute in Hn. injection Hn as <-.
  split_and!; [done|done|by vm_compute|by vm_compute].
Defined.

(** ** The auth service *)

(** X15.  Login, then refresh.  The refresh token a successful login hands
    out is accepted by POST /refresh on a Redis that answers, before the
    thirty days of its entry are over and as long as it verifies for the
    user it was issued to: the answer is 200 with a new access token for
    that user. *)
Theorem refresh_follows_login `{JwtLib} `{BcryptLib} now now' b w resp w' :
  AuthService.login now b w = (Ok resp, w') →
  status resp = 200%nat →
  Redis.faulty (Service.redis w') = false →
  (now' < now + days 30)%Z →
  ∃ user token,
    body resp = envelope_data true "Login successful"
      (JObj [("user", AuthService.userResponse user);
             ("accessToken", JStr (generateToken now (AuthService.user_id user)));
             ("refreshToken", JStr token)])
    ∧ ∀ c,
        truthy_string token = true →
        jwt_verify now' token = Ok c →
        claim_id c = AuthService.user_id user →
        ∃ w'',
          AuthService.refresh now' (Some token) w'
          = (Ok (res_json
                   (JObj [("success", JBool true);
                          ("data", JObj [("accessToken",
                                          JStr (generateToken now'
                                                  (AuthService.user_id user)))])])),
             w'').
Proof.
  intros Hlogin H200 Hf Hnow'.
  destruct (login_stores now b w resp w' Hlogin H200) as (user & Hstored & Hbody).
  exists user, (generateRefreshToken now (AuthService.user_id user)).
  split; [done|]. intros c Htruthy Hverify Hid.
  destruct (refresh_accepts now' _ c w' Htruthy Hverify Hf) as [w'' Hw''];
    [|exists w''; by rewrite Hid in Hw''].
  unfold Redis.lookup. rewrite Hid, Hstored. simpl. unfold Redis.live. simpl.
  unfold days in Hnow'. destruct (Z.ltb_spec now' (now + 2592000)); [done|lia].
Qed.

Lemma refresh_follows_login_witness :
  ∃ resp w' resp' w'',
    AuthService.login (H := spelled_jwt) (H0 := prefix_bcrypt) 1000 alice_login auth_world
    = (Ok resp, w')
    ∧ AuthService.refresh (H := spelled_jwt) 1500
        (Some (generateRefreshToken (H := spelled_jwt) 1000 1)) w'
      = (Ok resp', w'')
    ∧ status resp' = 200%nat.
Proof.
  destruct (AuthService.login (H := spelled_jwt) (H0 := prefix_bcrypt) 1000 alice_login
              auth_world) as [[resp|e] w'] eqn:Hrun; [|vm_compute in Hrun; discriminate].
  assert (status resp = 200%nat) as H200
    by (vm_compute in Hrun; by injection Hrun as <- _).
  assert (Redis.faulty (Service.redis w') = false) as Hf
    by (vm_compute in Hrun; by injection Hrun as _ <-).
  destruct (refresh_follows_login (H := spelled_jwt) (H0 := prefix_bcrypt)
              1000 1500 alice_login auth_world resp w' Hrun H200 Hf ltac:(vm_compute; done))
    as (user & token & Hbody & Hrefresh).
  assert (AuthService.user_id user = 1%N
          ∧ token = generateRefreshToken (H := spelled_jwt) 1000 1) as [Hid ->].
  { vm_compute in Hrun. injection Hrun as <- _. simpl in Hbody.
    injection Hbody as Hid _ _ _ _ _ _ Htoken. split; [lia|done]. }
  destruct (Hrefresh (mkClaims 1 (Some "refresh") 1000 (1000 + days 30)))
    as [w'' Hw'']; [by vm_compute|by vm_compute|by rewrite Hid|].
  eexists resp, w', _, w''. by split_and!.
Defined.

(** X16.  Logout ends the refresh token.  On a Redis that answers its next
    command, a logout that presents a refresh token which verifies answers
    200 whatever access token comes with it, and from then on POST /refresh
    answers 403 to that refresh token at every instant, until the next
    login of that identity stores a token again. *)
Theorem refresh_token_dies_at_logout `{JwtLib} now refreshToken accessToken c w :
  truthy_string refreshToken = true →
  jwt_verify now refreshToken = Ok c →
  Redis.faulty (Service.redis w) = false →
  ∃ w',
    AuthService.logout now (Some refreshToken) accessToken w
    = (Ok AuthService.logout_successful, w')
    ∧ Service.table w' = Service.table w
    ∧ ∀ now', ∃ w'',
        AuthService.refresh now' (Some refreshToken) w'
        = (Ok AuthService.invalid_refresh, w'').
Proof.
  intros Htruthy Hverify Hf.
  destruct (logout_drops_refresh now refreshToken accessToken c w Htruthy Hverify Hf)
    as (w' & Hrun & Hgone & Htable).
  exists w'. split_and!; [done..|]. intros now'.
  apply refresh_rejects_absent; [done|]. intros c' Hdecode.
  apply jwt_verify_ok in Hverify as [Hc _]. rewrite Hc in Hdecode.
  by injection Hdecode as <-.
Qed.

Lemma refresh_token_dies_at_logout_witness :
  ∃ w' w'',
    AuthService.logout (H := spelled_jwt) 2100
      (Some (generateRefreshToken (H := spelled_jwt) 2000 1))
      (Some (generateToken (H := spelled_jwt) 2000 1)) auth_world_two_logins
    = (Ok AuthService.logout_successful, w')
    ∧ AuthService.refresh (H := spelled_jwt) 2200
        (Some (generateRefreshToken (H := spelled_jwt) 2000 1)) w'
      = (Ok AuthService.invalid_refresh, w'').
Proof.
  destruct (refresh_token_dies_at_logout (H := spelled_jwt) 2100
              (generateRefreshToken (H := spelled_jwt) 2000 1)
              (Some (generateToken (H := spelled_jwt) 2000 1))
              (mkClaims 1 (Some "refresh") 2000 (2000 + days 30))
              auth_world_two_logins)
    as (w' & Hlogout & _ & Hrefresh); [by vm_compute..|].
  destruct (Hrefresh 2200%Z) as [w'' Hw''].
  by exists w', w''.
Defined.

(** X17.  POST /verify.  It always answers, with 200 or 401, and never
    changes the users or what Redis stores.  It answers 200 only when Redis
    answered and holds no live entry with a truthy value under the
    blacklist key of the token, the token verifies, and the user its [id]
    names is stored; the body then shows id, name, e-mail address and
    username of that user and nothing else of the row. *)
Theorem verify_accepts_only_valid_tokens `{JwtLib} now token w :
  ∃ resp w',
    AuthService.verify now token w = (Ok resp, w')
    ∧ Service.table w' = Service.table w
    ∧ Redis.store (Service.redis w') = Redis.store (Service.redis w)
    ∧ (status resp = 200%nat ∨ status resp = 401%nat)
    ∧ (status resp = 200%nat →
       Redis.faulty (Service.redis w) = false
       ∧ truthy_opt (Redis.lookup now (Service.redis w) (AuthService.blacklist_key token))
         = false
       ∧ ∃ c user,
           jwt_verify now token = Ok c
           ∧ Service.table w !! claim_id c = Some user
           ∧ body resp
             = JObj [("valid", JBool true);
                     ("user", JObj [("id", JNum (Z.of_N (AuthService.user_id user)));
                                    ("name", JStr (AuthService.name user));
                                    ("email", JStr (AuthService.email user));
                                    ("username", JStr (AuthService.username user))])]).
Proof.
  unfold AuthService.verify, try_catch. unfold bind at 1.
  rewrite redisClient_run. unfold Redis.get. rewrite command_unfold.
  destruct (Redis.faulty (Service.redis w)) eqn:Hf; simpl.
  { eexists _, _. split_and!; [done..|by right|intros [=]]. }
  change (Redis.lookup now (Redis.ticked (Service.redis w)) (AuthService.blacklist_key token))
    with (Redis.lookup now (Service.redis w) (AuthService.blacklist_key token)).
  destruct (truthy_opt (Redis.lookup now _ _)) eqn:Hblack; simpl.
  { eexists _, _. split_and!; [done..|by right|intros [=]]. }
  unfold bind at 1. rewrite verify_token_run.
  destruct (jwt_verify now token) as [c|e] eqn:Hverify; simpl.
  2:{ eexists _, _. split_and!; [done..|by right|intros [=]]. }
  unfold bind at 1, AuthService.User_findByPk. rewrite query_unfold. simpl.
  destruct (Service.dfaults w) as [|[] fs] eqn:Hfs; simpl.
  2:{ eexists _, _. split_and!; [done..|by right|intros [=]]. }
  all: destruct (Service.table w !! claim_id c) as [user|] eqn:Huser; simpl.
  all: eexists _, _; split_and!; [done..| |].
  all: try (by right); try (by left); try (by intros [=]).
  all: intros _; split_and!; [done..|]; by exists c, user.
Qed.

(** ** The gateways *)

(** X18.  The token check of the REST gateway.  A request goes on to the
    proxied service only when its header carries a token, Redis answered
    the blacklist lookup, no live truthy entry is stored under
    [blacklist:<token>] and the token verifies; the service then sees the
    claims of that token.  In every other case the gateway answers 401 or
    403 itself, the same whatever the service behind it is; in particular
    every token is answered 403 while Redis does not answer.  The check
    never changes what Redis stores. *)
Theorem gateway_passes_only_clean_tokens `{JwtLib} now authorization (r : Redis.t string) :
  ((∀ token c,
      header_token authorization = Some token →
      Redis.faulty r = false →
      truthy_opt (Redis.lookup now r (RestGateway.blacklist_key token)) = false →
      jwt_verify now token ≠ Ok c) →
   ∃ resp r',
     (status resp = 401%nat ∨ status resp = 403%nat)
     ∧ Redis.store r' = Redis.store r
     ∧ ∀ next, RestGateway.authenticateToken now authorization next r = (Ok resp, r'))
  ∧ (∀ token, header_token authorization = Some token → Redis.faulty r = true →
       ∀ next, RestGateway.authenticateToken now authorization next r
               = (Ok (plain_error 403 "Invalid or expired token"), Redis.ticked r))
  ∧ (∀ token c next,
       header_token authorization = Some token →
       Redis.faulty r = false →
       truthy_opt (Redis.lookup now r (RestGateway.blacklist_key token)) = false →
       jwt_verify now token = Ok c →
       RestGateway.authenticateToken now authorization next r = next c (Redis.ticked r)).
Proof.
  unfold RestGateway.authenticateToken. split_and!.
  - intros Hnone. destruct (header_token authorization) as [token|].
    2:{ exists (plain_error 401 "Access token required"), r.
        split_and!; [by left|done|done]. }
    unfold bind. rewrite check_token_run.
    destruct (Redis.faulty r) eqn:Hf.
    { exists (plain_error 403 "Invalid or expired token"), (Redis.ticked r).
      split_and!; [by right|done|done]. }
    destruct (truthy_opt _) eqn:Hblack.
    { exists (plain_error 401 "Token has been revoked"), (Redis.ticked r).
      split_and!; [by left|done|done]. }
    destruct (jwt_verify now token) as [c|e] eqn:Hverify.
    { by destruct (Hnone token c). }
    exists (plain_error 403 "Invalid or expired token"), (Redis.ticked r).
    split_and!; [by right|done|done].
  - intros token -> Hf next. unfold bind. by rewrite check_token_run, Hf.
  - intros token c next -> Hf Hblack Hverify. unfold bind.
    by rewrite check_token_run, Hf, Hblack, Hverify.
Qed.

(** X19.  Logout at the auth service, then the gateway.  After a logout
    whose access token verifies (on a Redis that answers, the refresh step
    going through), the gateway, which reads the same Redis, lets no request
    with that token through: it answers 401, Token has been revoked, until
    the token expires, and 403 from then on, whatever the scheme word in
    front of the token is. *)
Theorem gateway_rejects_after_logout `{JwtLib} now refreshToken token c w :
  truthy_string token = true →
  space_free token = true →
  jwt_verify now token = Ok c →
  Redis.rfaults (Service.redis w) = [] →
  refresh_step_passes now refreshToken = true →
  ∃ w',
    AuthService.logout now refreshToken (Some token) w
    = (Ok AuthService.logout_successful, w')
    ∧ ∀ now' scheme next,
        space_free scheme = true →
        RestGateway.authenticateToken now' (Some (scheme ++ " " ++ token)) next
          (Service.redis w')
        = (Ok (if (now' <? claim_exp c)%Z
               then plain_error 401 "Token has been revoked"
               else plain_error 403 "Invalid or expired token"),
           Service.redis w').
Proof.
  intros Htruthy Hfree Hverify Hnf Hstep.
  destruct (logout_blacklists now refreshToken token c w Htruthy Hverify Hnf Hstep)
    as (w' & Hrun & Hnf' & Hentry).
  exists w'. split; [done|]. intros now' scheme next Hscheme.
  unfold RestGateway.authenticateToken.
  rewrite (header_token_scheme scheme token Hscheme Hfree Htruthy).
  unfold bind. rewrite check_token_run.
  assert (Redis.ticked (Service.redis w') = Service.redis w') as ->.
  { destruct (Service.redis w') as [st fs]. simpl in Hnf'. by subst fs. }
  unfold Redis.faulty. rewrite Hnf'.
  unfold Redis.lookup. rewrite blacklist_key_shared, Hentry.
  unfold Redis.live. simpl.
  apply jwt_verify_ok in Hverify as [Hdecode _].
  destruct (Z.ltb_spec now' (claim_exp c)) as [Hlive|Hdead]; [done|].
  simpl. unfold jwt_verify. rewrite Hdecode.
  by destruct (Z.ltb_spec now' (claim_exp c)); [lia|].
Qed.

Lemma gateway_rejects_after_logout_witness :
  ∃ w',
    AuthService.logout (H := spelled_jwt) 2100 None
      (Some (generateToken (H := spelled_jwt) 2000 1)) auth_world_two_logins
    = (Ok AuthService.logout_successful, w')
    ∧ ∀ next,
        RestGateway.authenticateToken (H := spelled_jwt) 2200
          (Some ("Bearer " ++ generateToken (H := spelled_jwt) 2000 1)) next
          (Service.redis w')
        = (Ok (plain_error 401 "Token has been revoked"), Service.redis w').
Proof.
  destruct (gateway_rejects_after_logout (H := spelled_jwt) 2100 None
              (generateToken (H := spelled_jwt) 2000 1)
              (mkClaims 1 None 2000 (2000 + days 7)) auth_world_two_logins)
    as (w' & Hlogout & Hgate); [by vm_compute..|].
  exists w'. split; [done|]. intros next.
  by apply (Hgate 2200%Z "Bearer" next).
Defined.

(** X20.  POST /api/notes of the hybrid gateway.  When it answers 201 the
    notes service reported success, no cached list of the caller can be read
    any more (so the next GET /api/notes of the caller asks the service,
    whatever its query), no other key changed, and exactly one event,
    noteCreated with the new note, went to the room of the caller.  When it
    answers anything else, nothing was emitted and the Redis store is as it
    was; a 400 means the service refused, and Redis was not even asked. *)
Theorem gateway_create_clears_and_notifies createNote now uid b w resp w' :
  GatewayWrites.create_note createNote now uid b w = (Ok resp, w') →
  (status resp = 201%nat →
   ∃ reply,
     createNote (GatewayWrites.mkCreateNoteRequest
                   (GatewayWrites.b_title b) (GatewayWrites.b_text b) uid
                   (default [] (GatewayWrites.b_tags b))
                   (default false (GatewayWrites.b_isPinned b))) = Ok reply
     ∧ GatewayWrites.reply_success reply = true
     ∧ body resp = JObj [("success", JBool true);
                         ("message", JStr (GatewayWrites.reply_message reply));
                         ("data", JObj [("note", GatewayWrites.reply_note reply)])]
     ∧ (∀ q now', (now ≤ now')%Z →
          Redis.lookup now' (Gateway.redis (GatewayWrites.gateway w'))
                       (Gateway.cacheKey uid q) = None)
     ∧ (∀ k, (∀ rest, k ≠ gateway_prefix uid ++ rest) →
          Redis.store (Gateway.redis (GatewayWrites.gateway w')) !! k
          = Redis.store (Gateway.redis (GatewayWrites.gateway w)) !! k)
     ∧ GatewayWrites.emitted w'
       = (GatewayWrites.emitted w
          ++ [GatewayWrites.mkEmitted ("user_" ++ pretty uid) "noteCreated"
                (JObj [("type", JStr "NOTE_CREATED");
                       ("note", GatewayWrites.reply_note reply)])])%list)
  ∧ (status resp ≠ 201%nat →
     GatewayWrites.emitted w' = GatewayWrites.emitted w
     ∧ Redis.store (Gateway.redis (GatewayWrites.gateway w'))
       = Redis.store (Gateway.redis (GatewayWrites.gateway w)))
  ∧ (status resp = 400%nat →
     Gateway.redis (GatewayWrites.gateway w') = Gateway.redis (GatewayWrites.gateway w)).
Proof.
  unfold GatewayWrites.create_note, try_catch.
  unfold bind at 1, GatewayWrites.grpc.
  destruct (createNote _) as [reply|e] eqn:Hcall.
  2:{ intros [= <- <-]. simpl. split_and!; [intros [=]|done|intros [=]]. }
  destruct (GatewayWrites.reply_success reply) eqn:Hsuccess.
  2:{ intros [= <- <-]. simpl. split_and!; [intros [=]|done|done]. }
  destruct ((let! keys := GatewayWrites.redisClient
                            (Redis.keys now (GatewayWrites.cachePattern uid)) in
             if (0 <? List.length keys)%nat
             then GatewayWrites.redisClient (Redis.del keys) else ret tt) w)
    as [[[]|e] w1] eqn:Hclear.
  - pose proof (gateway_clear_ok now uid w w1 Hclear) as (Hgone & Hkeep & Hem & _).
    revert Hclear. unfold bind.
    destruct (GatewayWrites.redisClient (Redis.keys _ _) w) as [[ks|e] w0]; [|done].
    destruct ((if (0 <? List.length ks)%nat
               then GatewayWrites.redisClient (Redis.del ks) else ret tt) w0)
      as [[[]|e] w2]; [|done].
    intros [= ->]. simpl. intros [= <- <-]. simpl.
    split_and!; [intros _|by intros []|intros [=]].
    exists reply. split_and!; [done..| |done|by rewrite Hem].
    intros q now' Hle. destruct (gateway_cacheKey_prefix uid q) as [rest ->].
    by apply Hgone.
  - apply gateway_clear_throw in Hclear as Hsame. destruct Hsame as [Hst Hem].
    revert Hclear. unfold bind.
    destruct (GatewayWrites.redisClient (Redis.keys _ _) w) as [[ks|e0] w0].
    + destruct ((if (0 <? List.length ks)%nat
                 then GatewayWrites.redisClient (Redis.del ks) else ret tt) w0)
        as [[[]|e1] w2]; [done|].
      intros [= -> ->]. simpl. intros [= <- <-]. simpl.
      split_and!; [intros [=]|done|intros [=]].
    + intros [= -> ->]. simpl. intros [= <- <-]. simpl.
      split_and!; [intros [=]|done|intros [=]].
Qed.

Lemma gateway_create_clears_and_notifies_witness :
  ∃ resp w',
    GatewayWrites.create_note accepting_notes_service 1000 1 shopping_note
      gateway_world_cached = (Ok resp, w')
    ∧ status resp = 201%nat
    ∧ Redis.lookup 1000 (Gateway.redis (GatewayWrites.gateway w'))
        (Gateway.cacheKey 1 query_plain) = None
    ∧ Redis.lookup 1000 (Gateway.redis (GatewayWrites.gateway w'))
        (Gateway.cacheKey 2 query_plain) = Some (JStr "list of 2")
    ∧ List.length (GatewayWrites.emitted w') = 1%nat.
Proof.
  destruct (GatewayWrites.create_note accepting_notes_service 1000 1 shopping_note
              gateway_world_cached) as [[resp|e] w'] eqn:Hrun;
    [|vm_compute in Hrun; discriminate].
  assert (status resp = 201%nat) as H201
    by (vm_compute in Hrun; by injection Hrun as <- _).
  destruct (gateway_create_clears_and_notifies accepting_notes_service 1000 1
              shopping_note gateway_world_cached resp w' Hrun) as (Hok & _ & _).
  destruct (Hok H201) as (reply & _ & _ & _ & Hgone & Hkeep & Hem).
  exists resp, w'. split_and!; [done|done| | |].
  - by apply Hgone.
  - unfold Redis.lookup. rewrite Hkeep; [by vm_compute|].
    intros rest. vm_compute. by intros [=].
  - rewrite Hem. by vm_compute.
Defined.

(** ** The auth service behind gRPC *)

(** X21.  Logout of the auth service behind gRPC.  Each of its two steps
    has a [try] of its own, so it always replies that the logout succeeded,
    changes no user and logs nothing.  On a Redis that answers, an access
    token that verifies is blacklisted whatever refresh token came with it,
    one that does not verify included, and from then until the access
    token expires [validateToken] replies that the token has been revoked; a
    refresh token that verifies loses its entry whatever access token came
    with it, and [refreshToken] replies from then on that it is invalid. *)
Theorem grpc_logout_revokes_regardless `{JwtLib} now access_token refresh_token w :
  ∃ w',
    GrpcAuth.logout now access_token refresh_token w
    = (Ok GrpcAuth.logout_successful, w')
    ∧ Service.table (GrpcAuth.service w') = Service.table (GrpcAuth.service w)
    ∧ GrpcAuth.logged w' = GrpcAuth.logged w
    ∧ (∀ token c,
         access_token = Some token → truthy_string token = true →
         jwt_verify now token = Ok c →
         Redis.rfaults (Service.redis (GrpcAuth.service w)) = [] →
         Redis.store (Service.redis (GrpcAuth.service w')) !! GrpcAuth.blacklist_key token
         = Some (Redis.mkEntry "revoked" (claim_exp c - now) (claim_exp c))
         ∧ ∀ now', (now' < claim_exp c)%Z →
             ∃ w'', GrpcAuth.validateToken now' token w'
                    = (Ok (GrpcAuth.not_valid "Token has been revoked"), w''))
    ∧ (∀ token c,
         refresh_token = Some token → truthy_string token = true →
         jwt_verify now token = Ok c →
         Redis.faulty (Service.redis (GrpcAuth.service w)) = false →
         ∀ now', ∃ w'',
           GrpcAuth.refreshToken now' token w' = (Ok GrpcAuth.invalid_refresh, w'')).
Proof.
  unfold GrpcAuth.logout, try_catch. unfold bind at 1.
  destruct (grpc_drop_refresh_token_run now refresh_token w)
    as (w1 & -> & Ht1 & Hl1 & _ & Hnf1 & Hdrop).
  unfold bind at 1.
  destruct (grpc_blacklist_access_token_run now access_token w1)
    as (w2 & -> & Ht2 & Hl2 & Hblack & Hkeep).
  exists w2. split_and!; [done|congruence|congruence| |].
  - intros token c Haccess Htruthy Hverify Hnf.
    destruct (Hblack token c Haccess Htruthy Hverify (Hnf1 Hnf)) as [Hnf2 Hentry].
    split; [done|]. intros now' Hlive.
    eapply validateToken_blacklisted; [|exact Hentry|done|done].
    unfold Redis.faulty. by rewrite Hnf2.
  - intros token c Hrefresh Htruthy Hverify Hf now'.
    apply refreshToken_absent. intros c' Hdecode.
    apply jwt_verify_ok in Hverify as Hc. destruct Hc as [Hc _].
    rewrite Hc in Hdecode. injection Hdecode as <-.
    rewrite Hkeep by (intros t; apply grpc_blacklist_key_not_refresh_key).
    by apply (Hdrop token c).
Qed.

Lemma grpc_logout_revokes_regardless_witness :
  ∃ w' w'',
    GrpcAuth.logout (H := spelled_jwt) 2100
      (Some (generateToken (H := spelled_jwt) 2000 1)) (Some "not a token")
      grpc_auth_world
    = (Ok GrpcAuth.logout_successful, w')
    ∧ GrpcAuth.validateToken (H := spelled_jwt) 2200
        (generateToken (H := spelled_jwt) 2000 1) w'
      = (Ok (GrpcAuth.not_valid "Token has been revoked"), w'').
Proof.
  destruct (grpc_logout_revokes_regardless (H := spelled_jwt) 2100
              (Some (generateToken (H := spelled_jwt) 2000 1)) (Some "not a token")
              grpc_auth_world) as (w' & Hlogout & _ & _ & Hblack & _).
  destruct (Hblack (generateToken (H := spelled_jwt) 2000 1)
              (mkClaims 1 None 2000 (2000 + days 7)))
    as [_ Hvalidate]; [by vm_compute..|].
  destruct (Hvalidate 2200%Z) as [w'' Hw'']; [by vm_compute|].
  by exists w', w''.
Defined.

(** ** The users service *)

(** X22.  PUT /me/password.  It answers 200 only when the caller is stored,
    bcrypt accepts the submitted current password against the stored hash
    and the new password has six characters or more; then exactly the row of
    the caller is rewritten, with the hash of the new password and the
    current time, every other attribute as before.  Whenever it answers
    anything else, no row has changed.  Redis is never touched. *)
Theorem password_change_needs_the_old_one `{BcryptLib} now uid b w resp w' :
  UsersService.change_password now uid b w = (Ok resp, w') →
  Service.redis w' = Service.redis w
  ∧ (status resp = 200%nat →
     ∃ user,
       Service.table w !! uid = Some user
       ∧ bcrypt_compare (default "" (UsersService.currentPassword b))
                        (AuthService.password user) = true
       ∧ (6 ≤ String.length (default "" (UsersService.newPassword b)))%nat
       ∧ Service.table w'
         = <[AuthService.user_id user :=
               AuthService.mkUser (AuthService.user_id user) (AuthService.name user)
                 (AuthService.email user) (AuthService.username user)
                 (bcrypt_hash (default "" (UsersService.newPassword b)))
                 (AuthService.createdAt user) now]> (Service.table w))
  ∧ (status resp ≠ 200%nat → Service.table w' = Service.table w).
Proof.
  unfold UsersService.change_password, try_catch, UsersService.validate_password.
  destruct (truthy_opt (UsersService.currentPassword b)); simpl.
  2:{ intros [= <- <-]. split_and!; [done|intros [=]|done]. }
  unfold isLength_min.
  destruct (Nat.leb_spec 6 (String.length (default "" (UsersService.newPassword b))))
    as [Hlen|Hlen]; simpl.
  2:{ intros [= <- <-]. split_and!; [done|intros [=]|done]. }
  unfold bind at 1, AuthService.User_findByPk. rewrite query_unfold.
  destruct (Service.dfaults w) as [|[] fs] eqn:Hfs; simpl.
  2:{ intros [= <- <-]. simpl. split_and!; [done|intros [=]|done]. }
  all: destruct (Service.table w !! uid) as [user|] eqn:Huser; simpl.
  all: try (intros [= <- <-]; simpl; split_and!; [done|by intros [=]|done]).
  all: destruct (bcrypt_compare _ (AuthService.password user)) eqn:Hcompare; simpl.
  all: try (intros [= <- <-]; simpl; split_and!; [done|by intros [=]|done]).
  all: try (unfold bind at 1, UsersService.User_update_password; rewrite query_unfold; simpl).
  all: try (destruct fs as [|[] fs']; simpl).
  all: intros [= <- <-]; simpl; split_and!; [done| |]; try (by intros [=]); try done.
  all: intros _; by exists user.
Qed.

Lemma password_change_needs_the_old_one_witness :
  ∃ resp w',
    UsersService.change_password (H := prefix_bcrypt) 5000 1
      (UsersService.mkPasswordBody (Some "wonderland") (Some "looking-glass"))
      auth_world = (Ok resp, w')
    ∧ status resp = 200%nat
    ∧ (AuthService.password <$> Service.table w' !! 1%N) = Some "$2a$12$looking-glass".
Proof.
  destruct (UsersService.change_password (H := prefix_bcrypt) 5000 1
              (UsersService.mkPasswordBody (Some "wonderland") (Some "looking-glass"))
              auth_world) as [[resp|e] w'] eqn:Hrun; [|vm_compute in Hrun; discriminate].
  assert (status resp = 200%nat) as H200
    by (vm_compute in Hrun; by injection Hrun as <- _).
  destruct (password_change_needs_the_old_one (H := prefix_bcrypt) 5000 1 _ auth_world
              resp w' Hrun) as (_ & Hok & _).
  destruct (Hok H200) as (user & Huser & _ & _ & Htable).
  vm_compute in Huser. injection Huser as <-.
  exists resp, w'. split_and!; [done|done|]. rewrite Htable. by vm_compute.
Defined.

(** X23.  DELETE /me.  It answers 200 only when the caller is stored and
    bcrypt accepts the submitted password against the stored hash; then the
    row of the caller is deleted and no other row changes.  Whenever it
    answers anything else, no row has changed. *)
Theorem account_deletion_needs_the_password `{BcryptLib} uid password w resp w' :
  UsersService.delete_account uid password w = (Ok resp, w') →
  (status resp = 200%nat →
   ∃ user,
     Service.table w !! uid = Some user
     ∧ bcrypt_compare (default "" password) (AuthService.password user) = true
     ∧ Service.table w' = delete (AuthService.user_id user) (Service.table w))
  ∧ (status resp ≠ 200%nat → Service.table w' = Service.table w).
Proof.
  unfold UsersService.delete_account, try_catch, UsersService.validate_delete.
  destruct (truthy_opt password); simpl.
  2:{ intros [= <- <-]. split_and!; [intros [=]|done]. }
  unfold bind at 1, AuthService.User_findByPk. rewrite query_unfold.
  destruct (Service.dfaults w) as [|[] fs] eqn:Hfs; simpl.
  2:{ intros [= <- <-]. simpl. split_and!; [intros [=]|done]. }
  all: destruct (Service.table w !! uid) as [user|] eqn:Huser; simpl.
  all: try (intros [= <- <-]; simpl; split_and!; [by intros [=]|done]).
  all: destruct (bcrypt_compare _ (AuthService.password user)) eqn:Hcompare; simpl.
  all: try (intros [= <- <-]; simpl; split_and!; [by intros [=]|done]).
  all: try (unfold bind at 1, UsersService.User_destroy; rewrite query_unfold; simpl).
  all: try (destruct fs as [|[] fs']; simpl).
  all: intros [= <- <-]; simpl; split_and!; try (by intros [=]); try done.
  all: intros _; by exists user.
Qed.

Lemma account_deletion_needs_the_password_witness :
  ∃ resp w',
    UsersService.delete_account (H := prefix_bcrypt) 1 (Some "wonderland") auth_world
    = (Ok resp, w')
    ∧ status resp = 200%nat
    ∧ Service.table w' !! 1%N = None.
Proof.
  destruct (UsersService.delete_account (H := prefix_bcrypt) 1 (Some "wonderland")
              auth_world) as [[resp|e] w'] eqn:Hrun; [|vm_compute in Hrun; discriminate].
  assert (status resp = 200%nat) as H200
    by (vm_compute in Hrun; by injection Hrun as <- _).
  destruct (account_deletion_needs_the_password (H := prefix_bcrypt) 1 _ auth_world
              resp w' Hrun) as (Hok & _).
  destruct (Hok H200) as (user & Huser & _ & Htable).
  vm_compute in Huser. injection Huser as <-.
  exists resp, w'. split_and!; [done|done|]. rewrite Htable. by vm_compute.
Defined.

(** X24.  A changed password at the login of the auth service.  Let the
    users service and the auth service share the table, bcrypt accept a
    password against its own hash and against no hash of another password,
    and let nobody else have the username of the caller as username or
    e-mail address.  After a password change that answered 200, with the
    database and Redis answering, a login under the username of the caller
    answers 200 exactly when it presents the new password; the old one is
    refused. *)
Theorem new_password_logs_in `{JwtLib} `{BcryptLib} now now' uid b user pass w resp w' :
  (∀ p, bcrypt_compare p (bcrypt_hash p) = true) →
  (∀ p q, bcrypt_compare p (bcrypt_hash q) = true → p = q) →
  Service.table w !! uid = Some user →
  AuthService.user_id user = uid →
  (∀ k r, Service.table w !! k = Some r → k ≠ uid →
          AuthService.username r ≠ AuthService.username user
          ∧ AuthService.email r ≠ toLowerCase (AuthService.username user)) →
  UsersService.change_password now uid b w = (Ok resp, w') →
  status resp = 200%nat →
  Service.dfaults w' = [] →
  Redis.faulty (Service.redis w') = false →
  truthy_string (AuthService.username user) = true →
  truthy_string pass = true →
  ∃ resp' w'',
    AuthService.login now'
      (AuthService.mkLoginBody (Some (AuthService.username user)) (Some pass)) w'
    = (Ok resp', w'')
    ∧ (status resp' = 200%nat ↔ pass = default "" (UsersService.newPassword b)).
Proof.
  intros Haccepts Hrefuses Huser Hid Hothers Hchange H200 Hdb Hredis Huname Hpass.
  destruct (change_password_ok now uid b w resp w' Hchange H200)
    as (user0 & Huser0 & Htable).
  rewrite Huser in Huser0. injection Huser0 as <-. rewrite Hid in Htable.
  set (user' := UsersService.set_password now
                  (bcrypt_hash (default "" (UsersService.newPassword b))) user) in *.
  unfold AuthService.login, try_catch, AuthService.validate_login. simpl.
  rewrite Huname, Hpass. simpl. unfold bind at 1.
  rewrite (User_findOne_or_unique _ _ w' user' Hdb); cycle 1.
  { exists uid. rewrite Htable. apply lookup_insert_eq. }
  { by left. }
  { intros k r Hk Hmatch. rewrite Htable in Hk.
    destruct (decide (k = uid)) as [->|Hne].
    - rewrite lookup_insert_eq in Hk. by injection Hk as <-.
    - rewrite lookup_insert_ne in Hk by done.
      destruct (Hothers k r Hk Hne) as [Hu Hm].
      by destruct Hmatch. }
  simpl. destruct (bcrypt_compare pass _) eqn:Hcompare; simpl.
  - apply Hrefuses in Hcompare as ->.
    unfold bind at 1. rewrite redisClient_run, setEx_no_fault by (done || lia).
    simpl. by eexists _, _.
  - eexists _, _. split; [done|]. simpl. split; [done|].
    intros ->. by rewrite Haccepts in Hcompare.
Qed.

Lemma new_password_logs_in_witness :
  ∃ resp w' old_login new_login w1 w2,
    UsersService.change_password (H := prefix_bcrypt) 5000 1
      (UsersService.mkPasswordBody (Some "wonderland") (Some "looking-glass"))
      auth_world = (Ok resp, w')
    ∧ AuthService.login (H := spelled_jwt) (H0 := prefix_bcrypt) 6000
        (AuthService.mkLoginBody (Some "alice") (Some "wonderland")) w'
      = (Ok old_login, w1)
    ∧ status old_login ≠ 200%nat
    ∧ AuthService.login (H := spelled_jwt) (H0 := prefix_bcrypt) 6000
        (AuthService.mkLoginBody (Some "alice") (Some "looking-glass")) w'
      = (Ok new_login, w2)
    ∧ status new_login = 200%nat.
Proof.
  destruct (UsersService.change_password (H := prefix_bcrypt) 5000 1
              (UsersService.mkPasswordBody (Some "wonderland") (Some "looking-glass"))
              auth_world) as [[resp|e] w'] eqn:Hrun; [|vm_compute in Hrun; discriminate].
  assert (status resp = 200%nat ∧ Service.dfaults w' = []
          ∧ Redis.faulty (Service.redis w') = false) as (H200 & Hdb & Hredis)
    by (vm_compute in Hrun; by injection Hrun as <- <-).
  assert (∀ p, bcrypt_compare (BcryptLib := prefix_bcrypt) p
                 (bcrypt_hash (BcryptLib := prefix_bcrypt) p) = true) as Haccepts.
  { intros p. simpl. by apply bool_decide_eq_true. }
  assert (∀ p q, bcrypt_compare (BcryptLib := prefix_bcrypt) p
                   (bcrypt_hash (BcryptLib := prefix_bcrypt) q) = true → p = q)
    as Hrefuses.
  { intros p q Heq%bool_decide_eq_true. cbn in Heq. by injection Heq. }
  assert (∀ k r, Service.table auth_world !! k = Some r → k ≠ 1%N →
                 AuthService.username r ≠ AuthService.username alice
                 ∧ AuthService.email r ≠ toLowerCase (AuthService.username alice))
    as Hothers.
  { intros k r Hk Hne. unfold auth_world in Hk. simpl in Hk.
    by rewrite lookup_singleton_ne in Hk. }
  pose proof (λ pass Hpass,
    new_password_logs_in (H := spelled_jwt) (H0 := prefix_bcrypt) 5000 6000 1 _ alice
      pass auth_world resp w' Haccepts Hrefuses eq_refl eq_refl Hothers Hrun H200 Hdb
      Hredis eq_refl Hpass) as Hlogin.
  destruct (Hlogin "wonderland" eq_refl) as (old_login & w1 & Hold & Hiff_old).
  destruct (Hlogin "looking-glass" eq_refl) as (new_login & w2 & Hnew & Hiff_new).
  exists resp, w', old_login, new_login, w1, w2. split_and!; [done|done| |done|].
  - intros Hs. by apply Hiff_old in Hs.
  - by apply Hiff_new.
Defined.

(** ** The gateway: reading the list *)

(** X25.  GET /api/notes of the hybrid gateway, on a Redis that answers.
    A request that finds nothing under its key asks the notes service,
    answers with what the service replied and stores that answer for 300
    seconds, whether the service reported success or not.  Until then every
    request of the same user with the same query is answered with the
    stored body, and the notes service is not asked; afterwards the entry
    cannot be read any more. *)
Theorem gateway_list_is_replayed
    (getNotes : N → Gateway.Query → Res Gateway.NotesReply) now uid q reply w :
  Redis.rfaults (Gateway.redis w) = [] →
  Redis.lookup now (Gateway.redis w) (Gateway.cacheKey uid q) = None →
  getNotes uid q = Ok reply →
  let result :=
    JObj [("success", JBool (Gateway.reply_success reply));
          ("data", JObj [("notes", JArr (default [] (Gateway.reply_notes reply)));
                         ("pagination", Gateway.reply_pagination reply)]);
          ("message", JStr (Gateway.reply_message reply))] in
  ∃ w1,
    Gateway.get_notes getNotes now uid q w = (Ok (res_json result), w1)
    ∧ (∀ now' getNotes',
         (now' < now + 300)%Z →
         Gateway.get_notes getNotes' now' uid q w1 = (Ok (res_json result), w1))
    ∧ (∀ now', (now + 300 ≤ now')%Z →
         Redis.lookup now' (Gateway.redis w1) (Gateway.cacheKey uid q) = None).
Proof.
  intros Hnf Hmiss Hcall result.
  assert (∀ g : Gateway.World,
            Redis.rfaults (Gateway.redis g) = [] →
            Redis.faulty (Gateway.redis g) = false
            ∧ Gateway.set_redis (Redis.ticked (Gateway.redis g)) g = g) as Hhealthy.
  { intros [[st fs] d l]. simpl. intros ->. by split. }
  set (key := Gateway.cacheKey uid q) in *.
  set (w1 := Gateway.set_redis
               (Redis.mk (<[key := Redis.mkEntry result 300 (now + 300)%Z]>
                            (Redis.store (Gateway.redis w))) []) w).
  destruct (Hhealthy w Hnf) as [Hf Hw].
  exists w1. split_and!.
  - unfold Gateway.get_notes, try_catch. unfold bind at 1.
    unfold Gateway.redisClient at 1. rewrite get_no_fault by done. rewrite Hw.
    fold key. rewrite Hmiss.
    unfold bind at 1, Gateway.grpc. rewrite Hcall.
    unfold bind at 1, Gateway.redisClient. rewrite setEx_no_fault by (done || lia).
    simpl. by rewrite Hnf.
  - intros now' getNotes' Hlive.
    destruct (Hhealthy w1 eq_refl) as [Hf1 Hw1].
    unfold Gateway.get_notes, try_catch. unfold bind at 1.
    unfold Gateway.redisClient at 1. rewrite get_no_fault by done. rewrite Hw1.
    fold key. unfold Redis.lookup. simpl. rewrite lookup_insert_eq. simpl.
    unfold Redis.live. simpl. by rewrite (proj2 (Z.ltb_lt _ _) Hlive).
  - intros now' Hlate. unfold Redis.lookup. simpl. fold key. rewrite lookup_insert_eq.
    unfold Redis.live. simpl. by rewrite (proj2 (Z.ltb_ge _ _) Hlate).
Qed.

Lemma gateway_list_is_replayed_witness :
  ∃ resp w1,
    Gateway.get_notes
      (λ _ _, Ok (Gateway.mkNotesReply true (Some [JStr "a note"]) JNull "Notes retrieved"))
      1000 3 query_plain (GatewayWrites.gateway gateway_world_cached) = (Ok resp, w1)
    ∧ Gateway.get_notes (λ _ _, Throw "UNAVAILABLE") 1299 3 query_plain w1 = (Ok resp, w1).
Proof.
  destruct (gateway_list_is_replayed
              (λ _ _, Ok (Gateway.mkNotesReply true (Some [JStr "a note"]) JNull
                            "Notes retrieved"))
              1000 3 query_plain
              (Gateway.mkNotesReply true (Some [JStr "a note"]) JNull "Notes retrieved")
              (GatewayWrites.gateway gateway_world_cached))
    as (w1 & Hrun & Hreplay & _); [by vm_compute..|].
  eexists _, w1. split; [exact Hrun|]. apply Hreplay. lia.
Defined.

(** ** The auth service: registration *)

(** X26.  POST /register of the auth service.  When it answers 201, the
    password has six characters or more, nobody stored had the e-mail
    address or the username, exactly one row was added under the next key,
    holding the trimmed name, the normalised e-mail address in lower case,
    the username and the bcrypt hash of the password; the refresh token of
    the answer is stored under the key of the new user for thirty days; and
    the answer shows the user without the password.  When it answers 400,
    neither the users nor Redis have changed. *)
Theorem service_registration_stores_the_hash `{JwtLib} `{BcryptLib} `{ValidatorLib}
    now b w resp w' :
  AuthRegister.register now b w = (Ok resp, w') →
  (status resp = 201%nat →
   let user := AuthService.mkUser (Service.next_id w)
                 (trim (default "" (AuthRegister.r_name b)))
                 (toLowerCase (normalizeEmail (default "" (AuthRegister.r_email b))))
                 (default "" (AuthRegister.r_username b))
                 (bcrypt_hash (default "" (AuthRegister.r_password b))) now now in
   (6 ≤ String.length (default "" (AuthRegister.r_password b)))%nat
   ∧ (∀ k r, Service.table w !! k = Some r →
             AuthService.email r ≠ AuthService.email user
             ∧ AuthService.username r ≠ AuthService.username user)
   ∧ Service.table w' = <[Service.next_id w := user]> (Service.table w)
   ∧ Redis.store (Service.redis w') !! AuthService.refresh_key (Service.next_id w)
     = Some (Redis.mkEntry (generateRefreshToken now (Service.next_id w))
                           2592000 (now + 2592000)%Z)
   ∧ body resp
     = envelope_data true "User registered successfully"
         (JObj [("user", AuthService.userResponse user);
                ("accessToken", JStr (generateToken now (Service.next_id w)));
                ("refreshToken", JStr (generateRefreshToken now (Service.next_id w)))]))
  ∧ (status resp = 400%nat →
     Service.table w' = Service.table w ∧ Service.redis w' = Service.redis w).
Proof.
  unfold AuthRegister.register, try_catch.
  destruct (AuthRegister.validate_register b) as [|field fields] eqn:Hvalid.
  2:{ intros [= <- <-]. split; [intros [=]|done]. }
  assert (6 ≤ String.length (default "" (AuthRegister.r_password b)))%nat as Hlen.
  { unfold AuthRegister.validate_register in Hvalid.
    repeat (apply app_eq_nil in Hvalid as [_ Hvalid]).
    unfold isLength_min in Hvalid.
    destruct (Nat.leb_spec 6 (String.length (default "" (AuthRegister.r_password b))));
      [done|discriminate]. }
  assert (truthy_string (default "" (AuthRegister.r_password b)) = true) as Htruthy.
  { destruct (default "" (AuthRegister.r_password b)); [simpl in Hlen; lia|done]. }
  unfold bind at 1, AuthService.User_findOne_or. rewrite query_unfold.
  assert (∀ label message e (w0 : AuthService.World),
            Service.server_error label message e w0 = (Ok resp, w') →
            (status resp = 201%nat → False) ∧ (status resp = 400%nat → False)) as Herr.
  { intros label message e w0 Hrun%server_error_status. rewrite Hrun.
    split; intros [=]. }
  destruct (Service.dfaults w) as [|[] fs] eqn:Hfs; simpl.
  2:{ intros [Hno1 Hno4]%Herr. split; intros Hs; [by destruct Hno1|by destruct Hno4]. }
  all: destruct (list_find _ (map_to_list (Service.table w))) as [[i [k u]]|] eqn:Hfind;
    simpl.
  all: try (intros [= <- <-]; split; [by intros [=]|done]).
  all: apply list_find_None in Hfind; rewrite Forall_forall in Hfind.
  all: unfold bind at 1, AuthRegister.User_create.
  all: destruct (isEmail _); simpl;
    [|intros [Hno1 Hno4]%Herr; split; intros Hs; [by destruct Hno1|by destruct Hno4]].
  all: rewrite query_unfold; simpl.
  all: try (destruct fs as [|[] fs']; simpl).
  all: try (intros [Hno1 Hno4]%Herr; split; intros Hs; [by destruct Hno1|by destruct Hno4]).
  all: destruct (existsb (λ kv : N * AuthService.User,
                            bool_decide (AuthService.email kv.2 = _)) _); simpl.
  all: try (intros [Hno1 Hno4]%Herr; split; intros Hs; [by destruct Hno1|by destruct Hno4]).
  all: destruct (existsb (λ kv : N * AuthService.User,
                            bool_decide (AuthService.username kv.2 = _)) _); simpl.
  all: try (intros [Hno1 Hno4]%Herr; split; intros Hs; [by destruct Hno1|by destruct Hno4]).
  all: unfold AuthRegister.beforeCreate; simpl; rewrite Htruthy; simpl.
  all: unfold bind at 1; rewrite redisClient_run; simpl.
  all: match goal with
       | |- context [Redis.setEx ?t ?k ?ttl ?v ?r] =>
           destruct (Redis.setEx t k ttl v r) as [[[]|e] r1] eqn:Hset; simpl
       end.
  all: try (intros [Hno1 Hno4]%Herr; split; intros Hs; [by destruct Hno1|by destruct Hno4]).
  all: intros [= <- <-]; split; [intros _|by intros [=]]; simpl.
  all: apply setEx_ok in Hset as [_ Hst]; simpl in Hst.
  all: split_and!; [done| |done| |done].
  all: try (rewrite Hst; apply lookup_insert_eq).
  all: intros k r Hk; specialize (Hfind (k, r)); simpl in Hfind.
  all: apply elem_of_map_to_list in Hk; specialize (Hfind Hk).
  all: split; intros Heq; apply Hfind; [by right|by left].
Qed.

Lemma service_registration_stores_the_hash_witness :
  ∃ resp w',
    AuthRegister.register (H := spelled_jwt) (H0 := prefix_bcrypt) (H1 := at_sign_validator)
      3000 bob_registration auth_world = (Ok resp, w')
    ∧ status resp = 201%nat
    ∧ (AuthService.password <$> Service.table w' !! 2%N) = Some "$2a$12$secret9"
    ∧ (AuthService.email <$> Service.table w' !! 2%N) = Some "bob@example.com".
Proof.
  destruct (AuthRegister.register (H := spelled_jwt) (H0 := prefix_bcrypt)
              (H1 := at_sign_validator) 3000 bob_registration auth_world)
    as [[resp|e] w'] eqn:Hrun; [|vm_compute in Hrun; discriminate].
  assert (status resp = 201%nat) as H201
    by (vm_compute in Hrun; by injection Hrun as <- _).
  destruct (service_registration_stores_the_hash (H := spelled_jwt) (H0 := prefix_bcrypt)
              (H1 := at_sign_validator) 3000 bob_registration auth_world resp w' Hrun)
    as [Hok _].
  destruct (Hok H201) as (_ & _ & Htable & _).
  exists resp, w'. rewrite Htable. split_and!; [done|done|by vm_compute|by vm_compute].
Defined.
